(** * concord: reconciliation of an organization manifest against GitHub

    A shallow embedding of the Go sources of concord and the proofs of its
    specified properties.

    - [strings], [slices], [fmt], [errors]: the Go library functions the
      sources call.
    - [gh_pb]: the manifest.  [github]: the go-github values and calls.
    - [clt]: the gateway, that is the methods of the client ([GetRepos],
      [GetRepo], [GetRepoTopics], [GetBranches], [GetBranchProtection],
      [IsBranchProtected], [GetOrg], [OrgExists], [GetMembers],
      [InviteMember]).
    - [cmd]: the reconciler ([reposRun], [ensureRepo], [ensureTopics],
      [createRepo], [ensureProtectedBranches], [createProtectedBranch],
      [UpdateBranchProtection], [ensureSignedCommits]) and the member
      reconciler ([membersRun], [managedMember], [missingMembers],
      [inviteMembers]).
    - [sim]: a simulated GitHub account to run the code against.

    Go values are modelled as follows.  A pointer is an [option] (nil is
    [None]); go-github's getters are nil-safe and return the zero value on
    nil, a field access through nil panics.  Go [int] and [int64] are [Z].
    Strings are byte strings, and [strings.EqualFold] is taken on ASCII.  A
    Go function returning [(T, error)] is a computation in the monad [M],
    which threads the remote, the log of calls, the report, the manifest in
    memory and the client's work list, and ends with a value, an error, a
    panic, or the exhaustion of the fuel that bounds the one [for] loop
    without a bound. *)

From Stdlib Require Import List String Ascii ZArith Bool Lia Arith Permutation Sorted.
Import ListNotations.
Local Open Scope string_scope.
Local Open Scope list_scope.


(* ------------------------------------------------------------------ *)
(** ** Go standard library functions used by the sources *)

Module strings.

(** Lower-casing of one ASCII byte: 'A'..'Z' are mapped to 'a'..'z'. *)
Definition lower (c : ascii) : ascii :=
  let n := nat_of_ascii c in
  if (65 <=? n)%nat && (n <=? 90)%nat then ascii_of_nat (n + 32) else c.

(** [strings.EqualFold] on ASCII strings: equality under case folding. *)
Fixpoint EqualFold (s t : string) : bool :=
  match s, t with
  | EmptyString, EmptyString => true
  | String a s', String b t' => Ascii.eqb (lower a) (lower b) && EqualFold s' t'
  | _, _ => false
  end.

(** [strings.Join]. *)
Fixpoint Join (elems : list string) (sep : string) : string :=
  match elems with
  | [] => ""
  | [x] => x
  | x :: rest => x ++ sep ++ Join rest sep
  end.

End strings.

Module slices.

(** Insertion of [x] in a list sorted for the byte-wise order of Go
    strings ([String.leb]). *)
Fixpoint insert (x : string) (l : list string) : list string :=
  match l with
  | [] => [x]
  | y :: l' => if String.leb x y then x :: l else y :: insert x l'
  end.

(** [slices.Sort] on a [[]string]: the slice in ascending order.  The Go
    function sorts in place; callers store the result back in the slice
    they passed. *)
Fixpoint Sort (l : list string) : list string :=
  match l with
  | [] => []
  | x :: l' => insert x (Sort l')
  end.

(** [slices.Equal] on [[]string]. *)
Fixpoint Equal (s1 s2 : list string) : bool :=
  match s1, s2 with
  | [], [] => true
  | x :: s1', y :: s2' => String.eqb x y && Equal s1' s2'
  | _, _ => false
  end.

End slices.

Module fmt.

(** [fmt.Sprintf("%t", b)]. *)
Definition Sprintf_t (b : bool) : string := if b then "true" else "false".

End fmt.

(** Two's-complement wrap-around of an [int64] result. *)
Definition wrap64 (z : Z) : Z :=
  ((z + 9223372036854775808) mod 18446744073709551616 - 9223372036854775808)%Z.

(* ------------------------------------------------------------------ *)
(** ** The manifest ([gh_pb]) *)

(** Modelled from the spec: the package [github/v1] that declares the
    manifest types is not among the sources.  The shapes are those of
    section 3, with the field names the sources read; an optional field is
    a pointer, and the [Protection] of a branch is taken to be present. *)

Module gh_pb.

Module People.
Record t := mk { Name : string; Username : string }.
End People.

Module Protection.
Record t := mk {
  RequirePr : option bool;
  ChecksMustPass : option bool;
  RequiredChecks : list string;
  SignedCommits : option bool }.
End Protection.

Module Branch.
Record t := mk { Name : string; Protection : Protection.t }.
End Branch.

Module Repository.
Record t := mk {
  Name : string;
  Description : option string;
  Archived : option bool;
  Private : option bool;
  DefaultBranch : option string;
  Labels : list string;
  ProtectedBranches : list Branch.t }.

Definition withLabels (r : t) (l : list string) : t :=
  mk (Name r) (Description r) (Archived r) (Private r) (DefaultBranch r)
     l (ProtectedBranches r).
End Repository.

Module Organization.
Record t := mk {
  Name : string;
  People : list People.t;
  Repositories : list Repository.t }.
End Organization.

End gh_pb.

(* ------------------------------------------------------------------ *)
(** ** The go-github types the sources use *)

Module github.

Definition orZero (o : option Z) : Z := match o with Some z => z | None => 0%Z end.
Definition orFalse (o : option bool) : bool := match o with Some b => b | None => false end.
Definition orEmpty (o : option string) : string := match o with Some s => s | None => "" end.

Module Repository.
Record t := mk {
  Name : option string;
  Description : option string;
  Archived : option bool;
  Private : option bool;
  DefaultBranch : option string;
  Topics : list string }.

(** [&github.Repository{}] *)
Definition empty : t := mk None None None None None [].

(** Nil-safe getters: the receiver is a pointer. *)
Definition GetDescription (r : option t) : string :=
  match r with Some r => orEmpty (Description r) | None => "" end.
Definition GetArchived (r : option t) : bool :=
  match r with Some r => orFalse (Archived r) | None => false end.
Definition GetPrivate (r : option t) : bool :=
  match r with Some r => orFalse (Private r) | None => false end.
Definition GetDefaultBranch (r : option t) : string :=
  match r with Some r => orEmpty (DefaultBranch r) | None => "" end.
End Repository.

Module Organization.
Record t := mk { PublicRepos : option Z; TotalPrivateRepos : option Z }.
Definition GetPublicRepos (o : option t) : Z :=
  match o with Some o => orZero (PublicRepos o) | None => 0%Z end.
Definition GetTotalPrivateRepos (o : option t) : Z :=
  match o with Some o => orZero (TotalPrivateRepos o) | None => 0%Z end.
End Organization.

Module User.
Record t := mk {
  Login : option string;
  ID : option Z;
  PublicRepos : option Z;
  TotalPrivateRepos : option Z }.
Definition GetLogin (u : t) : string := orEmpty (Login u).
Definition GetPublicRepos (u : option t) : Z :=
  match u with Some u => orZero (PublicRepos u) | None => 0%Z end.
Definition GetTotalPrivateRepos (u : option t) : Z :=
  match u with Some u => orZero (TotalPrivateRepos u) | None => 0%Z end.
End User.

Module Branch.
Record t := mk { Name : option string }.
End Branch.

Module RequiredStatusCheck.
Record t := mk { Context : string }.
End RequiredStatusCheck.

Module RequiredStatusChecks.
Record t := mk { Checks : list RequiredStatusCheck.t }.
End RequiredStatusChecks.

(** [github.PullRequestReviewsEnforcementRequest{}]: the sources only ever
    build the empty request. *)
Module PullRequestReviewsEnforcementRequest.
Record t := mk { }.
End PullRequestReviewsEnforcementRequest.

Module ProtectionRequest.
Record t := mk {
  RequiredStatusChecks : option RequiredStatusChecks.t;
  RequiredPullRequestReviews : option PullRequestReviewsEnforcementRequest.t }.
End ProtectionRequest.

Module SignaturesProtectedBranch.
Record t := mk { Enabled : option bool }.
Definition GetEnabled (s : option t) : bool :=
  match s with Some s => orFalse (Enabled s) | None => false end.
End SignaturesProtectedBranch.

Module Protection.
Record t := mk {
  RequiredStatusChecks : option RequiredStatusChecks.t;
  RequiredPullRequestReviews : bool;
  RequiredSignatures : option SignaturesProtectedBranch.t }.
Definition GetRequiredSignatures (p : option t) : option SignaturesProtectedBranch.t :=
  match p with Some p => RequiredSignatures p | None => None end.
End Protection.

Module ListOptions.
Record t := mk { Page : Z; PerPage : Z }.
End ListOptions.

(** [RepositoryListByOrgOptions] and [RepositoryListOptions] *)
Module RepositoryListOptions.
Record t := mk { Type_ : string; ListOptions : ListOptions.t }.
End RepositoryListOptions.

Module Response.
Record t := mk { StatusCode : Z; NextPage : Z }.
End Response.

(** The dynamic type of a non-nil [error] returned by go-github. *)
Inductive error :=
| RateLimitError
| ErrorResponse (status : Z)
| OtherError (msg : string).

Definition isRateLimitError (e : error) : bool :=
  match e with RateLimitError => true | _ => false end.

(** One call of the go-github client. *)
Inductive Request :=
| Organizations_Get (name : string)
| Users_Get (name : string)
| Repositories_ListByOrg (org : string) (opts : RepositoryListOptions.t)
| Repositories_List (user : string) (opts : RepositoryListOptions.t)
| Repositories_Get (owner repo : string)
| Repositories_ListAllTopics (owner repo : string)
| Repositories_ListBranches (owner repo : string)
| Repositories_GetBranchProtection (owner repo branch : string)
| Organizations_ListMembers (org : string)
| Organizations_CreateOrgInvitation (org : string) (inviteeID : option Z)
| Repositories_Create (org : string) (repo : Repository.t)
| Repositories_Edit (owner repo : string) (patch : Repository.t)
| Repositories_ReplaceAllTopics (owner repo : string) (topics : list string)
| Repositories_UpdateBranchProtection (owner repo branch : string) (preq : ProtectionRequest.t)
| Repositories_RequireSignaturesOnProtectedBranch (owner repo branch : string).

(** The calls that change the remote. *)
Definition isWrite (rq : Request) : bool :=
  match rq with
  | Organizations_CreateOrgInvitation _ _
  | Repositories_Create _ _
  | Repositories_Edit _ _ _
  | Repositories_ReplaceAllTopics _ _ _
  | Repositories_UpdateBranchProtection _ _ _ _
  | Repositories_RequireSignaturesOnProtectedBranch _ _ _ => true
  | _ => false
  end.

(** The first component of what a call returns (nil is [NoPayload]). *)
Inductive Payload :=
| NoPayload
| POrganization (o : Organization.t)
| PUser (u : User.t)
| PRepositories (rs : list Repository.t)
| PRepository (r : Repository.t)
| PTopics (ts : list string)
| PBranches (bs : list Branch.t)
| PProtection (p : Protection.t)
| PUsers (us : list User.t).

(** What a call returns: [(payload, resp, err)]. *)
Record Answer := mkAnswer {
  payload : Payload;
  resp : option Response.t;
  err : option error }.

Definition asOrganization (p : Payload) : option Organization.t :=
  match p with POrganization o => Some o | _ => None end.
Definition asUser (p : Payload) : option User.t :=
  match p with PUser u => Some u | _ => None end.
Definition asRepositories (p : Payload) : list Repository.t :=
  match p with PRepositories rs => rs | _ => [] end.
Definition asRepository (p : Payload) : option Repository.t :=
  match p with PRepository r => Some r | _ => None end.
Definition asTopics (p : Payload) : list string :=
  match p with PTopics ts => ts | _ => [] end.
Definition asBranches (p : Payload) : list Branch.t :=
  match p with PBranches bs => bs | _ => [] end.
Definition asProtection (p : Payload) : option Protection.t :=
  match p with PProtection q => Some q | _ => None end.
Definition asUsers (p : Payload) : list User.t :=
  match p with PUsers us => us | _ => [] end.

End github.

(** The remote behind the go-github client: a state and the answer it gives
    to each call. *)
Class Provider := {
  World : Type;
  roundTrip : World -> github.Request -> github.Answer * World }.

(* ------------------------------------------------------------------ *)
(** ** Reports, errors and the monad of the program *)

(** Modelled from the spec: the package [report] is not among the
    sources.  Following section 6, the output is an ordered list of lines,
    each with its category marker. *)
Module report.
(** One call of the [report] package. *)
Inductive Line :=
| Header (s : string)
| Info (s : string)
| Add (s : string)
| Warn (s : string)
| Success (s : string)
| Newline.
End report.

Module http.
Definition StatusNotFound : Z := 404%Z.
End http.

Module client.

(** The values of type [error] that the gateway and the reconciler return. *)
Inductive error :=
| ErrGetBranch
| ErrRepoNotFound
| ErrNoReposFound
| ErrBranchProtectionNotFound
| ErrOrgNotFound
| ErrUserNotFound
| Errorf (format : string) (arg : option github.error)
| Upstream (e : github.error).

End client.

Module errors.
Import client.
(** [errors.Is(err, target)] for a sentinel [target]: no error built by
    [fmt.Errorf] in the sources wraps a sentinel. *)
Definition Is (err target : client.error) : bool :=
  match target, err with
  | ErrGetBranch, ErrGetBranch
  | ErrRepoNotFound, ErrRepoNotFound
  | ErrNoReposFound, ErrNoReposFound
  | ErrBranchProtectionNotFound, ErrBranchProtectionNotFound
  | ErrOrgNotFound, ErrOrgNotFound
  | ErrUserNotFound, ErrUserNotFound => true
  | _, _ => false
  end.
End errors.

(** How a computation ends. *)
Inductive Res (A : Type) :=
| Ok (a : A)
| Error (e : client.error)
| Panic
| OutOfFuel.
Arguments Ok {A} a.
Arguments Error {A} e.
Arguments Panic {A}.
Arguments OutOfFuel {A}.

Section Monad.
Context {P : Provider}.

(** The state of a run: the remote, the calls made to it with their
    answers, the report printed, the manifest in memory, and the
    client's list of deferred invitations [(org, username)]. *)
Record State := mkState {
  world : World;
  calls : list (github.Request * github.Answer);
  output : list report.Line;
  manifest : gh_pb.Organization.t;
  queue : list (string * string) }.

Definition M (A : Type) : Type := State -> Res A * State.

Definition ret {A} (a : A) : M A := fun st => (Ok a, st).

Definition bind {A B} (m : M A) (k : A -> M B) : M B :=
  fun st =>
    match m st with
    | (Ok a, st') => k a st'
    | (Error e, st') => (Error e, st')
    | (Panic, st') => (Panic, st')
    | (OutOfFuel, st') => (OutOfFuel, st')
    end.

(** [return err] *)
Definition throw {A} (e : client.error) : M A := fun st => (Error e, st).

(** A nil dereference. *)
Definition panic {A} : M A := fun st => (Panic, st).

Definition outOfFuel {A} : M A := fun st => (OutOfFuel, st).

(** [v, err := f(...)]: the error becomes a value the caller inspects. *)
Definition attempt {A} (m : M A) : M (A + client.error) :=
  fun st =>
    match m st with
    | (Ok a, st') => (Ok (inl a), st')
    | (Error e, st') => (Ok (inr e), st')
    | (Panic, st') => (Panic, st')
    | (OutOfFuel, st') => (OutOfFuel, st')
    end.

(** One call of the go-github client. *)
Definition call (rq : github.Request) : M github.Answer :=
  fun st =>
    let (a, w) := roundTrip (world st) rq in
    (Ok a, mkState w (calls st ++ [(rq, a)]) (output st) (manifest st) (queue st)).

Definition print (l : report.Line) : M unit :=
  fun st => (Ok tt, mkState (world st) (calls st) (output st ++ [l]) (manifest st) (queue st)).

Definition getManifest : M gh_pb.Organization.t := fun st => (Ok (manifest st), st).

Definition setManifest (o : gh_pb.Organization.t) : M unit :=
  fun st => (Ok tt, mkState (world st) (calls st) (output st) o (queue st)).

Definition enqueue (org username : string) : M unit :=
  fun st => (Ok tt, mkState (world st) (calls st) (output st) (manifest st)
                            (queue st ++ [(org, username)])).

(** [resp.StatusCode] and [resp.NextPage]: [resp] is a pointer. *)
Definition StatusCode (r : option github.Response.t) : M Z :=
  match r with Some r => ret (github.Response.StatusCode r) | None => panic end.
Definition NextPage (r : option github.Response.t) : M Z :=
  match r with Some r => ret (github.Response.NextPage r) | None => panic end.

End Monad.

Declare Scope go_scope.
Delimit Scope go_scope with go.
Notation "x <- m ;; k" := (bind m (fun x => k))
  (at level 100, m at next level, right associativity) : go_scope.
Notation "m ;; k" := (bind m (fun _ => k))
  (at level 100, right associativity) : go_scope.
Local Open Scope go_scope.

(* ------------------------------------------------------------------ *)
(** ** The gateway: the methods of [*client.Client], which the reconciler
    calls through its variable [clt]

    [c.rate.Wait(ctx)] blocks until the limiter grants a token and has no
    other effect; it is not represented. *)

Module clt.
Section Gateway.
Context {P : Provider}.
Import client.

Definition hitRateLimit : client.error := Errorf "github: hit rate limit" None.

Definition listOpts (page : Z) : github.RepositoryListOptions.t :=
  github.RepositoryListOptions.mk "all" (github.ListOptions.mk page 100).

(** The [for] loop of [GetRepos]: [page] is [orgOpts.Page] when [orgFound]
    and [userOpts.Page] otherwise, [repos] the slice accumulated so far. *)
Fixpoint GetRepos_loop (fuel : nat) (name : string) (orgFound : bool)
         (page : Z) (repos : list github.Repository.t)
  : M (list github.Repository.t) :=
  match fuel with
  | O => outOfFuel
  | S fuel' =>
      a <- call (if orgFound
                 then github.Repositories_ListByOrg name (listOpts page)
                 else github.Repositories_List name (listOpts page)) ;;
      match github.err a with
      | Some e =>
          if github.isRateLimitError e then throw hitRateLimit
          else throw (Errorf "list repos: %v" (Some e))
      | None =>
          let rs := github.asRepositories (github.payload a) in
          let repos' :=
            repos ++ filter (fun r => negb (github.Repository.GetArchived (Some r))) rs in
          next <- NextPage (github.resp a) ;;
          if (next =? 0)%Z then ret repos'
          else GetRepos_loop fuel' name orgFound next repos'
      end
  end.

Definition GetRepos (fuel : nat) (name : string) : M (list github.Repository.t) :=
  a <- call (github.Organizations_Get name) ;;
  let org := github.asOrganization (github.payload a) in
  match github.resp a, github.err a with
  | None, Some e =>
      if github.isRateLimitError e then throw hitRateLimit
      else throw (Errorf "get org: %w" (Some e))
  | _, _ =>
      status <- StatusCode (github.resp a) ;;
      orgFound_count <-
        (if (status =? http.StatusNotFound)%Z then
           u <- call (github.Users_Get name) ;;
           let user := github.asUser (github.payload u) in
           match github.err u with
           | Some e =>
               if github.isRateLimitError e then throw hitRateLimit
               else throw (Errorf "get user: %v" (Some e))
           | None =>
               ret (false, wrap64 (github.User.GetPublicRepos user
                                   + github.User.GetTotalPrivateRepos user))
           end
         else
           ret (true, wrap64 (github.Organization.GetPublicRepos org
                              + github.Organization.GetTotalPrivateRepos org))) ;;
      let (orgFound, count) := (orgFound_count : bool * Z) in
      if (count <? 1)%Z then throw ErrNoReposFound
      else GetRepos_loop fuel name orgFound 0 []
  end.

(** The error handling shared by [GetRepo], [GetRepoTopics] and
    [GetBranches]. *)
Definition classify {A} (a : github.Answer) (notFound : client.error)
           (format : string) (v : A) : M A :=
  match github.err a with
  | Some e =>
      if github.isRateLimitError e then throw hitRateLimit
      else
        status <- StatusCode (github.resp a) ;;
        if (status =? http.StatusNotFound)%Z then throw notFound
        else throw (Errorf format (Some e))
  | None => ret v
  end.

Definition GetRepo (org name : string) : M (option github.Repository.t) :=
  a <- call (github.Repositories_Get org name) ;;
  classify a ErrRepoNotFound "get repo: %w" (github.asRepository (github.payload a)).

Definition GetRepoTopics (org name : string) : M (list string) :=
  a <- call (github.Repositories_ListAllTopics org name) ;;
  classify a ErrRepoNotFound "get repo topics: %w" (github.asTopics (github.payload a)).

Definition GetBranches (org repo : string) : M (list github.Branch.t) :=
  a <- call (github.Repositories_ListBranches org repo) ;;
  classify a ErrRepoNotFound "get branches: %w" (github.asBranches (github.payload a)).

Definition GetBranchProtection (org repo branch : string)
  : M (option github.Protection.t) :=
  a <- call (github.Repositories_GetBranchProtection org repo branch) ;;
  classify a ErrBranchProtectionNotFound "get branch: %w"
           (github.asProtection (github.payload a)).

Definition IsBranchProtected (org repo branch : string) : M bool :=
  a <- call (github.Repositories_GetBranchProtection org repo branch) ;;
  match github.err a with
  | Some e =>
      if github.isRateLimitError e then throw hitRateLimit
      else
        status <- StatusCode (github.resp a) ;;
        if (status =? http.StatusNotFound)%Z then ret false
        else throw (Errorf "get branch: %w" (Some e))
  | None =>
      ret (match github.asProtection (github.payload a) with
           | Some _ => true | None => false end)
  end.

Definition GetOrg (orgName : string) : M (option github.Organization.t) :=
  a <- call (github.Organizations_Get orgName) ;;
  match github.err a with
  | Some e =>
      match e with
      | github.RateLimitError => throw (Upstream e)
      | github.ErrorResponse status =>
          if (status =? http.StatusNotFound)%Z then throw ErrOrgNotFound
          else throw (Upstream e)
      | github.OtherError _ => throw (Upstream e)
      end
  | None => ret (github.asOrganization (github.payload a))
  end.

Definition OrgExists (orgName : string) : M bool :=
  r <- attempt (GetOrg orgName) ;;
  match r with
  | inr e => if errors.Is e ErrOrgNotFound then ret false else throw e
  | inl _ => ret true
  end.

Definition GetMembers (orgName : string) : M (list github.User.t) :=
  a <- call (github.Organizations_ListMembers orgName) ;;
  match github.err a with
  | Some e => throw (Upstream e)
  | None => ret (github.asUsers (github.payload a))
  end.

(** The function that [InviteMember] hands to [c.Add]. *)
Definition inviteTask (orgName username : string) : M unit :=
  a <- call (github.Users_Get username) ;;
  match github.err a with
  | Some e =>
      if github.isRateLimitError e then throw (Upstream e)
      else
        status <- StatusCode (github.resp a) ;;
        if (status =? http.StatusNotFound)%Z then throw ErrUserNotFound
        else throw (Upstream e)
  | None =>
      match github.asUser (github.payload a) with
      | None => panic
      | Some user =>
          b <- call (github.Organizations_CreateOrgInvitation orgName (github.User.ID user)) ;;
          match github.err b with
          | Some e => throw (Upstream e)
          | None =>
              print (report.Success ("invited " ++ username)) ;;
              print report.Newline
          end
      end
  end.

(** Modelled from the spec: [c.Add] is not among the sources; section 5
    says an invite intent is appended to an ordered work list and only
    issued in a separate drain step.  The work list is [queue]; an entry
    [(org, username)] stands for the function [inviteTask org username]. *)
Definition Add (orgName username : string) : M unit := enqueue orgName username.

Definition InviteMember (orgName username : string) : M unit :=
  print (report.Add ("invite " ++ username)) ;;
  print report.Newline ;;
  Add orgName username.

(** Modelled from the spec: the write operations of the gateway
    ([CreateRepo], [UpdateRepo], [SetRepoTopics], [ProtectBranch],
    [RequireSignedCommits]) are not among the sources.  Following section
    4.1, each issues its one call, fails at once on a rate-limit signal,
    and wraps any other error with the operation's context. *)
Definition write (rq : github.Request) (format : string) : M unit :=
  a <- call rq ;;
  match github.err a with
  | Some e =>
      if github.isRateLimitError e then throw hitRateLimit
      else throw (Errorf format (Some e))
  | None => ret tt
  end.

Definition CreateRepo (org : string) (state : github.Repository.t) : M unit :=
  write (github.Repositories_Create org state) "create repo: %w".

Definition UpdateRepo (org name : string) (edits : github.Repository.t) : M unit :=
  write (github.Repositories_Edit org name edits) "update repo: %w".

Definition SetRepoTopics (org name : string) (topics : list string) : M unit :=
  write (github.Repositories_ReplaceAllTopics org name topics) "set repo topics: %w".

Definition ProtectBranch (org repo branch : string)
           (state : github.ProtectionRequest.t) : M unit :=
  write (github.Repositories_UpdateBranchProtection org repo branch state)
        "protect branch: %w".

Definition RequireSignedCommits (org repo branch : string) : M unit :=
  write (github.Repositories_RequireSignaturesOnProtectedBranch org repo branch)
        "require signed commits: %w".

End Gateway.
End clt.

(* ------------------------------------------------------------------ *)
(** ** The reconciler (package [cmd])

    [handleError] is not among the sources; it hands back the error it is
    given, so [return handleError(cmd, err)] is [return err]. *)

Module cmd.
Section Reconciler.
Context {P : Provider}.
Import client.

Definition println : M unit := print report.Newline.

(** [for _, x := range l { body }] *)
Fixpoint forEach {A} (l : list A) (body : A -> M unit) : M unit :=
  match l with
  | [] => ret tt
  | x :: l' => body x ;; forEach l' body
  end.

(** The same loop when the body needs the position of [x]: the elements
    of [org.Repositories] are pointers, and position [i] names the
    repository that the [i]-th pointer designates. *)
Fixpoint forEachAt {A} (i : nat) (l : list A) (body : nat -> A -> M unit) : M unit :=
  match l with
  | [] => ret tt
  | x :: l' => body i x ;; forEachAt (S i) l' body
  end.

(** Storing [l] in the [Labels] slice of the [i]-th manifest repository. *)
Fixpoint storeLabels (i : nat) (l : list string) (rs : list gh_pb.Repository.t)
  : list gh_pb.Repository.t :=
  match rs, i with
  | [], _ => []
  | r :: rs', O => gh_pb.Repository.withLabels r l :: rs'
  | r :: rs', S i' => r :: storeLabels i' l rs'
  end.

Definition setLabels (i : nat) (l : list string) : M unit :=
  org <- getManifest ;;
  setManifest (gh_pb.Organization.mk (gh_pb.Organization.Name org)
                 (gh_pb.Organization.People org)
                 (storeLabels i l (gh_pb.Organization.Repositories org))).

(** *** Repositories *)

(** The patch [edits] that [ensureRepo] builds. *)
Definition edits (repo : gh_pb.Repository.t) (ghr : option github.Repository.t)
  : github.Repository.t :=
  github.Repository.mk
    None
    (match gh_pb.Repository.Description repo with
     | Some d =>
         if negb (strings.EqualFold (github.Repository.GetDescription ghr) d)
         then gh_pb.Repository.Description repo else None
     | None => None
     end)
    (match gh_pb.Repository.Archived repo with
     | Some a =>
         if negb (Bool.eqb (github.Repository.GetArchived ghr) a)
         then gh_pb.Repository.Archived repo else None
     | None => None
     end)
    (match gh_pb.Repository.Private repo with
     | Some p =>
         if negb (Bool.eqb (github.Repository.GetPrivate ghr) p)
         then gh_pb.Repository.Private repo else None
     | None => None
     end)
    (match gh_pb.Repository.DefaultBranch repo with
     | Some b =>
         if negb (strings.EqualFold (github.Repository.GetDefaultBranch ghr) b)
         then gh_pb.Repository.DefaultBranch repo else None
     | None => None
     end)
    [].

Definition whenSome {A} (o : option A) (f : A -> M unit) : M unit :=
  match o with Some a => f a | None => ret tt end.

(** The four reports on [edits]; [verb] is "updating" in a dry run and
    "updated" after the update. *)
Definition reportEdits (verb : string) (e : github.Repository.t) : M unit :=
  whenSome (github.Repository.Description e) (fun d =>
    print (report.Add (verb ++ " description to '" ++ d ++ "'")) ;; println) ;;
  whenSome (github.Repository.Archived e) (fun a =>
    print (report.Add (verb ++ " archived to '" ++ fmt.Sprintf_t a ++ "'")) ;; println) ;;
  whenSome (github.Repository.Private e) (fun p =>
    print (report.Add (verb ++ " private to '" ++ fmt.Sprintf_t p ++ "'")) ;; println) ;;
  whenSome (github.Repository.DefaultBranch e) (fun b =>
    print (report.Add (verb ++ " default branch to '" ++ b ++ "'")) ;; println).

(** The repository [state] that [createRepo] builds ([Topics] is left nil
    when there is no label, which is the empty list). *)
Definition createState (repo : gh_pb.Repository.t) : github.Repository.t :=
  github.Repository.mk
    (Some (gh_pb.Repository.Name repo))
    (gh_pb.Repository.Description repo)
    (gh_pb.Repository.Archived repo)
    (gh_pb.Repository.Private repo)
    (gh_pb.Repository.DefaultBranch repo)
    (gh_pb.Repository.Labels repo).

(** The five reports on [state]; [verb] is "setting" or "set". *)
Definition reportState (verb : string) (s : github.Repository.t) : M unit :=
  whenSome (github.Repository.Description s) (fun d =>
    print (report.Add (verb ++ " description to '" ++ d ++ "'")) ;; println) ;;
  whenSome (github.Repository.Archived s) (fun a =>
    print (report.Add (verb ++ " archived to '" ++ fmt.Sprintf_t a ++ "'")) ;; println) ;;
  (if (0 <? List.length (github.Repository.Topics s))%nat then
     print (report.Add (verb ++ " topics to ["
                        ++ strings.Join (github.Repository.Topics s) ", " ++ "]")) ;;
     println
   else ret tt) ;;
  whenSome (github.Repository.Private s) (fun p =>
    print (report.Add (verb ++ " private to '" ++ fmt.Sprintf_t p ++ "'")) ;; println) ;;
  whenSome (github.Repository.DefaultBranch s) (fun b =>
    print (report.Add (verb ++ " default branch to '" ++ b ++ "'")) ;; println).

Definition createRepo (org : string) (repo : gh_pb.Repository.t) (dry : bool) : M unit :=
  let state := createState repo in
  if dry then
    print (report.Warn ("creating repo " ++ gh_pb.Repository.Name repo)) ;;
    println ;;
    reportState "setting" state
  else
    clt.CreateRepo org state ;;
    print (report.Warn ("created repo " ++ gh_pb.Repository.Name repo)) ;;
    println ;;
    reportState "set" state.

Definition ensureTopics (org : string) (ptr : nat) (repo : gh_pb.Repository.t)
           (ghr : option github.Repository.t) (dry : bool) : M unit :=
  if (List.length (gh_pb.Repository.Labels repo) =? 0)%nat then ret tt
  else
    match ghr with
    | None => panic
    | Some g =>
        let ghl := slices.Sort (github.Repository.Topics g) in
        let l := slices.Sort (gh_pb.Repository.Labels repo) in
        setLabels ptr l ;;
        if negb (slices.Equal ghl l) then
          if dry then
            print (report.Add ("updating labels to [" ++ strings.Join l ", " ++ "]")) ;;
            println
          else
            clt.SetRepoTopics org (gh_pb.Repository.Name repo) l ;;
            print (report.Add ("updated labels to [" ++ strings.Join l ", " ++ "]")) ;;
            println
        else
          print (report.Info ("labels are [" ++ strings.Join l ", " ++ "]")) ;;
          println
    end.

(** *** Branch protection *)

(** The request [state] that [createProtectedBranch] and
    [UpdateBranchProtection] build from the manifest branch. *)
Definition protectionRequest (branch : gh_pb.Branch.t) : github.ProtectionRequest.t :=
  let p := gh_pb.Branch.Protection branch in
  github.ProtectionRequest.mk
    (match gh_pb.Protection.ChecksMustPass p with
     | Some _ =>
         Some (github.RequiredStatusChecks.mk
                 (map github.RequiredStatusCheck.mk (gh_pb.Protection.RequiredChecks p)))
     | None => None
     end)
    (match gh_pb.Protection.RequirePr p with
     | Some _ => Some github.PullRequestReviewsEnforcementRequest.mk
     | None => None
     end).

(** The reports on the request; [verb] is "setting", "set", "updating" or
    "updated". *)
Definition reportProtection (verb : string) (branch : gh_pb.Branch.t) : M unit :=
  let p := gh_pb.Branch.Protection branch in
  whenSome (gh_pb.Protection.RequirePr p) (fun b =>
    print (report.Add (verb ++ " require pr to '" ++ fmt.Sprintf_t b ++ "'")) ;; println) ;;
  whenSome (gh_pb.Protection.ChecksMustPass p) (fun b =>
    print (report.Add (verb ++ " require status checks to '" ++ fmt.Sprintf_t b ++ "'")) ;;
    println ;;
    if (0 <? List.length (gh_pb.Protection.RequiredChecks p))%nat then
      print (report.Add (verb ++ " required checks to ["
                         ++ strings.Join (gh_pb.Protection.RequiredChecks p) ", " ++ "]")) ;;
      println
    else ret tt).

Definition ensureSignedCommits (org : string) (repo : gh_pb.Repository.t)
           (branch : gh_pb.Branch.t) (dry : bool) : M unit :=
  match gh_pb.Protection.SignedCommits (gh_pb.Branch.Protection branch) with
  | None => ret tt
  | Some signed =>
      ghpb <- clt.GetBranchProtection org (gh_pb.Repository.Name repo)
                                      (gh_pb.Branch.Name branch) ;;
      if negb (Bool.eqb (github.SignaturesProtectedBranch.GetEnabled
                           (github.Protection.GetRequiredSignatures ghpb)) signed)
      then
        if dry then
          print (report.Add ("updating require signed commits to '"
                             ++ fmt.Sprintf_t signed ++ "'")) ;;
          println
        else
          clt.RequireSignedCommits org (gh_pb.Repository.Name repo)
                                   (gh_pb.Branch.Name branch) ;;
          print (report.Add ("updated require signed commits to '"
                             ++ fmt.Sprintf_t signed ++ "'")) ;;
          println
      else
        print (report.Info ("require signed commits is '" ++ fmt.Sprintf_t signed ++ "'")) ;;
        println
  end.

Definition createProtectedBranch (org : string) (repo : gh_pb.Repository.t)
           (branch : gh_pb.Branch.t) (dry : bool) : M unit :=
  let state := protectionRequest branch in
  if dry then
    print (report.Add ("create protected branch " ++ gh_pb.Branch.Name branch
                       ++ " for repo " ++ gh_pb.Repository.Name repo)) ;;
    println ;;
    reportProtection "setting" branch ;;
    ensureSignedCommits org repo branch dry
  else
    clt.ProtectBranch org (gh_pb.Repository.Name repo) (gh_pb.Branch.Name branch) state ;;
    print (report.Warn ("created protected branch " ++ gh_pb.Branch.Name branch
                        ++ " for repo " ++ gh_pb.Repository.Name repo)) ;;
    println ;;
    reportProtection "set" branch ;;
    ensureSignedCommits org repo branch dry.

Definition UpdateBranchProtection (org : string) (repo : gh_pb.Repository.t)
           (branch : gh_pb.Branch.t) (dry : bool) : M unit :=
  let state := protectionRequest branch in
  print (report.Info ("protected branch '" ++ gh_pb.Branch.Name branch
                      ++ "' for repo " ++ gh_pb.Repository.Name repo)) ;;
  println ;;
  if dry then
    reportProtection "updating" branch ;;
    ensureSignedCommits org repo branch dry
  else
    clt.ProtectBranch org (gh_pb.Repository.Name repo) (gh_pb.Branch.Name branch) state ;;
    reportProtection "updated" branch ;;
    ensureSignedCommits org repo branch dry.

Definition ensureProtectedBranches (org : string) (repo : gh_pb.Repository.t)
           (ghr : option github.Repository.t) (dry : bool) : M unit :=
  forEach (gh_pb.Repository.ProtectedBranches repo) (fun pb =>
    r <- attempt (clt.GetBranchProtection org (gh_pb.Repository.Name repo)
                                          (gh_pb.Branch.Name pb)) ;;
    match r with
    | inr e =>
        if errors.Is e ErrBranchProtectionNotFound
        then createProtectedBranch org repo pb dry
        else throw e
    | inl _ => UpdateBranchProtection org repo pb dry
    end).

(** [ptr] is the position of [repo] in the manifest: the Go parameter is a
    pointer, and [ensureTopics] writes through it. *)
Definition ensureRepo (org : string) (ptr : nat) (repo : gh_pb.Repository.t)
           (dry : bool) : M unit :=
  r <- attempt (clt.GetRepo org (gh_pb.Repository.Name repo)) ;;
  ghr <- match r with
         | inr e =>
             if negb (errors.Is e ErrRepoNotFound) then throw e
             else createRepo org repo dry ;; ret None
         | inl ghr => ret ghr
         end ;;
  let edits := edits repo ghr in
  (if dry then reportEdits "updating" edits
   else
     clt.UpdateRepo org (gh_pb.Repository.Name repo) edits ;;
     reportEdits "updated" edits) ;;
  ensureTopics org ptr repo ghr dry ;;
  ensureProtectedBranches org repo ghr dry.

(** The parameter [org] of [reposRun] and [membersRun] points to the
    manifest in memory. *)
Definition reposRun (dry : bool) : M unit :=
  org <- getManifest ;;
  println ;;
  print (report.Header "Repos") ;;
  println ;;
  forEachAt 0 (gh_pb.Organization.Repositories org) (fun ptr r =>
    println ;;
    print (report.Header (gh_pb.Repository.Name r)) ;;
    println ;;
    ensureRepo (gh_pb.Organization.Name org) ptr r dry).

Definition checkReposRun : M unit :=
  print (report.Header "Org") ;;
  println ;;
  reposRun true.

(** *** Members *)

(** [None] is the panic of [*member.Login] on a nil login. *)
Fixpoint managedMember (manifestMembers : list gh_pb.People.t) (member : github.User.t)
  : option bool :=
  match manifestMembers with
  | [] => Some false
  | mm :: rest =>
      match github.User.Login member with
      | None => None
      | Some login =>
          if strings.EqualFold (gh_pb.People.Username mm) login then Some true
          else managedMember rest member
      end
  end.

(** The inner loop of [missingMembers]: the value of [found]. *)
Fixpoint foundIn (mm : gh_pb.People.t) (githubMembers : list github.User.t)
  : option bool :=
  match githubMembers with
  | [] => Some false
  | gm :: rest =>
      match github.User.Login gm with
      | None => None
      | Some login =>
          if strings.EqualFold (gh_pb.People.Username mm) login then Some true
          else foundIn mm rest
      end
  end.

(** [missing] is accumulated from the left. *)
Fixpoint missingMembers_loop (manifestMembers : list gh_pb.People.t)
         (githubMembers : list github.User.t) (missing : list gh_pb.People.t)
  : option (list gh_pb.People.t) :=
  match manifestMembers with
  | [] => Some missing
  | mm :: rest =>
      match foundIn mm githubMembers with
      | None => None
      | Some found =>
          missingMembers_loop rest githubMembers
            (if negb found then missing ++ [mm] else missing)
      end
  end.

Definition missingMembers (manifestMembers : list gh_pb.People.t)
           (githubMembers : list github.User.t) : option (list gh_pb.People.t) :=
  missingMembers_loop manifestMembers githubMembers [].

Definition orPanic {A} (o : option A) : M A :=
  match o with Some a => ret a | None => panic end.

(** [InviteMember] is the method of the sources, which returns nothing:
    the [err] that [inviteMembers] tests is always nil. *)
Definition inviteMembers (org : string) (members : list gh_pb.People.t) (dry : bool)
  : M unit :=
  forEach members (fun m =>
    if dry then
      print (report.Add ("invite " ++ gh_pb.People.Name m)) ;;
      println
    else
      clt.InviteMember org (gh_pb.People.Name m) ;;
      print (report.Add ("invited " ++ gh_pb.People.Name m)) ;;
      println).

Definition membersRun (dry : bool) : M unit :=
  org <- getManifest ;;
  println ;;
  print (report.Header "Members") ;;
  println ;;
  ps <- clt.GetMembers (gh_pb.Organization.Name org) ;;
  forEach ps (fun p =>
    managed <- orPanic (managedMember (gh_pb.Organization.People org) p) ;;
    (if negb managed then
       print (report.Warn (github.User.GetLogin p ++ " exists in github but not in manifest"))
     else
       print (report.Info (github.User.GetLogin p ++ " exists in github"))) ;;
    println) ;;
  missing <- orPanic (missingMembers (gh_pb.Organization.People org) ps) ;;
  inviteMembers (gh_pb.Organization.Name org) missing dry.

Definition checkMembersRun : M unit :=
  print (report.Header "Org") ;;
  println ;;
  membersRun true.

(** [teamsRun] is not among the sources and is a parameter of [applyRun]. *)
Definition applyRun (teamsRun : bool -> M unit) : M unit :=
  print (report.Header "Org") ;;
  println ;;
  membersRun false ;;
  teamsRun false ;;
  reposRun false.

End Reconciler.
End cmd.

(* ------------------------------------------------------------------ *)
(** ** A simulated GitHub account

    The remote the code is run against: one account (an organization or a
    user) with its repositories in listing order, the protected branches,
    the members and a directory of users.  The owner named in a request is
    not inspected.  A read leaves the remote unchanged; a write changes it
    the way the GitHub REST interface documents: a repository edit changes
    the fields present in the patch, set-topics replaces the topics, a
    branch-protection update creates or replaces the protection and leaves the
    signature requirement alone, and the signature call enables that
    requirement. *)

Module sim.

Inductive Kind := OrgAccount | UserAccount.

Record Remote := mkRemote {
  kind : Kind;
  publicRepos : Z;
  privateRepos : Z;
  repos : list github.Repository.t;
  protections : list ((string * string) * github.Protection.t);
  members : list string;
  users : list (string * Z);
  invitations : list (option Z) }.

Definition ok (p : github.Payload) (next : Z) : github.Answer :=
  github.mkAnswer p (Some (github.Response.mk 200 next)) None.

Definition failed (status : Z) : github.Answer :=
  github.mkAnswer github.NoPayload (Some (github.Response.mk status 0))
                  (Some (github.ErrorResponse status)).

Definition named (name : string) (g : github.Repository.t) : bool :=
  match github.Repository.Name g with
  | Some n => String.eqb n name
  | None => false
  end.

Definition findRepo (name : string) (w : Remote) : option github.Repository.t :=
  find (named name) (repos w).

Definition keyed (repo branch : string) (e : (string * string) * github.Protection.t) : bool :=
  String.eqb (fst (fst e)) repo && String.eqb (snd (fst e)) branch.

Definition findProtection (repo branch : string) (w : Remote) : option github.Protection.t :=
  option_map snd (find (keyed repo branch) (protections w)).

(** The page [page] (0 and 1 both name the first page) of a listing, and
    the number of the next page (0 when there is none). *)
Definition pageIndex (page : Z) : nat := Z.to_nat (Z.max 1 page) - 1.

Definition pageSize (perPage : Z) : nat :=
  if (perPage <=? 0)%Z then 30 else Z.to_nat perPage.

Definition pageItems {A} (l : list A) (page perPage : Z) : list A :=
  firstn (pageSize perPage) (skipn (pageIndex page * pageSize perPage) l).

Definition nextPage {A} (l : list A) (page perPage : Z) : Z :=
  if ((pageIndex page + 1) * pageSize perPage <? List.length l)%nat
  then Z.of_nat (pageIndex page + 2) else 0%Z.

Definition listPage (w : Remote) (opts : github.RepositoryListOptions.t) : github.Answer :=
  let lo := github.RepositoryListOptions.ListOptions opts in
  let page := github.ListOptions.Page lo in
  let perPage := github.ListOptions.PerPage lo in
  ok (github.PRepositories (pageItems (repos w) page perPage))
     (nextPage (repos w) page perPage).

Definition first {A} (a b : option A) : option A :=
  match a with Some _ => a | None => b end.

Definition applyPatch (patch g : github.Repository.t) : github.Repository.t :=
  github.Repository.mk
    (first (github.Repository.Name patch) (github.Repository.Name g))
    (first (github.Repository.Description patch) (github.Repository.Description g))
    (first (github.Repository.Archived patch) (github.Repository.Archived g))
    (first (github.Repository.Private patch) (github.Repository.Private g))
    (first (github.Repository.DefaultBranch patch) (github.Repository.DefaultBranch g))
    (github.Repository.Topics g).

Definition withTopics (topics : list string) (g : github.Repository.t) : github.Repository.t :=
  github.Repository.mk
    (github.Repository.Name g) (github.Repository.Description g)
    (github.Repository.Archived g) (github.Repository.Private g)
    (github.Repository.DefaultBranch g) topics.

Definition withRepos (w : Remote) (rs : list github.Repository.t) : Remote :=
  mkRemote (kind w) (publicRepos w) (privateRepos w) rs (protections w)
           (members w) (users w) (invitations w).

Definition withProtections (w : Remote)
           (ps : list ((string * string) * github.Protection.t)) : Remote :=
  mkRemote (kind w) (publicRepos w) (privateRepos w) (repos w) ps
           (members w) (users w) (invitations w).

Definition withInvitations (w : Remote) (l : list (option Z)) : Remote :=
  mkRemote (kind w) (publicRepos w) (privateRepos w) (repos w) (protections w)
           (members w) (users w) l.

(** A protection built from a request; [old] is the protection in place. *)
Definition protect (preq : github.ProtectionRequest.t) (old : option github.Protection.t)
  : github.Protection.t :=
  github.Protection.mk
    (github.ProtectionRequest.RequiredStatusChecks preq)
    (match github.ProtectionRequest.RequiredPullRequestReviews preq with
     | Some _ => true | None => false end)
    (match old with
     | Some p => github.Protection.RequiredSignatures p
     | None => Some (github.SignaturesProtectedBranch.mk (Some false))
     end).

Definition signed (p : github.Protection.t) : github.Protection.t :=
  github.Protection.mk
    (github.Protection.RequiredStatusChecks p)
    (github.Protection.RequiredPullRequestReviews p)
    (Some (github.SignaturesProtectedBranch.mk (Some true))).

Definition onKey (repo branch : string) (f : github.Protection.t -> github.Protection.t)
           (e : (string * string) * github.Protection.t)
  : (string * string) * github.Protection.t :=
  if keyed repo branch e then (fst e, f (snd e)) else e.

Definition account (w : Remote) (name : string) : github.User.t :=
  github.User.mk (Some name) None (Some (publicRepos w)) (Some (privateRepos w)).

Definition serve (w : Remote) (rq : github.Request) : github.Answer * Remote :=
  match rq with
  | github.Organizations_Get _ =>
      match kind w with
      | OrgAccount =>
          (ok (github.POrganization
                 (github.Organization.mk (Some (publicRepos w)) (Some (privateRepos w)))) 0, w)
      | UserAccount => (failed 404, w)
      end
  | github.Users_Get name =>
      match kind w with
      | UserAccount => (ok (github.PUser (account w name)) 0, w)
      | OrgAccount =>
          match find (fun u => String.eqb (fst u) name) (users w) with
          | Some u => (ok (github.PUser (github.User.mk (Some name) (Some (snd u)) None None)) 0, w)
          | None => (failed 404, w)
          end
      end
  | github.Repositories_ListByOrg _ opts =>
      match kind w with
      | OrgAccount => (listPage w opts, w)
      | UserAccount => (failed 404, w)
      end
  | github.Repositories_List _ opts =>
      match kind w with
      | UserAccount => (listPage w opts, w)
      | OrgAccount => (failed 404, w)
      end
  | github.Repositories_Get _ repo =>
      match findRepo repo w with
      | Some g => (ok (github.PRepository g) 0, w)
      | None => (failed 404, w)
      end
  | github.Repositories_ListAllTopics _ repo =>
      match findRepo repo w with
      | Some g => (ok (github.PTopics (github.Repository.Topics g)) 0, w)
      | None => (failed 404, w)
      end
  | github.Repositories_ListBranches _ repo =>
      match findRepo repo w with
      | Some g =>
          (ok (github.PBranches
                 (map (fun e => github.Branch.mk (Some (snd (fst e))))
                      (filter (fun e => String.eqb (fst (fst e)) repo) (protections w)))) 0, w)
      | None => (failed 404, w)
      end
  | github.Repositories_GetBranchProtection _ repo branch =>
      match findProtection repo branch w with
      | Some p => (ok (github.PProtection p) 0, w)
      | None => (failed 404, w)
      end
  | github.Organizations_ListMembers _ =>
      (ok (github.PUsers (map (fun l => github.User.mk (Some l) None None None) (members w))) 0, w)
  | github.Organizations_CreateOrgInvitation _ id =>
      (ok github.NoPayload 0, withInvitations w (invitations w ++ [id]))
  | github.Repositories_Create _ state =>
      match github.Repository.Name state with
      | None => (failed 422, w)
      | Some name =>
          match findRepo name w with
          | Some _ => (failed 422, w)
          | None => (ok (github.PRepository state) 0, withRepos w (repos w ++ [state]))
          end
      end
  | github.Repositories_Edit _ repo patch =>
      match findRepo repo w with
      | Some g =>
          (ok (github.PRepository (applyPatch patch g)) 0,
           withRepos w (map (fun g => if named repo g then applyPatch patch g else g) (repos w)))
      | None => (failed 404, w)
      end
  | github.Repositories_ReplaceAllTopics _ repo topics =>
      match findRepo repo w with
      | Some g =>
          (ok (github.PTopics topics) 0,
           withRepos w (map (fun g => if named repo g then withTopics topics g else g) (repos w)))
      | None => (failed 404, w)
      end
  | github.Repositories_UpdateBranchProtection _ repo branch preq =>
      match findRepo repo w with
      | None => (failed 404, w)
      | Some _ =>
          match findProtection repo branch w with
          | Some old =>
              (ok (github.PProtection (protect preq (Some old))) 0,
               withProtections w
                 (map (onKey repo branch (fun p => protect preq (Some p))) (protections w)))
          | None =>
              (ok (github.PProtection (protect preq None)) 0,
               withProtections w (protections w ++ [((repo, branch), protect preq None)]))
          end
      end
  | github.Repositories_RequireSignaturesOnProtectedBranch _ repo branch =>
      match findProtection repo branch w with
      | Some p =>
          (ok github.NoPayload 0,
           withProtections w (map (onKey repo branch signed) (protections w)))
      | None => (failed 404, w)
      end
  end.

#[export] Instance github_com : Provider := {| World := Remote; roundTrip := serve |}.

(** The state in which a run starts. *)
Definition start (w : Remote) (org : gh_pb.Organization.t) : State :=
  mkState (P := github_com) w [] [] org [].

End sim.

(** The requests of a run, in order, and those that write. *)
Definition requests {P : Provider} (st : State) : list github.Request :=
  map fst (calls st).

Definition writes {P : Provider} (st : State) : list github.Request :=
  filter github.isWrite (requests st).

(* ------------------------------------------------------------------ *)
(** ** Vocabulary of the properties *)

(** *** Rate limiting *)

(** A rate-limit signal as go-github produces it: the error is a
    [*RateLimitError], the payload is nil, and the response, when there is
    one, is the 403 or 429 response the error was built from (never a 404). *)
Definition rateLimited (a : github.Answer) : bool :=
  match github.err a, github.payload a with
  | Some github.RateLimitError, github.NoPayload =>
      match github.resp a with
      | Some r => negb (github.Response.StatusCode r =? http.StatusNotFound)%Z
      | None => true
      end
  | _, _ => false
  end.

(** The benign outcomes of a gateway operation: the not-found sentinels,
    which drive a create-or-skip decision, and the no-repositories signal
    of [GetRepos].  None of them says that the run was rate limited. *)
Definition recoverable (e : client.error) : bool :=
  errors.Is e client.ErrRepoNotFound
  || errors.Is e client.ErrBranchProtectionNotFound
  || errors.Is e client.ErrOrgNotFound
  || errors.Is e client.ErrUserNotFound
  || errors.Is e client.ErrNoReposFound.

(** A remote that answers every call with a rate-limit signal. *)
Definition throttledAnswer : github.Answer :=
  github.mkAnswer github.NoPayload (Some (github.Response.mk 403 0))
                  (Some github.RateLimitError).

Definition throttled : Provider :=
  {| World := unit; roundTrip := fun w _ => (throttledAnswer, w) |}.

(** A remote that finds the organization, with one repository, and
    answers every other call with a rate-limit signal. *)
Definition throttledAfterProbe : Provider :=
  {| World := unit;
     roundTrip := fun w rq =>
       match rq with
       | github.Organizations_Get _ =>
           (sim.ok (github.POrganization
                      (github.Organization.mk (Some 1%Z) (Some 0%Z))) 0, w)
       | _ => (throttledAnswer, w)
       end |}.

Section Traces.
Context {P : Provider}.

(** [m] aborts on a rate-limit signal: in every run of [m], a call
    answered by a rate-limit signal is the last call of the run (so nothing
    is retried), and the run ends with an error that is none of the benign
    outcomes. *)
Definition abortsOnRateLimit {A} (m : M A) : Prop :=
  forall st, exists l,
    calls (snd (m st)) = calls st ++ l /\
    forall pre rq a post,
      l = pre ++ (rq, a) :: post -> rateLimited a = true ->
      post = [] /\ exists e, fst (m st) = Error e /\ recoverable e = false.

Definition clean (l : list (github.Request * github.Answer)) : Prop :=
  Forall (fun c => rateLimited (snd c) = false) l.

(** The same property in a form that composes along [bind]. *)
Definition guarded {A} (m : M A) : Prop :=
  forall st, exists l,
    calls (snd (m st)) = calls st ++ l /\
    (clean l \/
     exists l' c e, l = l' ++ [c] /\ clean l' /\
                    fst (m st) = Error e /\ recoverable e = false).

(** A computation that only prints or updates the manifest in memory. *)
Definition quiet (m : M unit) : Prop :=
  forall st, exists st',
    m st = (Ok tt, st') /\ world st' = world st /\ calls st' = calls st
    /\ queue st' = queue st.

(** A team step that does nothing ([teamsRun] is not among the sources). *)
Definition noTeams (dry : bool) : M unit := ret tt.

End Traces.

(** *** Sorting *)

(** The byte-wise order of Go strings. *)
Definition leString (a b : string) : Prop := String.leb a b = true.

(** *** Pagination *)

(** The repository count [GetRepos] reads from the account. *)
Definition accountCount (w : sim.Remote) : Z :=
  wrap64 (sim.publicRepos w + sim.privateRepos w).

(** The calls by which [GetRepos] finds out what the account is. *)
Definition probes (w : sim.Remote) (name : string) : list github.Request :=
  match sim.kind w with
  | sim.OrgAccount => [github.Organizations_Get name]
  | sim.UserAccount => [github.Organizations_Get name; github.Users_Get name]
  end.

(** The listing call for page number [page]. *)
Definition listing (w : sim.Remote) (name : string) (page : Z) : github.Request :=
  match sim.kind w with
  | sim.OrgAccount => github.Repositories_ListByOrg name (clt.listOpts page)
  | sim.UserAccount => github.Repositories_List name (clt.listOpts page)
  end.

(** The page-advancing calls. *)
Definition isListing (rq : github.Request) : bool :=
  match rq with
  | github.Repositories_ListByOrg _ _ | github.Repositories_List _ _ => true
  | _ => false
  end.

(** The page number requested at the [i]-th iteration of the loop: the
    first request carries page 0, the following ones the [NextPage] of the
    previous answer. *)
Definition pageNumber (i : nat) : Z :=
  match i with O => 0%Z | S _ => Z.of_nat (S i) end.

(** The page numbers of [k] iterations, starting with the [i]-th. *)
Fixpoint pageNumbers (k i : nat) : list Z :=
  match k with
  | O => []
  | S k' => pageNumber i :: pageNumbers k' (S i)
  end.

(** [ceil(n / 100)] *)
Definition pagesOf (n : nat) : nat := (n + 99) / 100.

Definition notArchived (r : github.Repository.t) : bool :=
  negb (github.Repository.GetArchived (Some r)).

(** *** A remote that matches the manifest *)

Definition whenSet {A} (o : option A) (f : A -> bool) : bool :=
  match o with Some a => f a | None => true end.

(** The remote protection [q] has what the manifest protection [p] sets. *)
Definition protectionMatches (p : gh_pb.Protection.t) (q : github.Protection.t) : bool :=
  whenSet (gh_pb.Protection.RequirePr p)
          (fun b => Bool.eqb (github.Protection.RequiredPullRequestReviews q) b)
  && whenSet (gh_pb.Protection.ChecksMustPass p)
       (fun b =>
          match github.Protection.RequiredStatusChecks q with
          | Some c =>
              b && slices.Equal (map github.RequiredStatusCheck.Context
                                     (github.RequiredStatusChecks.Checks c))
                                (gh_pb.Protection.RequiredChecks p)
          | None => negb b
          end)
  && whenSet (gh_pb.Protection.SignedCommits p)
       (fun b => Bool.eqb (github.SignaturesProtectedBranch.GetEnabled
                             (github.Protection.RequiredSignatures q)) b).

Definition branchMatches (w : sim.Remote) (repo : string) (b : gh_pb.Branch.t) : bool :=
  match sim.findProtection repo (gh_pb.Branch.Name b) w with
  | Some q => protectionMatches (gh_pb.Branch.Protection b) q
  | None => false
  end.

(** The remote repository has every field the manifest repository sets:
    description and default branch up to case, archived and private
    exactly, the labels as a multiset (an empty label list sets nothing),
    and every protected branch. *)
Definition repoMatches (w : sim.Remote) (r : gh_pb.Repository.t) : bool :=
  match sim.findRepo (gh_pb.Repository.Name r) w with
  | Some g =>
      whenSet (gh_pb.Repository.Description r)
              (strings.EqualFold (github.Repository.GetDescription (Some g)))
      && whenSet (gh_pb.Repository.Archived r)
                 (Bool.eqb (github.Repository.GetArchived (Some g)))
      && whenSet (gh_pb.Repository.Private r)
                 (Bool.eqb (github.Repository.GetPrivate (Some g)))
      && whenSet (gh_pb.Repository.DefaultBranch r)
                 (strings.EqualFold (github.Repository.GetDefaultBranch (Some g)))
      && (match gh_pb.Repository.Labels r with
          | [] => true
          | l => slices.Equal (slices.Sort (github.Repository.Topics g)) (slices.Sort l)
          end)
      && forallb (branchMatches w (gh_pb.Repository.Name r))
                 (gh_pb.Repository.ProtectedBranches r)
  | None => false
  end.

(** Every manifest member is a member of the remote organization. *)
Definition membersMatch (w : sim.Remote) (org : gh_pb.Organization.t) : bool :=
  forallb (fun mm => existsb (strings.EqualFold (gh_pb.People.Username mm)) (sim.members w))
          (gh_pb.Organization.People org).

(** The remote already matches every field the manifest sets. *)
Definition matches (w : sim.Remote) (org : gh_pb.Organization.t) : bool :=
  membersMatch w org && forallb (repoMatches w) (gh_pb.Organization.Repositories org).

(** The write calls of an apply run against a matching remote: for each
    manifest repository an update with the empty patch, then one
    branch-protection update per protected branch of the manifest. *)
Definition reapplied (org : gh_pb.Organization.t) : list github.Request :=
  flat_map
    (fun r =>
       github.Repositories_Edit (gh_pb.Organization.Name org) (gh_pb.Repository.Name r)
                                github.Repository.empty
       :: map (fun b =>
                 github.Repositories_UpdateBranchProtection
                   (gh_pb.Organization.Name org) (gh_pb.Repository.Name r)
                   (gh_pb.Branch.Name b) (cmd.protectionRequest b))
              (gh_pb.Repository.ProtectedBranches r))
    (gh_pb.Organization.Repositories org).

(** The signature requirement of a protected branch, as far as the remote
    has the branch protected. *)
Definition signatures (w : sim.Remote) (repo branch : string)
  : option (option github.SignaturesProtectedBranch.t) :=
  option_map github.Protection.RequiredSignatures (sim.findProtection repo branch w).

(** [w'] has the repositories and members of [w], the same protected
    branches, and the same signature requirement on each. *)
Definition sameBase (w w' : sim.Remote) : Prop :=
  sim.repos w' = sim.repos w /\ sim.members w' = sim.members w /\
  forall repo branch, signatures w' repo branch = signatures w repo branch.

(** What the code reads of a protected branch. *)
Definition branchInSync (w : sim.Remote) (repo : string) (b : gh_pb.Branch.t) : Prop :=
  exists q, sim.findProtection repo (gh_pb.Branch.Name b) w = Some q /\
    whenSet (gh_pb.Protection.SignedCommits (gh_pb.Branch.Protection b))
            (fun s => Bool.eqb (github.SignaturesProtectedBranch.GetEnabled
                                  (github.Protection.RequiredSignatures q)) s) = true.

(** What the code reads of a repository. *)
Definition repoInSync (w : sim.Remote) (r : gh_pb.Repository.t) : Prop :=
  exists g, sim.findRepo (gh_pb.Repository.Name r) w = Some g /\
    cmd.edits r (Some g) = github.Repository.empty /\
    (gh_pb.Repository.Labels r = [] \/
     slices.Equal (slices.Sort (github.Repository.Topics g))
                  (slices.Sort (gh_pb.Repository.Labels r)) = true) /\
    Forall (branchInSync w (gh_pb.Repository.Name r)) (gh_pb.Repository.ProtectedBranches r).

(** A run from [st] against the simulated remote that succeeds, issues
    the writes [ws], and leaves a remote with the same base. *)
Definition does (m : M (P := sim.github_com) unit) (st : State (P := sim.github_com))
           (ws : list github.Request) : Prop :=
  exists st', m st = (Ok tt, st') /\ sameBase (world st) (world st')
              /\ writes st' = writes st ++ ws /\ queue st' = queue st.

(** The user record the simulated remote returns for a member. *)
Definition simUser (l : string) : github.User.t := github.User.mk (Some l) None None None.

(** *** The membership diff *)

(** The manifest lists a member whose username is [login] up to case. *)
Definition inManifest (people : list gh_pb.People.t) (login : string) : bool :=
  existsb (fun mm => strings.EqualFold (gh_pb.People.Username mm) login) people.

(** The remote members include the manifest member [mm] up to case. *)
Definition inRemote (ps : list github.User.t) (mm : gh_pb.People.t) : bool :=
  existsb (fun gm => strings.EqualFold (gh_pb.People.Username mm) (github.User.GetLogin gm)) ps.

(** The manifest members to invite, in manifest order. *)
Definition toInvite (people : list gh_pb.People.t) (ps : list github.User.t)
  : list gh_pb.People.t :=
  filter (fun mm => negb (inRemote ps mm)) people.

Definition loginKnown (p : github.User.t) : Prop := github.User.Login p <> None.

(** The report on one remote member. *)
Definition memberLines (people : list gh_pb.People.t) (p : github.User.t)
  : list report.Line :=
  [ if inManifest people (github.User.GetLogin p)
    then report.Info (github.User.GetLogin p ++ " exists in github")
    else report.Warn (github.User.GetLogin p ++ " exists in github but not in manifest");
    report.Newline ].

(** The report on one member to invite.  In an apply run the first line
    is printed by [InviteMember] and the second by [inviteMembers]. *)
Definition inviteLines (dry : bool) (m : gh_pb.People.t) : list report.Line :=
  if dry then [report.Add ("invite " ++ gh_pb.People.Name m); report.Newline]
  else [report.Add ("invite " ++ gh_pb.People.Name m); report.Newline;
        report.Add ("invited " ++ gh_pb.People.Name m); report.Newline].

(** What [inviteMembers] hands to [InviteMember] for one member, and so
    what enters the work list of the client: the organization and
    [m.Name]. *)
Definition entriesQueued (org : string) (dry : bool) (m : gh_pb.People.t)
  : list (string * string) :=
  if dry then [] else [(org, gh_pb.People.Name m)].

(** The invitations that the membership diff calls for: one for each
    member to invite, for the username the diff compared. *)
Definition invitationsDue (org : string) (members : list gh_pb.People.t)
  : list (string * string) :=
  map (fun m => (org, gh_pb.People.Username m)) members.

(** *** Concrete manifests and remotes *)

Module example.

Definition unprotected : gh_pb.Protection.t := gh_pb.Protection.mk None None [] None.

Definition alice : gh_pb.People.t := gh_pb.People.mk "Alice" "alice".
Definition bob : gh_pb.People.t := gh_pb.People.mk "Bob" "bob".

(** A manifest repository that sets nothing but its labels. *)
Definition labelled (labels : list string) : gh_pb.Repository.t :=
  gh_pb.Repository.mk "site" None None None None labels [].

(** A remote repository with the given topics. *)
Definition tagged (topics : list string) : github.Repository.t :=
  github.Repository.mk (Some "site") None None None None topics.

(** An organization with no repository, no member and no user. *)
Definition emptyRemote : sim.Remote :=
  sim.mkRemote sim.OrgAccount 0 0 [] [] [] [] [].

(** Members: the manifest lists alice and bob, the remote bob and carol. *)
Definition membersManifest : gh_pb.Organization.t :=
  gh_pb.Organization.mk "acme" [alice; bob] [].
Definition membersRemote : sim.Remote :=
  sim.mkRemote sim.OrgAccount 0 0 [] [] ["bob"; "carol"] [] [].

(** Members whose display name is not their username: the manifest lists
    Alice Smith (asmith) and Bob (Bob); the remote has the members bob and
    carol, and knows the user asmith under the identifier 7. *)
Definition smith : gh_pb.People.t := gh_pb.People.mk "Alice Smith" "asmith".
Definition namesManifest : gh_pb.Organization.t :=
  gh_pb.Organization.mk "acme" [smith; gh_pb.People.mk "Bob" "Bob"] [].
Definition namesRemote : sim.Remote :=
  sim.mkRemote sim.OrgAccount 0 0 [] [] ["bob"; "carol"] [("asmith", 7%Z)] [].

(** A manifest and a remote that agree on everything the manifest sets. *)
Definition syncedManifest : gh_pb.Organization.t :=
  gh_pb.Organization.mk "acme" [bob]
    [gh_pb.Repository.mk "site" (Some "Web Site") (Some false) None (Some "main") ["b"; "a"]
       [gh_pb.Branch.mk "main" (gh_pb.Protection.mk (Some true) None [] (Some true))]].
Definition syncedRemote : sim.Remote :=
  sim.mkRemote sim.OrgAccount 1 0
    [github.Repository.mk (Some "site") (Some "web site") (Some false) (Some true)
                          (Some "main") ["a"; "b"]]
    [(("site", "main"),
      github.Protection.mk None true (Some (github.SignaturesProtectedBranch.mk (Some true))))]
    ["Bob"] [] [].

(** A manifest that protects a branch and requires signed commits on it,
    and a remote where that branch is not protected yet. *)
Definition signedManifest : gh_pb.Organization.t :=
  gh_pb.Organization.mk "acme" []
    [gh_pb.Repository.mk "site" None None None None []
       [gh_pb.Branch.mk "main" (gh_pb.Protection.mk None None [] (Some true))]].
Definition unprotectedRemote : sim.Remote :=
  sim.mkRemote sim.OrgAccount 1 0 [tagged []] [] [] [] [].

(** A manifest repository that does not exist remotely. *)
Definition described : gh_pb.Repository.t :=
  gh_pb.Repository.mk "site" (Some "x") None None None [] [].
Definition describedLabelled : gh_pb.Repository.t :=
  gh_pb.Repository.mk "site" (Some "x") None None None ["a"] [].

(** A manifest whose labels are not in sorted order. *)
Definition unsortedManifest : gh_pb.Organization.t :=
  gh_pb.Organization.mk "acme" [] [labelled ["b"; "a"]].
Definition sortedManifest : gh_pb.Organization.t :=
  gh_pb.Organization.mk "acme" [] [labelled ["a"; "b"]].
Definition topicsRemote : sim.Remote :=
  sim.mkRemote sim.OrgAccount 1 0 [tagged ["a"; "b"]] [] [] [] [].

(** An organization with 250 repositories, none archived. *)
Definition bigRemote : sim.Remote :=
  sim.mkRemote sim.OrgAccount 200 50 (repeat (tagged []) 250) [] [] [] [].

End example.

(* ------------------------------------------------------------------ *)
(** ** Vocabulary of the further properties *)

Section Effects.
Context {P : Provider}.

(** [m] makes no call. *)
Definition noCalls {A} (m : M A) : Prop :=
  forall st, calls (snd (m st)) = calls st.

(** [m] issues no write call and defers no invitation. *)
Definition neverWrites {A} (m : M A) : Prop :=
  forall st, writes (snd (m st)) = writes st /\ queue (snd (m st)) = queue st.

(** [m] leaves the manifest in memory as it is. *)
Definition keepsManifest {A} (m : M A) : Prop :=
  forall st, manifest (snd (m st)) = manifest st.

End Effects.

(** The manifest [o] with the labels of its [i]-th repository replaced. *)
Definition relabel (i : nat) (l : list string) (o : gh_pb.Organization.t)
  : gh_pb.Organization.t :=
  gh_pb.Organization.mk (gh_pb.Organization.Name o) (gh_pb.Organization.People o)
                        (cmd.storeLabels i l (gh_pb.Organization.Repositories o)).

(** Two manifest repositories that differ at most in the order of their
    labels. *)
Definition sameButLabelOrder (r r' : gh_pb.Repository.t) : Prop :=
  gh_pb.Repository.Name r' = gh_pb.Repository.Name r /\
  gh_pb.Repository.Description r' = gh_pb.Repository.Description r /\
  gh_pb.Repository.Archived r' = gh_pb.Repository.Archived r /\
  gh_pb.Repository.Private r' = gh_pb.Repository.Private r /\
  gh_pb.Repository.DefaultBranch r' = gh_pb.Repository.DefaultBranch r /\
  gh_pb.Repository.ProtectedBranches r' = gh_pb.Repository.ProtectedBranches r /\
  Permutation (gh_pb.Repository.Labels r) (gh_pb.Repository.Labels r').

(** Two manifests that differ at most in the order of the labels of their
    repositories. *)
Definition sameButLabelOrders (o o' : gh_pb.Organization.t) : Prop :=
  gh_pb.Organization.Name o' = gh_pb.Organization.Name o /\
  gh_pb.Organization.People o' = gh_pb.Organization.People o /\
  Forall2 sameButLabelOrder (gh_pb.Organization.Repositories o)
                            (gh_pb.Organization.Repositories o').

(** The repositories that the listing calls of a log were answered with,
    less the archived ones. *)
Definition pagesServed (l : list (github.Request * github.Answer))
  : list github.Repository.t :=
  flat_map (fun c => if isListing (fst c)
                     then filter notArchived (github.asRepositories (github.payload (snd c)))
                     else []) l.

(** The options of a listing call. *)
Definition listOptions (rq : github.Request) : option github.RepositoryListOptions.t :=
  match rq with
  | github.Repositories_ListByOrg _ opts | github.Repositories_List _ opts => Some opts
  | _ => None
  end.

(** The listing calls [l] follow the page links: the first asks for
    [page], each following one for the [NextPage] of the answer before it,
    which is not 0; all ask for every type of repository, 100 per page. *)
Fixpoint followsPages (page : Z) (l : list (github.Request * github.Answer)) : Prop :=
  match l with
  | [] => True
  | c :: l' =>
      listOptions (fst c) = Some (clt.listOpts page) /\
      match l' with
      | [] => True
      | _ :: _ =>
          exists r, github.resp (snd c) = Some r /\
                    github.Response.NextPage r <> 0%Z /\
                    followsPages (github.Response.NextPage r) l'
      end
  end.

(** An answer that carries no error and names a next page. *)
Definition namesNextPage (a : github.Answer) : Prop :=
  github.err a = None /\
  exists r, github.resp a = Some r /\ github.Response.NextPage r <> 0%Z.

(** A failed round trip: no response, and an error that is not a
    rate-limit error. *)
Definition transportFailure (a : github.Answer) (e : github.error) : Prop :=
  github.resp a = None /\ github.err a = Some e /\ github.isRateLimitError e = false.

(** A not-found answer: a 404 response with an error that is not a
    rate-limit error. *)
Definition notFound (a : github.Answer) : Prop :=
  exists r e, github.resp a = Some r /\ github.Response.StatusCode r = http.StatusNotFound /\
              github.err a = Some e /\ github.isRateLimitError e = false.

(** What [IsBranchProtected] makes of the outcome of
    [GetBranchProtection]. *)
Definition asProtected (r : Res (option github.Protection.t)) : Res bool :=
  match r with
  | Ok (Some _) => Ok true
  | Ok None => Ok false
  | Error client.ErrBranchProtectionNotFound => Ok false
  | Error e => Error e
  | Panic => Panic
  | OutOfFuel => OutOfFuel
  end.

(** The category marker of a report line. *)
Inductive Marker := MHeader | MInfo | MAdd | MWarn | MSuccess | MNewline.

Definition marker (l : report.Line) : Marker :=
  match l with
  | report.Header _ => MHeader
  | report.Info _ => MInfo
  | report.Add _ => MAdd
  | report.Warn _ => MWarn
  | report.Success _ => MSuccess
  | report.Newline => MNewline
  end.

(** A remote that is out of reach: every round trip fails. *)
Definition offlineAnswer : github.Answer :=
  github.mkAnswer github.NoPayload None (Some (github.OtherError "dial tcp: timeout")).

Definition offline : Provider :=
  {| World := unit; roundTrip := fun w _ => (offlineAnswer, w) |}.

(** A remote whose listing never ends: an organization with one repository
    whose every page names a next page. *)
Definition endlessAnswer (rq : github.Request) : github.Answer :=
  match rq with
  | github.Organizations_Get _ =>
      sim.ok (github.POrganization (github.Organization.mk (Some 1%Z) (Some 0%Z))) 0
  | _ => sim.ok (github.PRepositories [example.tagged []]) 2
  end.

Definition endless : Provider :=
  {| World := unit; roundTrip := fun w rq => (endlessAnswer rq, w) |}.

(** A manifest branch that requires a pull request and nothing else, and a
    repository that protects it. *)
Definition reviewedBranch : gh_pb.Branch.t :=
  gh_pb.Branch.mk "main" (gh_pb.Protection.mk (Some true) None [] None).

Definition reviewedRepo : gh_pb.Repository.t :=
  gh_pb.Repository.mk "site" None None None None [] [reviewedBranch].

(** A manifest that asks for unsigned commits on a branch that the remote
    protects with required signatures. *)
Definition unsignedBranch : gh_pb.Branch.t :=
  gh_pb.Branch.mk "main" (gh_pb.Protection.mk None None [] (Some false)).

Definition unsignedManifest : gh_pb.Organization.t :=
  gh_pb.Organization.mk "acme" []
    [gh_pb.Repository.mk "site" None None None None [] [unsignedBranch]].

Definition signedRemote : sim.Remote :=
  sim.mkRemote sim.OrgAccount 1 0 [example.tagged []]
    [(("site", "main"),
      github.Protection.mk None false (Some (github.SignaturesProtectedBranch.mk (Some true))))]
    [] [] [].

Section ManifestEffects.
Context {P : Provider}.

(** [m] changes the manifest at most by storing [l] as the labels of its
    [i]-th repository. *)
Definition relabelsAtMost {A} (i : nat) (l : list string) (m : M A) : Prop :=
  forall st, manifest (snd (m st)) = manifest st \/
             manifest (snd (m st)) = relabel i l (manifest st).

End ManifestEffects.

Section Listing.
Context {P : Provider}.

(** A run of the listing from [st] is faithful to the pages it was served:
    its listing calls follow the page links from [page] on, and when it
    returns repositories, these are [acc] followed by the repositories
    served, less the archived ones, and the last answer names no next
    page. *)
Definition listsFaithfully (page : Z) (acc : list github.Repository.t) (st : State)
           (run : Res (list github.Repository.t) * State) : Prop :=
  exists l,
    calls (snd run) = calls st ++ l /\
    followsPages page (filter (fun c => isListing (fst c)) l) /\
    forall rs, fst run = Ok rs ->
      rs = acc ++ pagesServed l /\
      exists l' c r, l = l' ++ [c] /\ isListing (fst c) = true /\
                     github.resp (snd c) = Some r /\ github.Response.NextPage r = 0%Z.

End Listing.

(** The answer to the organization probe of [GetRepos] that leads to the
    listing: a response other than 404 and a repository count of at least
    one. *)
Definition foundWithRepos (a : github.Answer) : Prop :=
  (exists r, github.resp a = Some r /\
             (github.Response.StatusCode r =? http.StatusNotFound)%Z = false) /\
  (1 <= wrap64 (github.Organization.GetPublicRepos (github.asOrganization (github.payload a))
                + github.Organization.GetTotalPrivateRepos
                    (github.asOrganization (github.payload a))))%Z.

Section Reports.
Context {P : Provider}.

(** [m] succeeds and only appends [lines] to the report. *)
Definition prints (m : M unit) (lines : list report.Line) : Prop :=
  forall st, m st = (Ok tt, mkState (world st) (calls st) (output st ++ lines)
                                   (manifest st) (queue st)).

End Reports.

Section ReportShapes.
Context {P : Provider}.

(** [m] and [m'] succeed and only append report lines, which carry the
    same markers in the same order. *)
Definition sameMarkers (m m' : M unit) : Prop :=
  exists l l', prints m l /\ prints m' l' /\ map marker l = map marker l'.

End ReportShapes.

(** The manifest branch [b] with every flag it sets raised to true and no
    requirement on signed commits. *)
Definition flagsRaised (b : gh_pb.Branch.t) : gh_pb.Branch.t :=
  let p := gh_pb.Branch.Protection b in
  gh_pb.Branch.mk (gh_pb.Branch.Name b)
    (gh_pb.Protection.mk
       (option_map (fun _ => true) (gh_pb.Protection.RequirePr p))
       (option_map (fun _ => true) (gh_pb.Protection.ChecksMustPass p))
       (gh_pb.Protection.RequiredChecks p)
       None).

(** A remote member whose login is nil. *)
Definition anonymous : github.User.t := github.User.mk None (Some 7%Z) None None.

Definition anonymousAnswer : github.Answer :=
  sim.ok (github.PUsers [anonymous]) 0.

Definition withAnonymous : Provider :=
  {| World := unit; roundTrip := fun w _ => (anonymousAnswer, w) |}.

(** An organization that knows the user alice, with identifier 42. *)
Definition usersRemote : sim.Remote :=
  sim.mkRemote sim.OrgAccount 0 0 [] [] [] [("alice", 42%Z)] [].

Section Asking.
Context {P : Provider}.

(** Every call that [m] makes satisfies [allowed]. *)
Definition asksOnly {A} (allowed : github.Request -> bool) (m : M A) : Prop :=
  forall st, exists l,
    requests (snd (m st)) = requests st ++ l /\ forallb allowed l = true.

End Asking.

(** [b] names one of the protected branches that the manifest declares for
    [r]. *)
Definition declaresBranch (r : gh_pb.Repository.t) (b : string) : bool :=
  existsb (fun pb => String.eqb (gh_pb.Branch.Name pb) b) (gh_pb.Repository.ProtectedBranches r).

(** The calls that reconciling the manifest repository [r] of the
    organization [org] may make: reads of the repository and of the
    protection of a branch declared for it and, unless [dry], writes to
    them. *)
Definition touches (dry : bool) (org : string) (r : gh_pb.Repository.t)
           (rq : github.Request) : bool :=
  match rq with
  | github.Repositories_Get o n =>
      String.eqb o org && String.eqb n (gh_pb.Repository.Name r)
  | github.Repositories_GetBranchProtection o n b =>
      String.eqb o org && String.eqb n (gh_pb.Repository.Name r) && declaresBranch r b
  | github.Repositories_Create o s =>
      negb dry && String.eqb o org &&
      match github.Repository.Name s with
      | Some n => String.eqb n (gh_pb.Repository.Name r)
      | None => false
      end
  | github.Repositories_Edit o n _ | github.Repositories_ReplaceAllTopics o n _ =>
      negb dry && String.eqb o org && String.eqb n (gh_pb.Repository.Name r)
  | github.Repositories_UpdateBranchProtection o n b _
  | github.Repositories_RequireSignaturesOnProtectedBranch o n b =>
      negb dry && String.eqb o org && String.eqb n (gh_pb.Repository.Name r)
      && declaresBranch r b
  | _ => false
  end.

(** The calls that reconciling the repositories of the manifest [org] may
    make. *)
Definition touchesManifest (dry : bool) (org : gh_pb.Organization.t)
           (rq : github.Request) : bool :=
  existsb (fun r => touches dry (gh_pb.Organization.Name org) r rq)
          (gh_pb.Organization.Repositories org).

(** A listing call for the organization (resp. the user) [name]. *)
Definition listsOrg (name : string) (rq : github.Request) : bool :=
  match rq with
  | github.Repositories_ListByOrg n _ => String.eqb n name
  | _ => false
  end.

Definition listsUser (name : string) (rq : github.Request) : bool :=
  match rq with
  | github.Repositories_List n _ => String.eqb n name
  | _ => false
  end.

(** A user account with one repository. *)
Definition userRemote : sim.Remote :=
  sim.mkRemote sim.UserAccount 1 0 [example.tagged []] [] [] [] [].

(* ------------------------------------------------------------------ *)
(** * Proofs *)

Section SortFacts.

Lemma slices_Equal_eq (s1 s2 : list string) : slices.Equal s1 s2 = true <-> s1 = s2.
Proof.
  revert s2; induction s1 as [|x s1 IH]; intros [|y s2]; simpl; split; try congruence.
  - intros H. apply andb_true_iff in H as [Hxy Hrest].
    apply String.eqb_eq in Hxy. apply IH in Hrest. congruence.
  - intros [= -> ->]. rewrite String.eqb_refl. simpl. now apply IH.
Qed.

Lemma string_compare_trans_le (a b c : string) :
  String.compare a b <> Gt -> String.compare b c <> Gt -> String.compare a c <> Gt.
Proof.
  revert b c; induction a as [|x a IH]; intros [|y b] [|z c]; simpl; try congruence.
  unfold Ascii.compare.
  destruct (N.compare_spec (N_of_ascii x) (N_of_ascii y)) as [Exy|Lxy|Gxy];
    destruct (N.compare_spec (N_of_ascii y) (N_of_ascii z)) as [Eyz|Lyz|Gyz];
    destruct (N.compare_spec (N_of_ascii x) (N_of_ascii z)) as [Exz|Lxz|Gxz];
    try congruence; try lia; auto.
  apply IH.
Qed.

Lemma leb_trans (a b c : string) :
  String.leb a b = true -> String.leb b c = true -> String.leb a c = true.
Proof.
  unfold String.leb. intros Hab Hbc.
  assert (Hac : String.compare a c <> Gt).
  { apply string_compare_trans_le with b.
    - destruct (String.compare a b); congruence.
    - destruct (String.compare b c); congruence. }
  destruct (String.compare a c); congruence.
Qed.

Lemma insert_perm x l : Permutation (slices.insert x l) (x :: l).
Proof.
  induction l as [|y l IH]; simpl; auto.
  destruct (String.leb x y); auto.
  rewrite IH. apply perm_swap.
Qed.

Lemma Sort_perm l : Permutation (slices.Sort l) l.
Proof.
  induction l as [|x l IH]; simpl; auto.
  rewrite insert_perm. now constructor.
Qed.

Lemma insert_sorted x l : StronglySorted leString l -> StronglySorted leString (slices.insert x l).
Proof.
  induction 1 as [|y l Hs IH Hall]; simpl.
  - repeat constructor.
  - destruct (String.leb x y) eqn:Hxy.
    + constructor. { now constructor. }
      constructor; auto.
      eapply Forall_impl; [|exact Hall]. intros z Hz. now apply leb_trans with y.
    + constructor; auto.
      apply Permutation_Forall with (x :: l).
      { symmetry. apply insert_perm. }
      constructor; auto.
      destruct (String.leb_total x y) as [H|H]; [congruence|exact H].
Qed.

Lemma Sort_sorted l : StronglySorted leString (slices.Sort l).
Proof.
  induction l; simpl; [constructor | now apply insert_sorted].
Qed.

Lemma sorted_perm_eq l1 : forall l2,
  StronglySorted leString l1 -> StronglySorted leString l2 -> Permutation l1 l2 -> l1 = l2.
Proof.
  induction l1 as [|x l1 IH]; intros l2 H1 H2 Hp.
  - apply Permutation_nil in Hp. now subst.
  - destruct l2 as [|y l2].
    { symmetry in Hp. apply Permutation_nil in Hp. discriminate. }
    inversion H1 as [|? ? Hs1 Hall1]; inversion H2 as [|? ? Hs2 Hall2]; subst.
    assert (x = y).
    { assert (Hx : In x (y :: l2)) by (eapply Permutation_in; [exact Hp | now left]).
      assert (Hy : In y (x :: l1)) by (eapply Permutation_in; [symmetry; exact Hp | now left]).
      destruct Hx as [->|Hx]; auto. destruct Hy as [->|Hy]; auto.
      apply String.leb_antisym.
      - rewrite Forall_forall in Hall1. now apply Hall1.
      - rewrite Forall_forall in Hall2. now apply Hall2. }
    subst y. f_equal. apply IH; auto. now apply Permutation_cons_inv in Hp.
Qed.

Lemma Sort_eq_iff_perm l1 l2 : slices.Sort l1 = slices.Sort l2 <-> Permutation l1 l2.
Proof.
  split; intros H.
  - rewrite <- (Sort_perm l1), <- (Sort_perm l2), H. reflexivity.
  - apply sorted_perm_eq; try apply Sort_sorted.
    now rewrite !Sort_perm.
Qed.

End SortFacts.

Section Calls.
Context {P : Provider}.

Lemma call_run (rq : github.Request) (st : State) :
  call rq st =
    (Ok (fst (roundTrip (world st) rq)),
     mkState (snd (roundTrip (world st) rq))
             (calls st ++ [(rq, fst (roundTrip (world st) rq))])
             (output st) (manifest st) (queue st)).
Proof. unfold call. destruct (roundTrip (world st) rq); reflexivity. Qed.

Lemma requests_app_call (st : State) w rq a o m q :
  requests (mkState w (calls st ++ [(rq, a)]) o m q) = requests st ++ [rq].
Proof. unfold requests; simpl. now rewrite map_app. Qed.

Lemma write_requests rq format st :
  requests (snd (clt.write rq format st)) = requests st ++ [rq].
Proof.
  unfold clt.write, bind. rewrite call_run.
  destruct (github.err _) as [e|]; [destruct (github.isRateLimitError e)|];
    simpl; apply requests_app_call.
Qed.

End Calls.

Section TraceFacts.
Context {P : Provider}.

Lemma recoverable_false e :
  recoverable e = false ->
  errors.Is e client.ErrRepoNotFound = false /\
  errors.Is e client.ErrBranchProtectionNotFound = false /\
  errors.Is e client.ErrOrgNotFound = false.
Proof.
  unfold recoverable. intros H.
  repeat (apply orb_false_iff in H as [H ?]). auto.
Qed.

Lemma clean_app l1 l2 : clean l1 -> clean l2 -> clean (l1 ++ l2).
Proof. unfold clean. intros. apply Forall_app. now split. Qed.

Lemma guarded_aborts {A} (m : M A) : guarded m -> abortsOnRateLimit m.
Proof.
  intros Hg st. destruct (Hg st) as (l & Hl & Hc). exists l. split; [exact Hl|].
  intros pre rq a post El Hrl.
  destruct Hc as [Hc | (l' & c & e & El' & Hc & Hres & Hrec)].
  - exfalso. subst l. apply Forall_app in Hc as [_ Hc].
    inversion Hc as [|? ? Hx _]; subst. simpl in Hx. congruence.
  - assert (Hpost : post = []).
    { destruct post as [|p post]; [reflexivity|exfalso].
      rewrite El in El'.
      assert (E : l' = pre ++ (rq, a) :: removelast (p :: post)).
      { rewrite <- (removelast_last l' c), <- El'.
        rewrite removelast_app by discriminate. reflexivity. }
      assert (Hin : In (rq, a) l') by (rewrite E; apply in_elt).
      unfold clean in Hc. rewrite Forall_forall in Hc.
      specialize (Hc _ Hin). simpl in Hc. congruence. }
    split; [exact Hpost|]. now exists e.
Qed.

Lemma guarded_silent {A} (m : M A) :
  (forall st, calls (snd (m st)) = calls st) -> guarded m.
Proof.
  intros H st. exists []. rewrite app_nil_r. split; [apply H|left; constructor].
Qed.

Lemma guarded_bind {A B} (m : M A) (k : A -> M B) :
  guarded m -> (forall a, guarded (k a)) -> guarded (bind m k).
Proof.
  intros Hm Hk st. unfold bind.
  destruct (Hm st) as (l1 & Hl1 & Hc1).
  destruct (m st) as [[a|e| |] st1] eqn:Em; simpl in *;
    try (exists l1; split; [exact Hl1|];
         destruct Hc1 as [Hc1 | (l' & c & e' & El & Hc1 & Hres & Hrec)];
         [now left | right; exists l', c, e'; repeat split; auto; congruence]).
  destruct Hc1 as [Hc1 | (l' & c & e & _ & _ & Hres & _)]; [|discriminate].
  destruct (Hk a st1) as (l2 & Hl2 & Hc2).
  exists (l1 ++ l2). split.
  { rewrite Hl2, Hl1. now rewrite app_assoc. }
  destruct Hc2 as [Hc2 | (l' & c & e & El & Hc2 & Hres & Hrec)].
  - left. now apply clean_app.
  - right. exists (l1 ++ l'), c, e. subst l2. rewrite app_assoc.
    repeat split; auto. now apply clean_app.
Qed.

Lemma guarded_call {B} rq (k : github.Answer -> M B) :
  (forall a, guarded (k a)) ->
  (forall a, rateLimited a = true ->
             exists e, recoverable e = false /\ forall st, k a st = (Error e, st)) ->
  guarded (bind (call rq) k).
Proof.
  intros Hk Hrl st. unfold bind. rewrite call_run.
  set (a := fst (roundTrip (world st) rq)).
  set (st1 := mkState _ _ _ _ _).
  destruct (rateLimited a) eqn:Ea.
  - destruct (Hrl a Ea) as (e & Hrec & Hrun). rewrite Hrun. simpl.
    exists [(rq, a)]. split; [reflexivity|].
    right. exists [], (rq, a), e. repeat split; auto. constructor.
  - destruct (Hk a st1) as (l2 & Hl2 & Hc2).
    exists ((rq, a) :: l2). split.
    { rewrite Hl2. subst st1. simpl. now rewrite <- app_assoc. }
    destruct Hc2 as [Hc2 | (l' & c & e & El & Hc2 & Hres & Hrec)].
    + left. constructor; auto.
    + right. exists ((rq, a) :: l'), c, e. subst l2.
      repeat split; auto. constructor; auto.
Qed.

Lemma guarded_attempt {A B} (m : M A) (k : A + client.error -> M B) :
  guarded m -> (forall r, guarded (k r)) ->
  (forall e, recoverable e = false ->
             exists e', recoverable e' = false /\ forall st, k (inr e) st = (Error e', st)) ->
  guarded (bind (attempt m) k).
Proof.
  intros Hm Hk Hrec st. unfold bind, attempt.
  destruct (Hm st) as (l1 & Hl1 & Hc1).
  destruct (m st) as [[a|e| |] st1] eqn:Em; simpl in *;
    try (exists l1; split; [exact Hl1|];
         destruct Hc1 as [Hc1 | (l' & c & e & _ & _ & Hres & _)]; [now left|discriminate]).
  - destruct Hc1 as [Hc1 | (l' & c & e & _ & _ & Hres & _)]; [|discriminate].
    destruct (Hk (inl a) st1) as (l2 & Hl2 & Hc2).
    exists (l1 ++ l2). split.
    { rewrite Hl2, Hl1. now rewrite app_assoc. }
    destruct Hc2 as [Hc2 | (l' & c & e & El & Hc2 & Hres & Hrec')].
    + left. now apply clean_app.
    + right. exists (l1 ++ l'), c, e. subst l2. rewrite app_assoc.
      repeat split; auto. now apply clean_app.
  - destruct Hc1 as [Hc1 | (l' & c & e0 & El & Hc1 & Hres & Hrec')].
    + destruct (Hk (inr e) st1) as (l2 & Hl2 & Hc2).
      exists (l1 ++ l2). split.
      { rewrite Hl2, Hl1. now rewrite app_assoc. }
      destruct Hc2 as [Hc2 | (l' & c & e0 & El & Hc2 & Hres & Hrec')].
      * left. now apply clean_app.
      * right. exists (l1 ++ l'), c, e0. subst l2. rewrite app_assoc.
        repeat split; auto. now apply clean_app.
    + injection Hres as ->.
      destruct (Hrec e0 Hrec') as (e' & He' & Hrun). rewrite Hrun. simpl.
      exists l1. split; [exact Hl1|]. right. exists l', c, e'. auto.
Qed.

Lemma guarded_forEach {A} (l : list A) (body : A -> M unit) :
  (forall x, guarded (body x)) -> guarded (cmd.forEach l body).
Proof.
  intros Hb. induction l as [|x l IH]; simpl.
  - now apply guarded_silent.
  - apply guarded_bind; auto.
Qed.

Lemma guarded_forEachAt {A} (l : list A) (body : nat -> A -> M unit) i :
  (forall i x, guarded (body i x)) -> guarded (cmd.forEachAt i l body).
Proof.
  intros Hb. revert i. induction l as [|x l IH]; intros i; simpl.
  - now apply guarded_silent.
  - apply guarded_bind; auto.
Qed.
End TraceFacts.

Section GatewayAborts.
Context {P : Provider}.

Lemma rateLimited_inv a :
  rateLimited a = true ->
  github.err a = Some github.RateLimitError /\
  github.payload a = github.NoPayload /\
  (github.resp a = None \/
   exists r, github.resp a = Some r /\
             (github.Response.StatusCode r =? http.StatusNotFound)%Z = false).
Proof.
  unfold rateLimited.
  destruct (github.err a) as [[| |]|]; try discriminate.
  destruct (github.payload a); try discriminate.
  destruct (github.resp a) as [r|]; intros H; repeat split; auto.
  right. exists r. split; auto. now apply negb_true_iff.
Qed.

Ltac silent := apply guarded_silent; intros; reflexivity.

Ltac guards :=
  repeat first
    [ silent
    | progress cbv zeta
    | apply guarded_forEach; intros ?
    | apply guarded_bind; [|intros ?]
    | match goal with
      | |- guarded (if ?b then _ else _) => destruct b
      | |- guarded (match ?x with _ => _ end) => destruct x
      | |- guarded (cmd.whenSome ?o _) => destruct o; simpl
      | |- guarded (StatusCode ?r) => destruct r; simpl
      | |- guarded (NextPage ?r) => destruct r; simpl
      | |- guarded (cmd.orPanic ?r) => destruct r; simpl
      end ].

(** What follows a call answers a rate-limit signal with [throw e]. *)
Ltac onSignal e :=
  let a := fresh "a" in
  let H := fresh "H" in
  let st := fresh "st" in
  intros a H; apply rateLimited_inv in H as (Herr & Hpay & Hresp);
  exists e; split; [reflexivity|]; intros st.

Lemma guarded_classify {A} a nf format (v : A) : guarded (clt.classify a nf format v).
Proof. unfold clt.classify. guards. Qed.

Lemma classify_signal {A} a nf format (v : A) :
   github.err a = Some github.RateLimitError ->
   forall st, clt.classify a nf format v st = (Error clt.hitRateLimit, st).
Proof. intros H st. unfold clt.classify. now rewrite H. Qed.

Lemma guarded_GetRepo org name : guarded (clt.GetRepo org name).
Proof.
  unfold clt.GetRepo. apply guarded_call.
  - intros a. apply guarded_classify.
  - onSignal clt.hitRateLimit. now apply classify_signal.
Qed.

Lemma guarded_GetRepoTopics org name : guarded (clt.GetRepoTopics org name).
Proof.
  unfold clt.GetRepoTopics. apply guarded_call.
  - intros a. apply guarded_classify.
  - onSignal clt.hitRateLimit. now apply classify_signal.
Qed.

Lemma guarded_GetBranches org name : guarded (clt.GetBranches org name).
Proof.
  unfold clt.GetBranches. apply guarded_call.
  - intros a. apply guarded_classify.
  - onSignal clt.hitRateLimit. now apply classify_signal.
Qed.

Lemma guarded_GetBranchProtection org repo branch :
  guarded (clt.GetBranchProtection org repo branch).
Proof.
  unfold clt.GetBranchProtection. apply guarded_call.
  - intros a. apply guarded_classify.
  - onSignal clt.hitRateLimit. now apply classify_signal.
Qed.

Lemma guarded_IsBranchProtected org repo branch :
  guarded (clt.IsBranchProtected org repo branch).
Proof.
  unfold clt.IsBranchProtected. apply guarded_call.
  - intros a. guards.
  - onSignal clt.hitRateLimit. now rewrite Herr.
Qed.

Lemma guarded_GetOrg orgName : guarded (clt.GetOrg orgName).
Proof.
  unfold clt.GetOrg. apply guarded_call.
  - intros a. guards.
  - onSignal (client.Upstream github.RateLimitError). now rewrite Herr.
Qed.

Lemma guarded_OrgExists orgName : guarded (clt.OrgExists orgName).
Proof.
  unfold clt.OrgExists. apply guarded_attempt.
  - apply guarded_GetOrg.
  - intros r. guards.
  - intros e He. exists e. split; [exact He|]. intros st.
    apply recoverable_false in He as (_ & _ & He). now rewrite He.
Qed.

Lemma guarded_GetMembers orgName : guarded (clt.GetMembers orgName).
Proof.
  unfold clt.GetMembers. apply guarded_call.
  - intros a. guards.
  - onSignal (client.Upstream github.RateLimitError). now rewrite Herr.
Qed.

Lemma guarded_inviteTask orgName username : guarded (clt.inviteTask orgName username).
Proof.
  unfold clt.inviteTask. apply guarded_call.
  - intros a. destruct (github.err a) as [e|]; [guards|].
    destruct (github.asUser _); [|guards].
    apply guarded_call.
    + intros b. guards.
    + onSignal (client.Upstream github.RateLimitError). now rewrite Herr.
  - onSignal (client.Upstream github.RateLimitError). now rewrite Herr.
Qed.

Lemma guarded_write rq format : guarded (clt.write rq format).
Proof.
  unfold clt.write. apply guarded_call.
  - intros a. guards.
  - onSignal clt.hitRateLimit. now rewrite Herr.
Qed.

Lemma guarded_GetRepos_loop fuel : forall name orgFound page repos,
  guarded (clt.GetRepos_loop fuel name orgFound page repos).
Proof.
  induction fuel as [|fuel IH]; intros; simpl; [silent|].
  apply guarded_call.
  - intros a. destruct (github.err a) as [e|]; [guards|].
    apply guarded_bind; [guards|]. intros next.
    destruct (next =? 0)%Z; [silent|apply IH].
  - onSignal clt.hitRateLimit. now rewrite Herr.
Qed.




Lemma guarded_ensureSignedCommits org repo branch dry :
  guarded (cmd.ensureSignedCommits org repo branch dry).
Proof.
  unfold cmd.ensureSignedCommits.
  destruct (gh_pb.Protection.SignedCommits _) as [signed|]; [|silent].
  apply guarded_bind; [apply guarded_GetBranchProtection|]. intros ghpb.
  unfold clt.RequireSignedCommits, cmd.println.
  destruct (negb _); [destruct dry|];
    repeat first [ apply guarded_write | silent | apply guarded_bind; [|intros ?] ].
Qed.

Lemma guarded_reportProtection verb branch : guarded (cmd.reportProtection verb branch).
Proof. unfold cmd.reportProtection, cmd.println. guards. Qed.

Lemma guarded_createProtectedBranch org repo branch dry :
  guarded (cmd.createProtectedBranch org repo branch dry).
Proof.
  unfold cmd.createProtectedBranch, clt.ProtectBranch, cmd.println. cbv zeta.
  destruct dry;
    repeat first [ apply guarded_write | apply guarded_reportProtection
                 | apply guarded_ensureSignedCommits | silent
                 | apply guarded_bind; [|intros ?] ].
Qed.

Lemma guarded_UpdateBranchProtection org repo branch dry :
  guarded (cmd.UpdateBranchProtection org repo branch dry).
Proof.
  unfold cmd.UpdateBranchProtection, clt.ProtectBranch, cmd.println. cbv zeta.
  do 2 (apply guarded_bind; [silent|intros ?]).
  destruct dry;
    repeat first [ apply guarded_write | apply guarded_reportProtection
                 | apply guarded_ensureSignedCommits | silent
                 | apply guarded_bind; [|intros ?] ].
Qed.

Lemma guarded_ensureProtectedBranches org repo ghr dry :
  guarded (cmd.ensureProtectedBranches org repo ghr dry).
Proof.
  unfold cmd.ensureProtectedBranches. apply guarded_forEach. intros pb.
  apply guarded_attempt.
  - apply guarded_GetBranchProtection.
  - intros [p|e].
    + apply guarded_UpdateBranchProtection.
    + destruct (errors.Is e _); [apply guarded_createProtectedBranch|silent].
  - intros e He. exists e. split; [exact He|]. intros st.
    apply recoverable_false in He as (_ & He & _). now rewrite He.
Qed.

Lemma guarded_reportEdits verb e : guarded (cmd.reportEdits verb e).
Proof. unfold cmd.reportEdits, cmd.println. guards. Qed.

Lemma guarded_reportState verb s : guarded (cmd.reportState verb s).
Proof. unfold cmd.reportState, cmd.println. guards. Qed.

Lemma guarded_createRepo org repo dry : guarded (cmd.createRepo org repo dry).
Proof.
  unfold cmd.createRepo, clt.CreateRepo, cmd.println. cbv zeta.
  destruct dry;
    repeat first [ apply guarded_write | apply guarded_reportState | silent
                 | apply guarded_bind; [|intros ?] ].
Qed.

Lemma guarded_ensureTopics org ptr repo ghr dry :
  guarded (cmd.ensureTopics org ptr repo ghr dry).
Proof.
  unfold cmd.ensureTopics, clt.SetRepoTopics, cmd.println.
  destruct (_ =? 0)%nat; [silent|]. destruct ghr as [g|]; [|silent]. cbv zeta.
  apply guarded_bind; [silent|intros ?].
  destruct (negb _); [destruct dry|];
    repeat first [ apply guarded_write | silent | apply guarded_bind; [|intros ?] ].
Qed.

Lemma guarded_ensureRepo org ptr repo dry : guarded (cmd.ensureRepo org ptr repo dry).
Proof.
  unfold cmd.ensureRepo.
  assert (Hrest : forall ghr, guarded (
    let edits := cmd.edits repo ghr in
    (if dry then cmd.reportEdits "updating" edits
     else clt.UpdateRepo org (gh_pb.Repository.Name repo) edits ;;
          cmd.reportEdits "updated" edits) ;;
    cmd.ensureTopics org ptr repo ghr dry ;;
    cmd.ensureProtectedBranches org repo ghr dry)).
  { intros ghr. cbv zeta. unfold clt.UpdateRepo.
    destruct dry;
      repeat first [ apply guarded_write | apply guarded_reportEdits
                   | apply guarded_ensureTopics | apply guarded_ensureProtectedBranches
                   | apply guarded_bind; [|intros ?] ]. }
  apply guarded_attempt.
  - apply guarded_GetRepo.
  - intros [ghr|e]; (apply guarded_bind; [|exact Hrest]); [silent|].
    destruct (negb _); [silent|].
    apply guarded_bind; [apply guarded_createRepo|intros ?; silent].
  - intros e He. exists e. split; [exact He|]. intros st.
    apply recoverable_false in He as (He & _). unfold bind. now rewrite He.
Qed.

Lemma guarded_reposRun dry : guarded (cmd.reposRun dry).
Proof.
  unfold cmd.reposRun, cmd.println.
  do 4 (apply guarded_bind; [silent|intros ?]).
  apply guarded_forEachAt. intros i r.
  do 3 (apply guarded_bind; [silent|intros ?]).
  apply guarded_ensureRepo.
Qed.

Lemma guarded_inviteMembers org members dry : guarded (cmd.inviteMembers org members dry).
Proof.
  unfold cmd.inviteMembers, clt.InviteMember, clt.Add, cmd.println.
  apply guarded_forEach. intros m. destruct dry; guards.
Qed.

Lemma guarded_membersRun dry : guarded (cmd.membersRun dry).
Proof.
  unfold cmd.membersRun, cmd.println.
  do 4 (apply guarded_bind; [silent|intros ?]).
  apply guarded_bind; [apply guarded_GetMembers|intros ps].
  apply guarded_bind.
  - apply guarded_forEach. intros p. guards.
  - intros _. apply guarded_bind; [guards|intros missing].
    apply guarded_inviteMembers.
Qed.

End GatewayAborts.

Section Quiet.
Context {P : Provider}.

Lemma quiet_ret : quiet (ret tt).
Proof. intros st. exists st. auto. Qed.

Lemma quiet_print l : quiet (print l).
Proof. intros st. eexists. split; [reflexivity|]. auto. Qed.

Lemma quiet_bind (m : M unit) (k : unit -> M unit) :
  quiet m -> (forall u, quiet (k u)) -> quiet (bind m k).
Proof.
  intros Hm Hk st. destruct (Hm st) as (st1 & E1 & W1 & C1 & Q1).
  destruct (Hk tt st1) as (st2 & E2 & W2 & C2 & Q2).
  exists st2. unfold bind. rewrite E1, E2. repeat split; congruence.
Qed.

Lemma quiet_whenSome {A} (o : option A) f :
  (forall a, quiet (f a)) -> quiet (cmd.whenSome o f).
Proof. intros H. destruct o; simpl; [apply H|apply quiet_ret]. Qed.

Lemma quiet_setLabels i l : quiet (cmd.setLabels i l).
Proof. intros st. eexists. split; [reflexivity|]. auto. Qed.

Ltac quiets :=
  repeat first
    [ apply quiet_ret | apply quiet_print | apply quiet_setLabels
    | apply quiet_bind; [|intros ?]
    | apply quiet_whenSome; intros ?
    | match goal with |- quiet (if ?b then _ else _) => destruct b end ].

Lemma quiet_reportEdits verb e : quiet (cmd.reportEdits verb e).
Proof. unfold cmd.reportEdits, cmd.println. quiets. Qed.

Lemma quiet_reportProtection verb b : quiet (cmd.reportProtection verb b).
Proof. unfold cmd.reportProtection, cmd.println. quiets. Qed.

Lemma writes_app_call (st : State) w rq a o m q :
  writes (mkState w (calls st ++ [(rq, a)]) o m q)
  = writes st ++ (if github.isWrite rq then [rq] else []).
Proof.
  unfold writes. rewrite requests_app_call, filter_app. simpl.
  now destruct (github.isWrite rq).
Qed.

Lemma writes_same_calls (st st' : State) : calls st' = calls st -> writes st' = writes st.
Proof. unfold writes, requests. now intros ->. Qed.
End Quiet.

Section Pagination.
Existing Instance sim.github_com.

Lemma sim_call (rq : github.Request) (st : State) :
  call rq st =
    (Ok (fst (sim.serve (world st) rq)),
     mkState (snd (sim.serve (world st) rq))
             (calls st ++ [(rq, fst (sim.serve (world st) rq))])
             (output st) (manifest st) (queue st)).
Proof. apply (call_run (P := sim.github_com)). Qed.

Lemma pagesOf_spec n k : (100 * k < n + 100 <= 100 * k + 100)%nat <-> pagesOf n = k.
Proof.
  unfold pagesOf. split.
  - intros H. symmetry. apply Nat.div_unique with (n + 99 - 100 * k)%nat; lia.
  - intros <-. pose proof (Nat.div_mod_eq (n + 99) 100) as E.
    pose proof (Nat.mod_upper_bound (n + 99) 100 ltac:(lia)). lia.
Qed.

Lemma pageIndex_pageNumber i : sim.pageIndex (pageNumber i) = i.
Proof. unfold sim.pageIndex, pageNumber. destruct i; lia. Qed.

Lemma skipn_page {A} (l : list A) a :
  firstn 100 (skipn a l) ++ skipn (a + 100) l = skipn a l.
Proof.
  rewrite Nat.add_comm, <- skipn_skipn. apply firstn_skipn.
Qed.

Lemma listing_answer w name i :
  sim.serve w (listing w name (pageNumber i)) =
    (sim.ok (github.PRepositories (firstn 100 (skipn (i * 100) (sim.repos w))))
            (if ((i + 1) * 100 <? List.length (sim.repos w))%nat
             then Z.of_nat (i + 2) else 0%Z), w).
Proof.
  unfold listing. destruct (sim.kind w) eqn:Ek; simpl; rewrite Ek;
    unfold sim.listPage, sim.pageItems, sim.nextPage; simpl;
    rewrite pageIndex_pageNumber; reflexivity.
Qed.

Lemma loop_call w name i :
  (if match sim.kind w with sim.OrgAccount => true | sim.UserAccount => false end
   then github.Repositories_ListByOrg name (clt.listOpts (pageNumber i))
   else github.Repositories_List name (clt.listOpts (pageNumber i)))
  = listing w name (pageNumber i).
Proof. unfold listing. now destruct (sim.kind w). Qed.

Lemma pagesOf_more n i : ((i + 1) * 100 < n -> i + 2 <= pagesOf n)%nat.
Proof.
  intros H. pose proof (proj2 (pagesOf_spec n _) eq_refl). lia.
Qed.

Lemma pagesOf_last n i :
  (i * 100 < n \/ i = 0 -> ~ (i + 1) * 100 < n -> Nat.max 1 (pagesOf n) - i = 1)%nat.
Proof.
  intros H1 H2. pose proof (proj2 (pagesOf_spec n _) eq_refl). lia.
Qed.

Lemma GetRepos_loop_spec w name : forall fuel i acc (st : State),
  world st = w ->
  (i * 100 < List.length (sim.repos w) \/ i = 0)%nat ->
  (Nat.max 1 (pagesOf (List.length (sim.repos w))) <= fuel + i)%nat ->
  exists st',
    clt.GetRepos_loop fuel name
      (match sim.kind w with sim.OrgAccount => true | sim.UserAccount => false end)
      (pageNumber i) acc st
    = (Ok (acc ++ filter notArchived (skipn (i * 100) (sim.repos w))), st') /\
    world st' = w /\
    requests st' =
      requests st ++ map (listing w name)
                         (pageNumbers (Nat.max 1 (pagesOf (List.length (sim.repos w))) - i) i).
Proof.
  set (n := List.length (sim.repos w)).
  induction fuel as [|fuel IH]; intros i acc st Hw Hi Hfuel.
  - exfalso. pose proof (proj2 (pagesOf_spec n _) eq_refl). lia.
  - cbn [clt.GetRepos_loop]. rewrite loop_call. unfold bind at 1.
    rewrite sim_call, Hw, listing_answer. cbn [fst snd].
    cbn [github.err sim.ok github.payload github.asRepositories github.resp NextPage].
    unfold bind at 1, ret at 1. cbn [github.Response.NextPage]. fold n.
    destruct ((i + 1) * 100 <? n)%nat eqn:Emore.
    + apply Nat.ltb_lt in Emore.
      replace (Z.of_nat (i + 2) =? 0)%Z with false by (symmetry; apply Z.eqb_neq; lia).
      replace (Z.of_nat (i + 2)) with (pageNumber (S i))
        by (unfold pageNumber; f_equal; lia).
      destruct (IH (S i)
                  (acc ++ filter (fun r => negb (github.Repository.GetArchived (Some r)))
                                 (firstn 100 (skipn (i * 100) (sim.repos w))))
                  (mkState w (calls st ++
                              [(listing w name (pageNumber i),
                                sim.ok (github.PRepositories
                                          (firstn 100 (skipn (i * 100) (sim.repos w))))
                                       (pageNumber (S i)))])
                           (output st) (manifest st) (queue st)))
        as (st' & Hrun & Hw' & Hreq); [reflexivity | left; lia | lia |].
      rewrite Hrun. exists st'. split; [|split; [exact Hw'|]].
      * f_equal. rewrite <- app_assoc. f_equal. f_equal.
        change (filter (fun r => negb (github.Repository.GetArchived (Some r))))
          with (filter notArchived).
        rewrite <- filter_app. f_equal.
        replace (S i * 100)%nat with (i * 100 + 100)%nat by lia.
        apply skipn_page.
      * rewrite Hreq, requests_app_call, <- app_assoc. f_equal.
        pose proof (pagesOf_more n i Emore).
        replace (Nat.max 1 (pagesOf n) - i)%nat with (S (Nat.max 1 (pagesOf n) - S i)) by lia.
        reflexivity.
    + apply Nat.ltb_ge in Emore.
      rewrite Z.eqb_refl.
      match goal with |- exists st', ret _ ?s = _ /\ _ => exists s end.
      unfold ret. split; [|split; [reflexivity|]].
      * f_equal. f_equal.
        change (filter (fun r => negb (github.Repository.GetArchived (Some r))))
          with (filter notArchived).
        rewrite firstn_all2; [reflexivity|]. rewrite length_skipn. fold n. lia.
      * rewrite requests_app_call. f_equal.
        rewrite pagesOf_last by lia. reflexivity.
Qed.
End Pagination.

Section Idempotence.
Existing Instance sim.github_com.

Lemma sameBase_refl w : sameBase w w.
Proof. repeat split. Qed.

Lemma sameBase_trans w1 w2 w3 : sameBase w1 w2 -> sameBase w2 w3 -> sameBase w1 w3.
Proof.
  intros (R1 & M1 & S1) (R2 & M2 & S2).
  split; [congruence|]. split; [congruence|].
  intros. now rewrite S2, S1.
Qed.

Lemma branchInSync_sameBase w w' repo b :
  sameBase w w' -> branchInSync w repo b -> branchInSync w' repo b.
Proof.
  intros (_ & _ & S) (q & Hq & Hs).
  specialize (S repo (gh_pb.Branch.Name b)). unfold signatures in S.
  rewrite Hq in S. destruct (sim.findProtection _ _ w') as [q'|] eqn:Hq'; [|discriminate].
  simpl in S. injection S as S. exists q'. split; [exact Hq'|]. now rewrite S.
Qed.

Lemma repoInSync_sameBase w w' r : sameBase w w' -> repoInSync w r -> repoInSync w' r.
Proof.
  intros HS (g & Hg & He & Hl & Hb). exists g. repeat split; auto.
  - destruct HS as (R & _). unfold sim.findRepo in *. now rewrite R.
  - eapply Forall_impl; [|exact Hb]. intros b. now apply branchInSync_sameBase.
Qed.

Lemma branchMatches_inSync w repo b :
  branchMatches w repo b = true -> branchInSync w repo b.
Proof.
  unfold branchMatches, branchInSync.
  destruct (sim.findProtection _ _ w) as [q|]; [|discriminate].
  unfold protectionMatches. intros H. apply andb_true_iff in H as [_ H].
  now exists q.
Qed.

Lemma repoMatches_inSync w r : repoMatches w r = true -> repoInSync w r.
Proof.
  unfold repoMatches, repoInSync.
  destruct (sim.findRepo _ w) as [g|]; [|discriminate].
  intros H. repeat (apply andb_true_iff in H as [H ?]).
  exists g. split; [reflexivity|]. split; [|split].
  - unfold cmd.edits, github.Repository.empty.
    destruct (gh_pb.Repository.Description r), (gh_pb.Repository.Archived r),
      (gh_pb.Repository.Private r), (gh_pb.Repository.DefaultBranch r);
      simpl in *;
      repeat match goal with
             | E : _ = true |- _ => rewrite E; clear E
             end; reflexivity.
  - destruct (gh_pb.Repository.Labels r); [now left|now right].
  - apply Forall_forall. intros b Hb. apply branchMatches_inSync.
    match goal with F : forallb _ _ = true |- _ =>
      rewrite forallb_forall in F; now apply F end.
Qed.

Lemma does_quiet m st : quiet m -> does m st [].
Proof.
  intros H. destruct (H st) as (st' & E & W & C & Q). exists st'.
  split; [exact E|]. split; [rewrite W; apply sameBase_refl|].
  split; [rewrite app_nil_r; now apply writes_same_calls|exact Q].
Qed.

Lemma does_bind (m : M unit) (k : unit -> M unit) st ws1 ws2 :
  does m st ws1 ->
  (forall st1, sameBase (world st) (world st1) -> does (k tt) st1 ws2) ->
  does (bind m k) st (ws1 ++ ws2).
Proof.
  intros (st1 & E1 & B1 & W1 & Q1) Hk.
  destruct (Hk st1 B1) as (st2 & E2 & B2 & W2 & Q2).
  exists st2. unfold bind. rewrite E1, E2. split; [reflexivity|].
  split; [eapply sameBase_trans; eassumption|].
  split; [rewrite W2, W1; now rewrite app_assoc|congruence].
Qed.

Lemma does_first (m : M unit) (k : unit -> M unit) st w ws :
  does m st [w] ->
  (forall st1, sameBase (world st) (world st1) -> does (k tt) st1 ws) ->
  does (bind m k) st (w :: ws).
Proof. apply (does_bind m k st [w] ws). Qed.

Lemma does_then (m : M unit) (k : unit -> M unit) st ws :
  does m st [] ->
  (forall st1, sameBase (world st) (world st1) -> does (k tt) st1 ws) ->
  does (bind m k) st ws.
Proof. apply (does_bind m k st [] ws). Qed.

Lemma does_last (m : M unit) (k : unit -> M unit) st ws :
  does m st ws ->
  (forall st1, sameBase (world st) (world st1) -> does (k tt) st1 []) ->
  does (bind m k) st ws.
Proof. intros. rewrite <- (app_nil_r ws). now apply does_bind. Qed.

Lemma does_quiet_then (m : M unit) (k : unit -> M unit) st ws :
  quiet m -> (forall st1, world st1 = world st -> does (k tt) st1 ws) -> does (bind m k) st ws.
Proof.
  intros Hm Hk. destruct (Hm st) as (st1 & E1 & W1 & C1 & Q1).
  destruct (Hk st1 W1) as (st2 & E2 & B2 & W2 & Q2).
  exists st2. unfold bind. rewrite E1, E2. split; [reflexivity|].
  split; [now rewrite <- W1|].
  split; [rewrite W2; f_equal; now apply writes_same_calls|congruence].
Qed.

Lemma does_after {A} (m : M A) (k : A -> M unit) st a st1 ws :
  m st = (Ok a, st1) -> world st1 = world st -> writes st1 = writes st ->
  queue st1 = queue st -> does (k a) st1 ws -> does (bind m k) st ws.
Proof.
  intros E W Wr Q (st2 & E2 & B2 & W2 & Q2). exists st2.
  unfold bind. rewrite E, E2. split; [reflexivity|].
  split; [now rewrite <- W|]. split; congruence.
Qed.

(** *** The answers of the simulated remote *)

Lemma GetBranchProtection_found org repo branch q (st : State) :
  sim.findProtection repo branch (world st) = Some q ->
  clt.GetBranchProtection org repo branch st =
    (Ok (Some q),
     mkState (world st)
             (calls st ++ [(github.Repositories_GetBranchProtection org repo branch,
                            sim.ok (github.PProtection q) 0)])
             (output st) (manifest st) (queue st)).
Proof.
  intros H. unfold clt.GetBranchProtection, bind. rewrite sim_call. simpl. now rewrite H.
Qed.

Lemma GetRepo_found org name g (st : State) :
  sim.findRepo name (world st) = Some g ->
  clt.GetRepo org name st =
    (Ok (Some g),
     mkState (world st)
             (calls st ++ [(github.Repositories_Get org name, sim.ok (github.PRepository g) 0)])
             (output st) (manifest st) (queue st)).
Proof.
  intros H. unfold clt.GetRepo, bind. rewrite sim_call. simpl. now rewrite H.
Qed.

Lemma applyPatch_empty g : sim.applyPatch github.Repository.empty g = g.
Proof. now destruct g. Qed.

Lemma withRepos_same w : sim.withRepos w (sim.repos w) = w.
Proof. now destruct w. Qed.

Lemma UpdateRepo_empty org name g (st : State) :
  sim.findRepo name (world st) = Some g ->
  clt.UpdateRepo org name github.Repository.empty st =
    (Ok tt,
     mkState (world st)
             (calls st ++ [(github.Repositories_Edit org name github.Repository.empty,
                            sim.ok (github.PRepository g) 0)])
             (output st) (manifest st) (queue st)).
Proof.
  intros H. unfold clt.UpdateRepo, clt.write, bind. rewrite sim_call.
  cbn [sim.serve]. rewrite H. cbn [fst snd]. rewrite applyPatch_empty.
  replace (map _ (sim.repos (world st))) with (sim.repos (world st)).
  - now rewrite withRepos_same.
  - rewrite <- (map_id (sim.repos (world st))) at 1. apply map_ext.
    intros a. destruct (sim.named name a); [now rewrite applyPatch_empty|reflexivity].
Qed.

(** Re-protecting a protected branch keeps the base. *)
Lemma find_map {A} (p : A -> bool) (h : A -> A) l :
  (forall x, p (h x) = p x) -> find p (map h l) = option_map h (find p l).
Proof.
  intros H. induction l as [|x l IH]; [reflexivity|].
  cbn [map find]. rewrite H. now destruct (p x).
Qed.

Lemma keyed_onKey repo branch f r b e :
  sim.keyed r b (sim.onKey repo branch f e) = sim.keyed r b e.
Proof. unfold sim.onKey. now destruct (sim.keyed repo branch e). Qed.

Lemma signatures_onKey w repo branch f :
  (forall q, github.Protection.RequiredSignatures (f q)
             = github.Protection.RequiredSignatures q) ->
  sameBase w (sim.withProtections w (map (sim.onKey repo branch f) (sim.protections w))).
Proof.
  intros Hf. split; [reflexivity|]. split; [reflexivity|]. intros r b.
  unfold signatures, sim.findProtection. cbn [sim.protections sim.withProtections].
  rewrite find_map by (intros; apply keyed_onKey).
  destruct (find (sim.keyed r b) (sim.protections w)) as [e|]; [|reflexivity].
  cbn [option_map]. f_equal. unfold sim.onKey.
  destruct (sim.keyed repo branch e); [apply Hf|reflexivity].
Qed.

Lemma sameBase_reprotect w repo branch preq :
  sameBase w (sim.withProtections w
                (map (sim.onKey repo branch (fun p => sim.protect preq (Some p)))
                     (sim.protections w))).
Proof. apply signatures_onKey. reflexivity. Qed.

Lemma ProtectBranch_protected org repo branch preq g q (st : State) :
  sim.findRepo repo (world st) = Some g ->
  sim.findProtection repo branch (world st) = Some q ->
  does (clt.ProtectBranch org repo branch preq) st
       [github.Repositories_UpdateBranchProtection org repo branch preq].
Proof.
  intros Hg Hq. unfold does, clt.ProtectBranch, clt.write, bind. rewrite sim_call.
  cbn [sim.serve]. rewrite Hg, Hq. cbn [fst snd github.err sim.ok].
  eexists. split; [reflexivity|]. cbn [world queue].
  split; [apply sameBase_reprotect|]. split; [|reflexivity].
  now rewrite writes_app_call.
Qed.

Lemma ensureSignedCommits_inSync org repo b (st : State) :
  branchInSync (world st) (gh_pb.Repository.Name repo) b ->
  does (cmd.ensureSignedCommits org repo b false) st [].
Proof.
  intros (q & Hq & Hs). unfold cmd.ensureSignedCommits.
  destruct (gh_pb.Protection.SignedCommits _) as [signed|];
    [|apply does_quiet, quiet_ret].
  eapply does_after;
    [ apply GetBranchProtection_found; exact Hq | reflexivity
    | now rewrite writes_app_call, app_nil_r | reflexivity | ].
  cbn [whenSet] in Hs. cbn [github.Protection.GetRequiredSignatures]. rewrite Hs.
  cbn [negb]. apply does_quiet. unfold cmd.println.
  apply quiet_bind; [apply quiet_print|intros; apply quiet_print].
Qed.

Lemma UpdateBranchProtection_inSync org repo b g (st : State) :
  sim.findRepo (gh_pb.Repository.Name repo) (world st) = Some g ->
  branchInSync (world st) (gh_pb.Repository.Name repo) b ->
  does (cmd.UpdateBranchProtection org repo b false) st
       [github.Repositories_UpdateBranchProtection
          org (gh_pb.Repository.Name repo) (gh_pb.Branch.Name b) (cmd.protectionRequest b)].
Proof.
  intros Hg Hb. unfold cmd.UpdateBranchProtection. cbv zeta.
  apply does_quiet_then; [apply quiet_print|intros st1 W1].
  apply does_quiet_then; [apply quiet_print|intros st2 W2].
  rewrite <- W1 in Hg, Hb. rewrite <- W2 in Hg, Hb.
  apply does_last.
  { destruct Hb as (q & Hq & _). eapply ProtectBranch_protected; eassumption. }
  intros st3 B3.
  apply does_then; [apply does_quiet, quiet_reportProtection|].
  intros st4 B4. apply ensureSignedCommits_inSync.
  eapply branchInSync_sameBase; [|exact Hb]. eapply sameBase_trans; eassumption.
Qed.

Lemma protectedBranches_loop_inSync org repo g : forall bs (st : State),
  sim.findRepo (gh_pb.Repository.Name repo) (world st) = Some g ->
  Forall (branchInSync (world st) (gh_pb.Repository.Name repo)) bs ->
  does (cmd.forEach bs (fun pb =>
          r <- attempt (clt.GetBranchProtection org (gh_pb.Repository.Name repo)
                                                (gh_pb.Branch.Name pb)) ;;
          match r with
          | inr e =>
              if errors.Is e client.ErrBranchProtectionNotFound
              then cmd.createProtectedBranch org repo pb false
              else throw e
          | inl _ => cmd.UpdateBranchProtection org repo pb false
          end)) st
       (map (fun b => github.Repositories_UpdateBranchProtection
                        org (gh_pb.Repository.Name repo) (gh_pb.Branch.Name b)
                        (cmd.protectionRequest b)) bs).
Proof.
  induction bs as [|b bs IH]; intros st Hg Hbs.
  - apply does_quiet, quiet_ret.
  - inversion Hbs as [|? ? Hb Hrest]; subst. cbn [cmd.forEach map].
    apply does_first.
    + destruct Hb as (q & Hq & Hs).
      assert (Hb' : branchInSync (world st) (gh_pb.Repository.Name repo) b)
        by (exists q; auto).
      eapply does_after;
        [ unfold attempt; rewrite (GetBranchProtection_found org _ _ q _ Hq); reflexivity
        | reflexivity | now rewrite writes_app_call, app_nil_r | reflexivity | ].
      cbv beta iota. now apply UpdateBranchProtection_inSync with g.
    + intros st1 B1. apply IH.
      * destruct B1 as (R & _). unfold sim.findRepo in *. now rewrite R.
      * eapply Forall_impl; [|exact Hrest]. intros b'. now apply branchInSync_sameBase.
Qed.

Lemma ensureProtectedBranches_inSync org repo ghr g (st : State) :
  sim.findRepo (gh_pb.Repository.Name repo) (world st) = Some g ->
  Forall (branchInSync (world st) (gh_pb.Repository.Name repo))
         (gh_pb.Repository.ProtectedBranches repo) ->
  does (cmd.ensureProtectedBranches org repo ghr false) st
       (map (fun b => github.Repositories_UpdateBranchProtection
                        org (gh_pb.Repository.Name repo) (gh_pb.Branch.Name b)
                        (cmd.protectionRequest b))
            (gh_pb.Repository.ProtectedBranches repo)).
Proof. intros. now apply protectedBranches_loop_inSync with g. Qed.

Lemma ensureTopics_inSync org ptr repo g (st : State) :
  (gh_pb.Repository.Labels repo = [] \/
   slices.Equal (slices.Sort (github.Repository.Topics g))
                (slices.Sort (gh_pb.Repository.Labels repo)) = true) ->
  does (cmd.ensureTopics org ptr repo (Some g) false) st [].
Proof.
  intros H. unfold cmd.ensureTopics.
  destruct (gh_pb.Repository.Labels repo) as [|x l] eqn:El.
  - apply does_quiet, quiet_ret.
  - destruct H as [H|H]; [discriminate|]. cbn [List.length Nat.eqb]. cbv zeta.
    rewrite H. cbn [negb]. apply does_quiet. unfold cmd.println.
    repeat first [apply quiet_setLabels | apply quiet_print | apply quiet_bind; [|intros ?]].
Qed.

Lemma ensureRepo_inSync org ptr repo (st : State) :
  repoInSync (world st) repo ->
  does (cmd.ensureRepo org ptr repo false) st
       (github.Repositories_Edit org (gh_pb.Repository.Name repo) github.Repository.empty
        :: map (fun b => github.Repositories_UpdateBranchProtection
                           org (gh_pb.Repository.Name repo) (gh_pb.Branch.Name b)
                           (cmd.protectionRequest b))
               (gh_pb.Repository.ProtectedBranches repo)).
Proof.
  intros (g & Hg & He & Hl & Hb). unfold cmd.ensureRepo.
  eapply does_after;
    [ unfold attempt; rewrite (GetRepo_found org _ g _ Hg); reflexivity
    | reflexivity | now rewrite writes_app_call, app_nil_r | reflexivity | ].
  cbv beta iota.
  eapply does_after; [reflexivity|reflexivity|reflexivity|reflexivity|].
  cbv zeta. rewrite He.
  apply does_first.
  { apply does_last.
    - eexists. split; [apply UpdateRepo_empty; exact Hg|].
      cbn [world queue]. split; [apply sameBase_refl|]. split; [|reflexivity].
      now rewrite writes_app_call.
    - intros st1 _. apply does_quiet, quiet_reportEdits. }
  intros st1 B1.
  apply does_then; [now apply ensureTopics_inSync|].
  intros st2 B2.
  assert (B : sameBase (world st) (world st2)).
  { cbn [world] in B1. eapply sameBase_trans; eassumption. }
  apply ensureProtectedBranches_inSync with g.
  - destruct B as (R & _). unfold sim.findRepo in *. cbn [world] in Hg. now rewrite R.
  - eapply Forall_impl; [|exact Hb]. intros b. apply branchInSync_sameBase. exact B.
Qed.

Lemma reposLoop_inSync org dryname : forall rs i (st : State),
  Forall (repoInSync (world st)) rs ->
  does (cmd.forEachAt i rs (fun ptr r =>
          cmd.println ;;
          print (report.Header (gh_pb.Repository.Name r)) ;;
          cmd.println ;;
          cmd.ensureRepo (gh_pb.Organization.Name org) ptr r false)) st
       (reapplied (gh_pb.Organization.mk (gh_pb.Organization.Name org) dryname rs)).
Proof.
  induction rs as [|r rs IH]; intros i st Hrs.
  - apply does_quiet, quiet_ret.
  - inversion Hrs as [|? ? Hr Hrest]; subst.
    cbn [cmd.forEachAt]. unfold reapplied. cbn [flat_map gh_pb.Organization.Repositories].
    apply does_bind.
    + unfold cmd.println.
      do 3 (apply does_quiet_then; [apply quiet_print|intros ? ?]).
      apply ensureRepo_inSync. congruence.
    + intros st1 B1. apply IH.
      eapply Forall_impl; [|exact Hrest]. intros r'. now apply repoInSync_sameBase.
Qed.
End Idempotence.

Section Members.
Context {P : Provider}.

Lemma managedMember_spec people p :
  loginKnown p ->
  cmd.managedMember people p = Some (inManifest people (github.User.GetLogin p)).
Proof.
  unfold loginKnown, inManifest, github.User.GetLogin.
  destruct (github.User.Login p) as [login|] eqn:El; [intros _|congruence]. simpl.
  induction people as [|mm people IH]; simpl; [reflexivity|]. rewrite El.
  destruct (strings.EqualFold _ login); [reflexivity|exact IH].
Qed.

Lemma foundIn_spec mm ps :
  Forall loginKnown ps -> cmd.foundIn mm ps = Some (inRemote ps mm).
Proof.
  unfold inRemote. induction 1 as [|gm ps Hgm _ IH]; simpl; [reflexivity|].
  unfold loginKnown in Hgm. unfold github.User.GetLogin at 1.
  destruct (github.User.Login gm) as [login|] eqn:El; [|congruence]. simpl.
  destruct (strings.EqualFold _ login); [reflexivity|exact IH].
Qed.

Lemma missingMembers_loop_spec ps : Forall loginKnown ps ->
  forall people missing,
    cmd.missingMembers_loop people ps missing = Some (missing ++ toInvite people ps).
Proof.
  intros Hps. induction people as [|mm people IH]; intros missing; simpl.
  - now rewrite app_nil_r.
  - rewrite (foundIn_spec mm ps Hps). rewrite IH.
    destruct (inRemote ps mm); simpl; [reflexivity|].
    now rewrite <- app_assoc.
Qed.

Lemma missingMembers_spec people ps :
  Forall loginKnown ps -> cmd.missingMembers people ps = Some (toInvite people ps).
Proof. intros H. unfold cmd.missingMembers. now rewrite missingMembers_loop_spec. Qed.

(** A loop whose body only prints and queues. *)
Lemma forEach_prints {A} (body : A -> M unit) (lines : A -> list report.Line)
      (intents : A -> list (string * string)) l :
  (forall x, In x l -> forall st, body x st =
     (Ok tt, mkState (world st) (calls st) (output st ++ lines x) (manifest st)
                     (queue st ++ intents x))) ->
  forall st, cmd.forEach l body st =
     (Ok tt, mkState (world st) (calls st) (output st ++ flat_map lines l) (manifest st)
                     (queue st ++ flat_map intents l)).
Proof.
  induction l as [|x l IH]; intros Hb st; simpl.
  - rewrite !app_nil_r. now destruct st.
  - unfold bind. rewrite Hb by now left. rewrite IH by (intros; apply Hb; now right).
    simpl. now rewrite <- !app_assoc.
Qed.

Lemma inviteMembers_spec org dry members st :
  cmd.inviteMembers org members dry st =
    (Ok tt, mkState (world st) (calls st)
                    (output st ++ flat_map (inviteLines dry) members) (manifest st)
                    (queue st ++ flat_map (entriesQueued org dry) members)).
Proof.
  unfold cmd.inviteMembers. apply forEach_prints. intros m _ s.
  destruct dry;
    unfold inviteLines, entriesQueued, clt.InviteMember, clt.Add, cmd.println,
           bind, print, enqueue;
    cbn [world calls output manifest queue];
    rewrite ?app_nil_r, <- ?app_assoc; reflexivity.
Qed.

(** The run of [membersRun] when the member listing succeeds. *)
Lemma membersRun_spec dry st :
  let org := manifest st in
  let people := gh_pb.Organization.People org in
  let rq := github.Organizations_ListMembers (gh_pb.Organization.Name org) in
  let a := fst (roundTrip (world st) rq) in
  let ps := github.asUsers (github.payload a) in
  github.err a = None -> Forall loginKnown ps ->
  cmd.membersRun dry st =
    (Ok tt,
     mkState (snd (roundTrip (world st) rq)) (calls st ++ [(rq, a)])
             (output st
              ++ [report.Newline; report.Header "Members"; report.Newline]
              ++ flat_map (memberLines people) ps
              ++ flat_map (inviteLines dry) (toInvite people ps))
             (manifest st)
             (queue st ++ flat_map (entriesQueued (gh_pb.Organization.Name org) dry)
                                   (toInvite people ps))).
Proof.
  intros org people rq a ps Herr Hps.
  unfold cmd.membersRun, cmd.println, clt.GetMembers.
  unfold bind at 1. cbn [getManifest]. fold org.
  unfold bind at 1. cbn [print].
  unfold bind at 1. cbn [print].
  unfold bind at 1. cbn [print].
  unfold bind at 1. unfold bind at 1. rewrite call_run. cbn [world fst snd].
  fold rq. fold a. rewrite Herr. cbn [ret]. fold ps. fold people.
  unfold bind at 1.
  rewrite (forEach_prints _ (memberLines people) (fun _ => [])).
  - unfold bind at 1. rewrite (missingMembers_spec people ps Hps). cbn [cmd.orPanic ret].
    rewrite inviteMembers_spec. cbn [world calls output manifest queue].
    assert (Hnil : flat_map (fun _ : github.User.t => @nil (string * string)) ps = [])
      by (clear; induction ps; simpl; auto).
    rewrite Hnil, app_nil_r, <- !app_assoc. reflexivity.
  - intros p Hp s. unfold bind, memberLines.
    rewrite (managedMember_spec people p)
      by (rewrite Forall_forall in Hps; apply Hps; assumption).
    cbn [cmd.orPanic ret].
    destruct (inManifest people (github.User.GetLogin p));
      cbn [negb]; unfold print; cbn [world calls output manifest queue];
      rewrite ?app_nil_r, <- ?app_assoc; reflexivity.
Qed.
End Members.

Section IdempotenceTop.
Existing Instance sim.github_com.

Lemma inRemote_sim ms mm :
  inRemote (map simUser ms) mm = existsb (strings.EqualFold (gh_pb.People.Username mm)) ms.
Proof. unfold inRemote. induction ms as [|m ms IH]; simpl; [reflexivity|]. now rewrite IH. Qed.

Lemma loginKnown_sim ms : Forall loginKnown (map simUser ms).
Proof. apply Forall_forall. intros p Hp. apply in_map_iff in Hp as (l & <- & _). discriminate. Qed.

Lemma toInvite_none w org :
  membersMatch w org = true ->
  toInvite (gh_pb.Organization.People org) (map simUser (sim.members w)) = [].
Proof.
  unfold membersMatch, toInvite. induction (gh_pb.Organization.People org) as [|mm people IH];
    simpl; [reflexivity|].
  intros H. apply andb_true_iff in H as [Hmm Hrest].
  rewrite inRemote_sim, Hmm. simpl. now apply IH.
Qed.

Lemma membersRun_matching w org (st : State) :
  world st = w -> manifest st = org -> membersMatch w org = true ->
  exists st', cmd.membersRun false st = (Ok tt, st') /\ world st' = w /\
              manifest st' = org /\ writes st' = writes st /\ queue st' = queue st.
Proof.
  intros Hw Hm Hmatch.
  pose proof (membersRun_spec false st) as Hrun. cbv zeta in Hrun.
  rewrite Hm, Hw in Hrun. cbn [roundTrip sim.github_com sim.serve fst snd] in Hrun.
  cbn [sim.ok github.err github.payload github.asUsers] in Hrun.
  change (map (fun l => github.User.mk (Some l) None None None) (sim.members w))
    with (map simUser (sim.members w)) in Hrun.
  rewrite (toInvite_none w org Hmatch) in Hrun.
  specialize (Hrun eq_refl (loginKnown_sim _)).
  eexists. split; [exact Hrun|]. cbn [world manifest queue flat_map].
  split; [reflexivity|]. split; [reflexivity|].
  split; [now rewrite writes_app_call, app_nil_r|now rewrite app_nil_r].
Qed.

Lemma reposRun_matching w org (st : State) :
  world st = w -> manifest st = org ->
  forallb (repoMatches w) (gh_pb.Organization.Repositories org) = true ->
  does (cmd.reposRun false) st (reapplied org).
Proof.
  intros Hw Hm Hmatch. unfold cmd.reposRun.
  eapply does_after; [reflexivity|reflexivity|reflexivity|reflexivity|].
  rewrite Hm. unfold cmd.println.
  do 3 (apply does_quiet_then; [apply quiet_print|intros ? ?]).
  destruct org as [name people rs]. cbn [gh_pb.Organization.Repositories].
  apply (reposLoop_inSync (gh_pb.Organization.mk name people rs) people rs).
  apply Forall_forall. intros r Hr. apply repoMatches_inSync.
  cbn [gh_pb.Organization.Repositories] in Hmatch.
  rewrite forallb_forall in Hmatch.
  replace (world st2) with w by congruence. now apply Hmatch.
Qed.

End IdempotenceTop.

Section PaginationTop.
Existing Instance sim.github_com.

Lemma length_pageNumbers k i : List.length (pageNumbers k i) = k.
Proof. revert i. induction k; intros; simpl; auto. Qed.

Lemma listing_only w name pns :
  filter isListing (probes w name ++ map (listing w name) pns) = map (listing w name) pns.
Proof.
  rewrite filter_app.
  assert (Hp : filter isListing (probes w name) = [])
    by (unfold probes; now destruct (sim.kind w)).
  rewrite Hp. cbn [app].
  induction pns as [|p pns IH]; [reflexivity|].
  cbn [map filter]. rewrite IH. unfold listing. now destruct (sim.kind w).
Qed.

(** The part of [GetRepos] before the loop. *)
Lemma GetRepos_probe w name fuel (st : State) :
  world st = w ->
  exists st1,
    world st1 = w /\ requests st1 = requests st ++ probes w name /\
    clt.GetRepos fuel name st =
      (if (accountCount w <? 1)%Z then (Error client.ErrNoReposFound, st1)
       else clt.GetRepos_loop fuel name
              (match sim.kind w with sim.OrgAccount => true | sim.UserAccount => false end)
              0 [] st1).
Proof.
  intros Hw. unfold clt.GetRepos, probes, accountCount.
  unfold bind at 1. rewrite sim_call, Hw. cbn [sim.serve].
  destruct (sim.kind w) eqn:Ek; cbn [fst snd sim.ok sim.failed github.resp github.err].
  - unfold bind at 1. cbn [StatusCode ret github.Response.StatusCode].
    change (200 =? http.StatusNotFound)%Z with false. cbv iota.
    unfold bind at 1. cbn [ret github.payload github.asOrganization
                           github.Organization.GetPublicRepos
                           github.Organization.GetTotalPrivateRepos
                           github.Organization.PublicRepos
                           github.Organization.TotalPrivateRepos github.orZero].
    match goal with |- exists st1, _ /\ _ /\ _ ?s = _ => exists s end.
    split; [reflexivity|]. split; [now rewrite requests_app_call|].
    now destruct (_ <? 1)%Z.
  - cbn [StatusCode]. unfold bind at 1. cbn [ret github.Response.StatusCode].
    change (404 =? http.StatusNotFound)%Z with true. cbv iota.
    unfold bind at 1. unfold bind at 1. rewrite sim_call. cbn [world sim.serve].
    rewrite Ek. cbn [fst snd sim.ok github.err github.payload github.asUser ret
                     github.User.GetPublicRepos github.User.GetTotalPrivateRepos
                     sim.account github.User.PublicRepos github.User.TotalPrivateRepos
                     github.orZero].
    match goal with |- exists st1, _ /\ _ /\ _ ?s = _ => exists s end.
    split; [reflexivity|].
    split; [rewrite !requests_app_call, <- app_assoc; reflexivity|].
    now destruct (_ <? 1)%Z.
Qed.

End PaginationTop.

Section ClaimsSupport.
Context {P : Provider}.

Lemma guarded_extends {A} (m : M A) st :
  guarded m -> exists l, requests (snd (m st)) = requests st ++ l.
Proof.
  intros H. destruct (H st) as (l & Hl & _). exists (map fst l).
  unfold requests. now rewrite Hl, map_app.
Qed.

(** The update call of [ensureRepo] carries the patch [edits]. *)
Lemma ensureRepo_sends_edits org ptr repo g st :
  let a := fst (roundTrip (world st) (github.Repositories_Get org (gh_pb.Repository.Name repo))) in
  github.err a = None -> github.asRepository (github.payload a) = Some g ->
  exists l,
    requests (snd (cmd.ensureRepo org ptr repo false st)) =
      requests st ++
      [github.Repositories_Get org (gh_pb.Repository.Name repo);
       github.Repositories_Edit org (gh_pb.Repository.Name repo) (cmd.edits repo (Some g))]
      ++ l.
Proof.
  intros a Herr Hpay. unfold cmd.ensureRepo.
  unfold bind at 1. unfold attempt, clt.GetRepo. unfold bind at 1.
  rewrite call_run. fold a. unfold clt.classify. rewrite Herr, Hpay.
  cbn [ret]. unfold bind at 1. cbn [ret]. cbv zeta.
  unfold bind at 1. unfold bind at 1. unfold clt.UpdateRepo, clt.write. unfold bind at 1.
  rewrite call_run.
  set (b := fst (roundTrip _ (github.Repositories_Edit _ _ _))).
  set (st2 := mkState _ (_ ++ [(github.Repositories_Edit _ _ _, b)]) _ _ _).
  assert (Hst2 : requests st2 = requests st ++
            [github.Repositories_Get org (gh_pb.Repository.Name repo);
             github.Repositories_Edit org (gh_pb.Repository.Name repo)
                                      (cmd.edits repo (Some g))]).
  { unfold st2. rewrite !requests_app_call, <- app_assoc. reflexivity. }
  cbn [fst snd].
  destruct (github.err b) as [e|].
  - exists []. rewrite app_nil_r.
    destruct (github.isRateLimitError e); exact Hst2.
  - cbn [ret].
    destruct (guarded_extends
                (bind (cmd.reportEdits "updated" (cmd.edits repo (Some g)))
                      (fun _ => bind (cmd.ensureTopics org ptr repo (Some g) false)
                                     (fun _ => cmd.ensureProtectedBranches org repo (Some g) false)))
                st2) as (l & Hl).
    { apply guarded_bind; [apply guarded_reportEdits|intros _].
      apply guarded_bind; [apply guarded_ensureTopics|intros _].
      apply guarded_ensureProtectedBranches. }
    exists l. rewrite app_assoc, <- Hst2, <- Hl. reflexivity.
Qed.

End ClaimsSupport.

(* ------------------------------------------------------------------ *)
(** * The claims *)

Section OnTheSimulatedRemote.
Existing Instance sim.github_com.

(** Claim C1 as stated fails: on a remote that matches the manifest, the
    apply run still issues write calls. *)
Lemma apply_on_synced_remote_writes :
  matches example.syncedRemote example.syncedManifest = true /\
  writes (snd (cmd.applyRun noTeams (sim.start example.syncedRemote example.syncedManifest)))
  <> [].
Proof. split; [vm_compute; reflexivity|vm_compute; discriminate]. Qed.

(** Claim C1, amended.  When the remote already matches every field the
    manifest sets, an apply run (members, then repositories; the team step
    does nothing) succeeds; it issues no repository creation, no
    set-topics call, no signed-commit call and no invitation.  The writes
    it does issue are, for each manifest repository in order, one
    repository update whose patch is empty, followed by one
    branch-protection update for each protected branch the manifest
    declares. *)
Theorem apply_reissues_only_empty_patch_and_protection w org :
  matches w org = true ->
  exists st',
    cmd.applyRun noTeams (sim.start w org) = (Ok tt, st') /\
    writes st' = reapplied org /\ queue st' = [].
Proof.
  intros H. apply andb_true_iff in H as [Hmem Hrepos].
  unfold cmd.applyRun, cmd.println.
  unfold bind at 1. cbn [print].
  unfold bind at 1. cbn [print].
  match goal with |- context [bind (cmd.membersRun false) _ ?s] =>
    destruct (membersRun_matching w org s eq_refl eq_refl Hmem)
      as (st1 & E1 & W1 & M1 & Wr1 & Q1) end.
  unfold bind at 1. rewrite E1.
  unfold bind at 1. cbn [noTeams ret].
  destruct (reposRun_matching w org st1 W1 M1 Hrepos) as (st2 & E2 & B2 & W2 & Q2).
  exists st2. split; [exact E2|]. split.
  - rewrite W2, Wr1. reflexivity.
  - rewrite Q2, Q1. reflexivity.
Qed.

Lemma apply_reissues_witness :
  matches example.syncedRemote example.syncedManifest = true /\
  exists st',
    cmd.applyRun noTeams (sim.start example.syncedRemote example.syncedManifest) = (Ok tt, st') /\
    writes st' = reapplied example.syncedManifest /\ queue st' = [].
Proof.
  split; [vm_compute; reflexivity|].
  apply (apply_reissues_only_empty_patch_and_protection
           example.syncedRemote example.syncedManifest).
  vm_compute; reflexivity.
Defined.

(** Claim C2 at a failing input.  The manifest protects branch main of
    repository site and requires signed commits on it; the remote has the
    repository but no protection on main.  The dry run reports the planned
    creation and then fails with [ErrBranchProtectionNotFound], because
    [ensureSignedCommits] reads a protection that the dry run did not
    create; the apply run creates the protection, reads it back and goes
    on to require signed commits.  The two reports differ in length, and
    their creation lines differ in marker ([Add] against [Warn]) as well
    as in tense. *)
Theorem dry_run_aborts_where_apply_proceeds :
  let st := sim.start example.unprotectedRemote example.signedManifest in
  cmd.reposRun true st <> cmd.reposRun false st /\
  fst (cmd.reposRun true st) = Error client.ErrBranchProtectionNotFound /\
  output (snd (cmd.reposRun true st)) =
    [report.Newline; report.Header "Repos"; report.Newline;
     report.Newline; report.Header "site"; report.Newline;
     report.Add "create protected branch main for repo site"; report.Newline] /\
  fst (cmd.reposRun false st) = Ok tt /\
  output (snd (cmd.reposRun false st)) =
    [report.Newline; report.Header "Repos"; report.Newline;
     report.Newline; report.Header "site"; report.Newline;
     report.Warn "created protected branch main for repo site"; report.Newline;
     report.Add "updated require signed commits to 'true'"; report.Newline].
Proof.
  cbv zeta. split; [|repeat split; vm_compute; reflexivity].
  intros H. apply (f_equal fst) in H. vm_compute in H. discriminate.
Qed.

(** Claim C4 at a failing input.  The manifest repository site, with
    description x, does not exist remotely.  The apply run creates it and
    then, because [ensureRepo] keeps the nil repository of the failed
    lookup as current state, computes a patch that is not empty and sends
    it in a second call.  With a non-empty label list the same path ends
    in a nil dereference in [ensureTopics]. *)
Theorem created_repo_is_patched_again :
  let st := sim.start example.emptyRemote (gh_pb.Organization.mk "acme" [] [example.described]) in
  requests (snd (cmd.ensureRepo "acme" 0 example.described false st)) =
    [github.Repositories_Get "acme" "site";
     github.Repositories_Create "acme" (cmd.createState example.described);
     github.Repositories_Edit "acme" "site"
       (github.Repository.mk None (Some "x") None None None [])] /\
  cmd.edits example.described None <> github.Repository.empty /\
  fst (cmd.ensureRepo "acme" 0 example.describedLabelled false
         (sim.start example.emptyRemote
                    (gh_pb.Organization.mk "acme" [] [example.describedLabelled]))) = Panic.
Proof. cbv zeta. repeat split; vm_compute; try reflexivity. discriminate. Qed.

(** Claim C9 at a failing input.  The manifest lists the labels b, a of
    repository site, the remote has the topics a, b.  After
    reconciliation, dry run or apply, the manifest in memory lists a, b:
    [ensureTopics] sorted the manifest's own slice. *)
Theorem reposRun_sorts_manifest_labels :
  let st := sim.start example.topicsRemote example.unsortedManifest in
  manifest st = example.unsortedManifest /\
  manifest (snd (cmd.reposRun true st)) = example.sortedManifest /\
  manifest (snd (cmd.reposRun false st)) = example.sortedManifest /\
  example.sortedManifest <> example.unsortedManifest.
Proof. cbv zeta. repeat split; vm_compute; try reflexivity. discriminate. Qed.

(** Claim C5 as stated fails: the empty label list and the topics a, b
    differ as multisets, and the apply run issues no call. *)
Lemma empty_labels_never_set_topics :
  let st := sim.start example.topicsRemote (gh_pb.Organization.mk "acme" [] [example.labelled []]) in
  ~ Permutation (gh_pb.Repository.Labels (example.labelled []))
                (github.Repository.Topics (example.tagged ["a"; "b"])) /\
  requests (snd (cmd.ensureTopics "acme" 0 (example.labelled [])
                                  (Some (example.tagged ["a"; "b"])) false st)) = [].
Proof.
  cbv zeta. split; [|vm_compute; reflexivity].
  intros H. apply Permutation_nil in H. discriminate.
Qed.

(** Claim C6.  Against an account whose listing holds [n] repositories,
    archived or not, [GetRepos] with enough fuel returns exactly the
    repositories that are not archived, in listing order; it makes
    [ceil(n/100)] listing calls, for the pages 0, 2, 3, ... up to the page
    after which the remote reports no next page.  If the public and private
    counts of the account add up to less than one, it returns
    [ErrNoReposFound] after the probes, without any listing call. *)
Theorem GetRepos_pagination (w : sim.Remote) (org : gh_pb.Organization.t)
        (name : string) (fuel : nat) :
  let n := List.length (sim.repos w) in
  let run := clt.GetRepos fuel name (sim.start w org) in
  ((1 <= accountCount w)%Z -> (1 <= n)%nat -> (pagesOf n <= fuel)%nat ->
     fst run = Ok (filter notArchived (sim.repos w)) /\
     requests (snd run)
     = probes w name ++ map (listing w name) (pageNumbers (pagesOf n) 0) /\
     List.length (filter isListing (requests (snd run))) = pagesOf n)
  /\
  ((accountCount w < 1)%Z ->
     fst run = Error client.ErrNoReposFound /\
     requests (snd run) = probes w name /\
     filter isListing (requests (snd run)) = []).
Proof.
  intros n run.
  destruct (GetRepos_probe w name fuel (sim.start w org) eq_refl)
    as (st1 & W1 & R1 & Erun).
  change (requests (sim.start w org)) with (@nil github.Request) in R1.
  cbn [app] in R1. fold run in Erun.
  split.
  - intros Hcount Hn Hfuel.
    assert (Hc : (accountCount w <? 1)%Z = false) by (apply Z.ltb_ge; lia).
    rewrite Hc in Erun.
    destruct (GetRepos_loop_spec w name fuel 0 [] st1 W1) as (st2 & E2 & W2 & R2).
    { now right. }
    { fold n. pose proof (proj2 (pagesOf_spec n _) eq_refl). lia. }
    change (pageNumber 0) with 0%Z in E2.
    rewrite E2 in Erun. rewrite Erun. cbn [fst snd app skipn Nat.mul].
    assert (Hk : (Nat.max 1 (pagesOf n) - 0 = pagesOf n)%nat).
    { pose proof (proj2 (pagesOf_spec n _) eq_refl). lia. }
    fold n in R2. rewrite Hk, R1 in R2.
    split; [reflexivity|]. split; [exact R2|].
    rewrite R2, listing_only, length_map. apply length_pageNumbers.
  - intros Hcount.
    assert (Hc : (accountCount w <? 1)%Z = true) by (apply Z.ltb_lt; lia).
    rewrite Hc in Erun. rewrite Erun. cbn [fst snd].
    split; [reflexivity|]. split; [exact R1|].
    rewrite R1. unfold probes. now destruct (sim.kind w).
Qed.

End OnTheSimulatedRemote.

Lemma GetRepos_pagination_witness :
  let run := clt.GetRepos 3 "acme" (sim.start example.bigRemote example.membersManifest) in
  (1 <= accountCount example.bigRemote)%Z /\
  pagesOf (List.length (sim.repos example.bigRemote)) = 3 /\
  fst run = Ok (filter notArchived (sim.repos example.bigRemote)) /\
  List.length (filter isListing (requests (snd run))) = 3.
Proof.
  intros run.
  assert (Hc : (1 <= accountCount example.bigRemote)%Z) by (vm_compute; discriminate).
  assert (Hk : pagesOf (List.length (sim.repos example.bigRemote)) = 3) by reflexivity.
  split; [exact Hc|]. split; [exact Hk|].
  destruct (GetRepos_pagination example.bigRemote example.membersManifest "acme" 3)
    as [H _].
  destruct H as (Hres & _ & Hlen); [exact Hc| |rewrite Hk; apply le_n|].
  - vm_compute. apply Nat.leb_le. reflexivity.
  - split; [exact Hres|exact (eq_trans Hlen Hk)].
Defined.

Section OnAnyRemote.
Context {P : Provider}.

(** Claim C3.  The patch [edits] that [ensureRepo] computes sets the
    description (resp. the default branch) exactly when the manifest sets
    it and it differs from the remote value up to case, and sets archived
    (resp. private) exactly when the manifest sets it and it differs from the
    remote value; it sets nothing else, so a field the manifest leaves unset
    is never in the patch.  In particular, when only the description
    differs, the patch is the description alone.  In an apply run on an
    existing repository, the update call carries exactly this patch. *)
Theorem edits_minimal (repo : gh_pb.Repository.t) (ghr : option github.Repository.t) :
  let e := cmd.edits repo ghr in
  (forall d, github.Repository.Description e = Some d <->
             gh_pb.Repository.Description repo = Some d /\
             strings.EqualFold (github.Repository.GetDescription ghr) d = false) /\
  (forall a, github.Repository.Archived e = Some a <->
             gh_pb.Repository.Archived repo = Some a /\
             github.Repository.GetArchived ghr <> a) /\
  (forall p, github.Repository.Private e = Some p <->
             gh_pb.Repository.Private repo = Some p /\
             github.Repository.GetPrivate ghr <> p) /\
  (forall b, github.Repository.DefaultBranch e = Some b <->
             gh_pb.Repository.DefaultBranch repo = Some b /\
             strings.EqualFold (github.Repository.GetDefaultBranch ghr) b = false) /\
  github.Repository.Name e = None /\ github.Repository.Topics e = [] /\
  (forall d,
      gh_pb.Repository.Description repo = Some d ->
      strings.EqualFold (github.Repository.GetDescription ghr) d = false ->
      whenSet (gh_pb.Repository.Archived repo)
              (Bool.eqb (github.Repository.GetArchived ghr)) = true ->
      whenSet (gh_pb.Repository.Private repo)
              (Bool.eqb (github.Repository.GetPrivate ghr)) = true ->
      whenSet (gh_pb.Repository.DefaultBranch repo)
              (strings.EqualFold (github.Repository.GetDefaultBranch ghr)) = true ->
      e = github.Repository.mk None (Some d) None None None []) /\
  (forall org ptr st g,
      ghr = Some g ->
      github.err (fst (roundTrip (world st)
                         (github.Repositories_Get org (gh_pb.Repository.Name repo)))) = None ->
      github.asRepository
        (github.payload (fst (roundTrip (world st)
                                (github.Repositories_Get org (gh_pb.Repository.Name repo)))))
      = Some g ->
      exists l,
        requests (snd (cmd.ensureRepo org ptr repo false st)) =
          requests st ++
          [github.Repositories_Get org (gh_pb.Repository.Name repo);
           github.Repositories_Edit org (gh_pb.Repository.Name repo) e] ++ l).
Proof.
  intros e. unfold e, cmd.edits. cbn [github.Repository.Description github.Repository.Archived
    github.Repository.Private github.Repository.DefaultBranch github.Repository.Name
    github.Repository.Topics].
  split; [|split; [|split; [|split; [|split; [|split; [|split]]]]]]; try reflexivity.
  - intros d. destruct (gh_pb.Repository.Description repo) as [d'|]; [|split; [|intros []]; discriminate].
    destruct (strings.EqualFold _ d') eqn:E; cbn [negb]; split.
    + discriminate.
    + intros [[= ->] H]. congruence.
    + intros [= ->]. auto.
    + intros [H _]. exact H.
  - intros a. destruct (gh_pb.Repository.Archived repo) as [a'|]; [|split; [|intros []]; discriminate].
    destruct (Bool.eqb_spec (github.Repository.GetArchived ghr) a') as [E|E]; cbn [negb]; split.
    + discriminate.
    + intros [[= ->] H]. congruence.
    + intros [= ->]. auto.
    + intros [H _]. exact H.
  - intros p. destruct (gh_pb.Repository.Private repo) as [p'|]; [|split; [|intros []]; discriminate].
    destruct (Bool.eqb_spec (github.Repository.GetPrivate ghr) p') as [E|E]; cbn [negb]; split.
    + discriminate.
    + intros [[= ->] H]. congruence.
    + intros [= ->]. auto.
    + intros [H _]. exact H.
  - intros b. destruct (gh_pb.Repository.DefaultBranch repo) as [b'|]; [|split; [|intros []]; discriminate].
    destruct (strings.EqualFold _ b') eqn:E; cbn [negb]; split.
    + discriminate.
    + intros [[= ->] H]. congruence.
    + intros [= ->]. auto.
    + intros [H _]. exact H.
  - intros d Hd Hne Ha Hp Hb. rewrite Hd, Hne. cbn [negb].
    destruct (gh_pb.Repository.Archived repo), (gh_pb.Repository.Private repo),
      (gh_pb.Repository.DefaultBranch repo); cbn [whenSet] in *;
      rewrite ?Ha, ?Hp, ?Hb; reflexivity.
  - intros org ptr st g -> Herr Hpay.
    exact (ensureRepo_sends_edits org ptr repo g st Herr Hpay).
Qed.

(** Claim C5, amended.  For a repository whose remote object is present:
    when the manifest labels and the remote topics are equal as multisets,
    topic reconciliation succeeds and issues no call, in a dry run and in an
    apply run; when they differ as multisets and the label list is not
    empty, the apply run issues exactly one replace-all-topics call, which
    carries the manifest labels in sorted order, and the dry run issues
    none. *)
Theorem ensureTopics_order_independent org ptr repo g st :
  let labels := gh_pb.Repository.Labels repo in
  let topics := github.Repository.Topics g in
  (Permutation labels topics ->
   forall dry,
     fst (cmd.ensureTopics org ptr repo (Some g) dry st) = Ok tt /\
     requests (snd (cmd.ensureTopics org ptr repo (Some g) dry st)) = requests st) /\
  (~ Permutation labels topics -> labels <> [] ->
     requests (snd (cmd.ensureTopics org ptr repo (Some g) false st))
     = requests st ++ [github.Repositories_ReplaceAllTopics
                         org (gh_pb.Repository.Name repo) (slices.Sort labels)] /\
     requests (snd (cmd.ensureTopics org ptr repo (Some g) true st)) = requests st).
Proof.
  intros labels topics. split.
  - intros Hp dry. unfold cmd.ensureTopics. fold labels topics.
    destruct labels as [|x labels'] eqn:El; simpl; [now split|].
    assert (Heq : slices.Equal (slices.Sort topics) (slices.insert x (slices.Sort labels')) = true).
    { apply slices_Equal_eq. change (slices.Sort topics = slices.Sort (x :: labels')).
      apply Sort_eq_iff_perm. now symmetry. }
    unfold bind; simpl. rewrite Heq. simpl. now split.
  - intros Hnp Hne. unfold cmd.ensureTopics. fold labels topics.
    destruct labels as [|x labels'] eqn:El; [congruence|]. simpl.
    assert (Heq : slices.Equal (slices.Sort topics) (slices.insert x (slices.Sort labels')) = false).
    { apply not_true_is_false. intros H. apply slices_Equal_eq in H.
      change (slices.Sort topics = slices.Sort (x :: labels')) in H.
      apply Sort_eq_iff_perm in H. apply Hnp. now symmetry. }
    unfold bind at 1 3. simpl. rewrite Heq. simpl. split; [|reflexivity].
    unfold clt.SetRepoTopics, bind.
    match goal with |- context [clt.write ?rq ?f ?s] =>
      pose proof (write_requests rq f s) as Hw; destruct (clt.write rq f s) as [[[]|e| |] s'] end;
      simpl in *; exact Hw.
Qed.

(** Claim C10.  When the label list of the manifest repository is empty,
    [ensureTopics] returns at once: no call, no report, no change of the
    manifest, whatever the remote repository is (even nil) and whatever
    its topics are, in a dry run and in an apply run. *)
Theorem ensureTopics_empty_labels org ptr repo ghr dry (st : State) :
  gh_pb.Repository.Labels repo = [] ->
  cmd.ensureTopics org ptr repo ghr dry st = (Ok tt, st).
Proof. intros H. unfold cmd.ensureTopics. now rewrite H. Qed.

End OnAnyRemote.

(** Claim C7 at a failing input.  The remote answers the organization
    probe of [GetRepos] with a rate-limit signal, which arrives with its
    403 response.  The probe tests the error only when the response is nil:
    the code goes on with the nil organization, counts no repository and
    returns [ErrNoReposFound], the benign no-repositories signal, after
    this one call; the error does not say that the rate limit was hit.  On
    the same remote [GetRepo] returns the rate-limit error, and so does
    [GetRepos] itself when the signal answers a listing call. *)
Theorem rate_limited_probe_reports_no_repositories :
  let st := mkState (P := throttled) tt [] [] example.membersManifest [] in
  let st' := mkState (P := throttledAfterProbe) tt [] [] example.membersManifest [] in
  rateLimited throttledAnswer = true /\
  (forall fuel,
     fst (clt.GetRepos fuel "acme" st) = Error client.ErrNoReposFound /\
     requests (snd (clt.GetRepos fuel "acme" st)) = [github.Organizations_Get "acme"]) /\
  recoverable client.ErrNoReposFound = true /\
  client.ErrNoReposFound <> clt.hitRateLimit /\
  fst (clt.GetRepo "acme" "site" st) = Error clt.hitRateLimit /\
  (forall fuel, fst (clt.GetRepos (S fuel) "acme" st') = Error clt.hitRateLimit).
Proof.
  cbv zeta. split; [reflexivity|]. split; [intros fuel; split; reflexivity|].
  split; [reflexivity|]. split; [discriminate|]. split; [reflexivity|].
  intros fuel. reflexivity.
Qed.

(** Claim C8 at a failing input.  The manifest lists Alice Smith, whose
    username is asmith, and Bob; the remote has the members bob and carol.
    The diff is right: Alice Smith is the one member to invite.  But
    [inviteMembers] hands her display name to [InviteMember], whose
    parameter is the username to look up: the work list holds the entry
    for Alice Smith and none for asmith.  When that entry is run, the user
    lookup is answered not-found and no invitation is issued, where the
    entry for asmith would have invited the user 7. *)
Theorem invitation_is_queued_under_the_display_name :
  let st := sim.start example.namesRemote example.namesManifest in
  let st' := snd (cmd.membersRun false st) in
  cmd.missingMembers (gh_pb.Organization.People example.namesManifest)
                     (map simUser (sim.members example.namesRemote))
  = Some [example.smith] /\
  fst (cmd.membersRun false st) = Ok tt /\
  queue st' = [("acme", "Alice Smith")] /\
  invitationsDue "acme" [example.smith] = [("acme", "asmith")] /\
  queue st' <> invitationsDue "acme" [example.smith] /\
  fst (clt.inviteTask "acme" "Alice Smith" st') = Error client.ErrUserNotFound /\
  writes (snd (clt.inviteTask "acme" "Alice Smith" st')) = [] /\
  writes (snd (clt.inviteTask "acme" "asmith" st'))
  = [github.Organizations_CreateOrgInvitation "acme" (Some 7%Z)].
Proof.
  cbv zeta. repeat split; try reflexivity. discriminate.
Qed.

Lemma edits_minimal_witness :
  let repo := gh_pb.Repository.mk "site" (Some "new") (Some false) None (Some "Main") [] [] in
  let ghr := Some (github.Repository.mk (Some "site") (Some "old") (Some false) (Some true)
                                        (Some "main") []) in
  cmd.edits repo ghr = github.Repository.mk None (Some "new") None None None [].
Proof.
  intros repo ghr.
  destruct (edits_minimal (P := sim.github_com) repo ghr) as (_ & _ & _ & _ & _ & _ & H & _).
  apply H; reflexivity.
Defined.

Lemma ensureTopics_order_independent_witness :
  let st := sim.start example.topicsRemote example.unsortedManifest in
  Permutation ["b"; "a"] ["a"; "b"] /\
  requests (snd (cmd.ensureTopics "acme" 0 (example.labelled ["b"; "a"])
                                  (Some (example.tagged ["a"; "b"])) false st)) = [] /\
  ~ Permutation ["b"; "a"] ["a"] /\
  requests (snd (cmd.ensureTopics "acme" 0 (example.labelled ["b"; "a"])
                                  (Some (example.tagged ["a"])) false st))
  = [github.Repositories_ReplaceAllTopics "acme" "site" ["a"; "b"]].
Proof.
  intros st.
  assert (Hp : Permutation ["b"; "a"] ["a"; "b"]) by apply perm_swap.
  assert (Hn : ~ Permutation ["b"; "a"] ["a"]).
  { intros H. apply Permutation_length in H. discriminate. }
  split; [exact Hp|]. split.
  - destruct (ensureTopics_order_independent (P := sim.github_com) "acme" 0
                (example.labelled ["b"; "a"]) (example.tagged ["a"; "b"]) st) as [H _].
    exact (proj2 (H Hp false)).
  - split; [exact Hn|].
    destruct (ensureTopics_order_independent (P := sim.github_com) "acme" 0
                (example.labelled ["b"; "a"]) (example.tagged ["a"]) st) as [_ H].
    apply H; [exact Hn|discriminate].
Defined.

Lemma ensureTopics_empty_labels_witness :
  let st := sim.start example.topicsRemote example.unsortedManifest in
  gh_pb.Repository.Labels (example.labelled []) = [] /\
  cmd.ensureTopics "acme" 0 (example.labelled []) (Some (example.tagged ["a"; "b"])) false st
  = (Ok tt, st).
Proof.
  intros st. split; [reflexivity|].
  apply (ensureTopics_empty_labels (P := sim.github_com)). reflexivity.
Defined.


(* ------------------------------------------------------------------ *)
(** * Further properties of the code *)

Section EffectFacts.
Context {P : Provider}.

Lemma bind_run {A B} (m : M A) (k : A -> M B) st :
  bind m k st =
    match fst (m st) with
    | Ok a => k a (snd (m st))
    | Error e => (Error e, snd (m st))
    | Panic => (Panic, snd (m st))
    | OutOfFuel => (OutOfFuel, snd (m st))
    end.
Proof. unfold bind. now destruct (m st) as [[a|e| |] st']. Qed.

(** *** Computations that make no call *)

Lemma noCalls_bind {A B} (m : M A) (k : A -> M B) :
  noCalls m -> (forall a, noCalls (k a)) -> noCalls (bind m k).
Proof.
  intros Hm Hk st. rewrite bind_run.
  destruct (fst (m st)); cbn [snd]; try apply Hm.
  rewrite Hk. apply Hm.
Qed.

Lemma noCalls_forEach {A} (l : list A) (body : A -> M unit) :
  (forall x, noCalls (body x)) -> noCalls (cmd.forEach l body).
Proof.
  intros Hb. induction l as [|x l IH]; simpl; [intros st; reflexivity|].
  apply noCalls_bind; auto.
Qed.

(** *** Computations that write nothing *)

Lemma neverWrites_silent {A} (m : M A) :
  (forall st, calls (snd (m st)) = calls st /\ queue (snd (m st)) = queue st) ->
  neverWrites m.
Proof.
  intros H st. destruct (H st) as [Hc Hq]. split; [|exact Hq].
  unfold writes, requests. now rewrite Hc.
Qed.

Lemma neverWrites_bind {A B} (m : M A) (k : A -> M B) :
  neverWrites m -> (forall a, neverWrites (k a)) -> neverWrites (bind m k).
Proof.
  intros Hm Hk st. rewrite bind_run. destruct (Hm st) as [Hw Hq].
  destruct (fst (m st)) as [a| | |]; cbn [snd]; try (split; assumption).
  destruct (Hk a (snd (m st))) as [Hw' Hq']. split; congruence.
Qed.

Lemma neverWrites_read rq : github.isWrite rq = false -> neverWrites (call rq).
Proof.
  intros H st. rewrite call_run. cbn [snd queue]. split; [|reflexivity].
  rewrite writes_app_call, H. apply app_nil_r.
Qed.

Lemma neverWrites_attempt {A} (m : M A) : neverWrites m -> neverWrites (attempt m).
Proof.
  intros H st. unfold attempt. specialize (H st).
  destruct (m st) as [[a|e| |] st']; exact H.
Qed.

Lemma neverWrites_forEach {A} (l : list A) (body : A -> M unit) :
  (forall x, neverWrites (body x)) -> neverWrites (cmd.forEach l body).
Proof.
  intros Hb. induction l as [|x l IH]; simpl.
  - apply neverWrites_silent. intros st. now split.
  - apply neverWrites_bind; auto.
Qed.

Lemma neverWrites_forEachAt {A} (l : list A) (body : nat -> A -> M unit) i :
  (forall i x, neverWrites (body i x)) -> neverWrites (cmd.forEachAt i l body).
Proof.
  intros Hb. revert i. induction l as [|x l IH]; intros i; simpl.
  - apply neverWrites_silent. intros st. now split.
  - apply neverWrites_bind; auto.
Qed.

End EffectFacts.

Ltac quietly := apply neverWrites_silent; intros; split; reflexivity.

Ltac readonly :=
  repeat first
    [ quietly
    | progress cbv zeta
    | apply neverWrites_read; reflexivity
    | apply neverWrites_forEach; intros ?
    | apply neverWrites_attempt
    | apply neverWrites_bind; [|intros ?]
    | match goal with
      | |- neverWrites (if ?b then _ else _) => destruct b
      | |- neverWrites (match ?x with _ => _ end) => destruct x
      | |- neverWrites (cmd.whenSome ?o _) => destruct o; simpl
      | |- neverWrites (StatusCode ?r) => destruct r; simpl
      | |- neverWrites (cmd.orPanic ?r) => destruct r; simpl
      end ].

Section DryRuns.
Context {P : Provider}.


Lemma neverWrites_classify {A} a nf format (v : A) : neverWrites (clt.classify a nf format v).
Proof. unfold clt.classify. readonly. Qed.

Lemma neverWrites_GetBranchProtection org repo branch :
  neverWrites (clt.GetBranchProtection org repo branch).
Proof.
  unfold clt.GetBranchProtection. apply neverWrites_bind.
  - now apply neverWrites_read.
  - intros a. apply neverWrites_classify.
Qed.

Lemma neverWrites_GetRepo org name : neverWrites (clt.GetRepo org name).
Proof.
  unfold clt.GetRepo. apply neverWrites_bind.
  - now apply neverWrites_read.
  - intros a. apply neverWrites_classify.
Qed.

Lemma neverWrites_GetMembers name : neverWrites (clt.GetMembers name).
Proof.
  unfold clt.GetMembers. apply neverWrites_bind.
  - now apply neverWrites_read.
  - intros a. readonly.
Qed.

Lemma neverWrites_reportProtection verb b : neverWrites (cmd.reportProtection verb b).
Proof. unfold cmd.reportProtection, cmd.println. readonly. Qed.

Lemma neverWrites_reportEdits verb e : neverWrites (cmd.reportEdits verb e).
Proof. unfold cmd.reportEdits, cmd.println. readonly. Qed.

Lemma neverWrites_reportState verb e : neverWrites (cmd.reportState verb e).
Proof. unfold cmd.reportState, cmd.println. readonly. Qed.

Lemma neverWrites_ensureSignedCommits org repo b :
  neverWrites (cmd.ensureSignedCommits org repo b true).
Proof.
  unfold cmd.ensureSignedCommits, cmd.println.
  destruct (gh_pb.Protection.SignedCommits _); [|quietly].
  apply neverWrites_bind; [apply neverWrites_GetBranchProtection|intros ghpb].
  destruct (negb _); readonly.
Qed.

Lemma neverWrites_ensureProtectedBranches org repo ghr :
  neverWrites (cmd.ensureProtectedBranches org repo ghr true).
Proof.
  unfold cmd.ensureProtectedBranches. apply neverWrites_forEach. intros pb.
  apply neverWrites_bind.
  - apply neverWrites_attempt, neverWrites_GetBranchProtection.
  - intros [p|e].
    + unfold cmd.UpdateBranchProtection, cmd.println. cbv zeta.
      repeat first [ apply neverWrites_reportProtection
                   | apply neverWrites_ensureSignedCommits | quietly
                   | apply neverWrites_bind; [|intros ?] ].
    + destruct (errors.Is e _); [|quietly].
      unfold cmd.createProtectedBranch, cmd.println. cbv zeta.
      repeat first [ apply neverWrites_reportProtection
                   | apply neverWrites_ensureSignedCommits | quietly
                   | apply neverWrites_bind; [|intros ?] ].
Qed.

Lemma neverWrites_ensureTopics org ptr repo ghr :
  neverWrites (cmd.ensureTopics org ptr repo ghr true).
Proof.
  unfold cmd.ensureTopics, cmd.println.
  destruct (_ =? 0)%nat; [quietly|]. destruct ghr; [|quietly]. cbv zeta.
  apply neverWrites_bind; [quietly|intros _]. destruct (negb _); readonly.
Qed.

Lemma neverWrites_ensureRepo org ptr repo : neverWrites (cmd.ensureRepo org ptr repo true).
Proof.
  unfold cmd.ensureRepo.
  apply neverWrites_bind; [apply neverWrites_attempt, neverWrites_GetRepo|intros r].
  apply neverWrites_bind.
  - destruct r as [ghr|e]; [quietly|]. destruct (negb _); [quietly|].
    apply neverWrites_bind; [|intros; quietly].
    unfold cmd.createRepo, cmd.println. cbv zeta.
    repeat first [ apply neverWrites_reportState | quietly
                 | apply neverWrites_bind; [|intros ?] ].
  - intros ghr. cbv zeta.
    repeat first [ apply neverWrites_reportEdits | apply neverWrites_ensureTopics
                 | apply neverWrites_ensureProtectedBranches
                 | apply neverWrites_bind; [|intros ?] ].
Qed.

Lemma neverWrites_reposRun : neverWrites (cmd.reposRun true).
Proof.
  unfold cmd.reposRun, cmd.println.
  do 4 (apply neverWrites_bind; [quietly|intros ?]).
  apply neverWrites_forEachAt. intros i r.
  do 3 (apply neverWrites_bind; [quietly|intros ?]).
  apply neverWrites_ensureRepo.
Qed.

Lemma neverWrites_membersRun : neverWrites (cmd.membersRun true).
Proof.
  unfold cmd.membersRun, cmd.println.
  do 4 (apply neverWrites_bind; [quietly|intros ?]).
  apply neverWrites_bind; [apply neverWrites_GetMembers|intros ps].
  apply neverWrites_bind.
  - apply neverWrites_forEach. intros p. readonly.
  - intros _. apply neverWrites_bind; [readonly|intros missing].
    unfold cmd.inviteMembers. apply neverWrites_forEach. intros m. readonly.
Qed.

(** Property X1.  A dry run never writes: whatever the remote answers,
    the dry runs of the repository step and of the member step, and the
    two check commands, issue no write call and queue no invitation. *)
Theorem dry_run_never_writes :
  neverWrites (cmd.reposRun true) /\ neverWrites (cmd.membersRun true) /\
  neverWrites cmd.checkReposRun /\ neverWrites cmd.checkMembersRun.
Proof.
  split; [apply neverWrites_reposRun|]. split; [apply neverWrites_membersRun|].
  unfold cmd.checkReposRun, cmd.checkMembersRun, cmd.println.
  split; (do 2 (apply neverWrites_bind; [quietly|intros ?]));
    [apply neverWrites_reposRun|apply neverWrites_membersRun].
Qed.

End DryRuns.

Section CallFacts.
Context {P : Provider}.

Lemma calls_bind_noCalls {A B} (m : M A) (k : A -> M B) st :
  (forall a, noCalls (k a)) -> calls (snd (bind m k st)) = calls (snd (m st)).
Proof.
  intros Hk. rewrite bind_run. destruct (fst (m st)); cbn [snd]; [apply Hk|reflexivity..].
Qed.

End CallFacts.

Ltac nocalls :=
  repeat first
    [ intros ?; reflexivity
    | progress cbv zeta
    | apply noCalls_forEach; intros ?
    | apply noCalls_bind; [|intros ?]
    | match goal with
      | |- noCalls (if ?b then _ else _) => destruct b
      | |- noCalls (match ?x with _ => _ end) => destruct x
      | |- noCalls (cmd.orPanic ?r) => destruct r; simpl
      end ].

Section MembersCalls.
Context {P : Provider}.


Lemma noCalls_inviteMembers org members dry : noCalls (cmd.inviteMembers org members dry).
Proof.
  unfold cmd.inviteMembers, clt.InviteMember, clt.Add, cmd.println.
  apply noCalls_forEach. intros m. destruct dry; nocalls.
Qed.

Lemma membersRun_calls (dry : bool) (st : State) :
  let rq := github.Organizations_ListMembers (gh_pb.Organization.Name (manifest st)) in
  calls (snd (cmd.membersRun dry st)) = calls st ++ [(rq, fst (roundTrip (world st) rq))].
Proof.
  unfold cmd.membersRun, cmd.println, clt.GetMembers.
  unfold bind at 1. cbn [getManifest].
  unfold bind at 1. cbn [print].
  unfold bind at 1. cbn [print].
  unfold bind at 1. cbn [print].
  rewrite calls_bind_noCalls.
  - rewrite calls_bind_noCalls by (intros a; nocalls).
    rewrite call_run. reflexivity.
  - intros ps. apply noCalls_bind.
    + apply noCalls_forEach. intros p. nocalls.
    + intros _. apply noCalls_bind; [nocalls|intros missing].
      apply noCalls_inviteMembers.
Qed.

(** Property X16.  The member step makes one call, the member listing of
    the organization of the manifest, whatever the answer is, in a dry run
    as in an apply run: invitations are left to the work list, and no call
    removes a member. *)
Theorem membersRun_single_call (dry : bool) (st : State) :
  requests (snd (cmd.membersRun dry st)) =
  requests st ++ [github.Organizations_ListMembers (gh_pb.Organization.Name (manifest st))].
Proof. unfold requests. rewrite membersRun_calls. now rewrite map_app. Qed.

End MembersCalls.

Section ManifestFacts.
Context {P : Provider}.

Lemma keepsManifest_bind {A B} (m : M A) (k : A -> M B) :
  keepsManifest m -> (forall a, keepsManifest (k a)) -> keepsManifest (bind m k).
Proof.
  intros Hm Hk st. rewrite bind_run.
  destruct (fst (m st)); cbn [snd]; try apply Hm.
  rewrite Hk. apply Hm.
Qed.

Lemma keepsManifest_call rq : keepsManifest (call rq).
Proof. intros st. now rewrite call_run. Qed.

Lemma keepsManifest_attempt {A} (m : M A) : keepsManifest m -> keepsManifest (attempt m).
Proof.
  intros H st. unfold attempt. specialize (H st).
  destruct (m st) as [[a|e| |] st']; exact H.
Qed.

Lemma keepsManifest_forEach {A} (l : list A) (body : A -> M unit) :
  (forall x, keepsManifest (body x)) -> keepsManifest (cmd.forEach l body).
Proof.
  intros Hb. induction l as [|x l IH]; simpl; [intros st; reflexivity|].
  apply keepsManifest_bind; auto.
Qed.

End ManifestFacts.

Ltac keeps :=
  repeat first
    [ intros ?; reflexivity
    | progress cbv zeta
    | apply keepsManifest_call
    | apply keepsManifest_forEach; intros ?
    | apply keepsManifest_attempt
    | apply keepsManifest_bind; [|intros ?]
    | match goal with
      | |- keepsManifest (if ?b then _ else _) => destruct b
      | |- keepsManifest (match ?x with _ => _ end) => destruct x
      | |- keepsManifest (cmd.whenSome ?o _) => destruct o; simpl
      | |- keepsManifest (StatusCode ?r) => destruct r; simpl
      | |- keepsManifest (cmd.orPanic ?r) => destruct r; simpl
      end ].

Section ManifestReports.
Context {P : Provider}.


Lemma keepsManifest_write rq format : keepsManifest (clt.write rq format).
Proof. unfold clt.write. keeps. Qed.

Lemma keepsManifest_classify {A} a nf format (v : A) :
  keepsManifest (clt.classify a nf format v).
Proof. unfold clt.classify. keeps. Qed.

Lemma keepsManifest_GetBranchProtection org repo branch :
  keepsManifest (clt.GetBranchProtection org repo branch).
Proof.
  unfold clt.GetBranchProtection.
  apply keepsManifest_bind; [apply keepsManifest_call|intros a; apply keepsManifest_classify].
Qed.

Lemma keepsManifest_GetRepo org name : keepsManifest (clt.GetRepo org name).
Proof.
  unfold clt.GetRepo.
  apply keepsManifest_bind; [apply keepsManifest_call|intros a; apply keepsManifest_classify].
Qed.

Lemma keepsManifest_reportProtection verb b : keepsManifest (cmd.reportProtection verb b).
Proof. unfold cmd.reportProtection, cmd.println. keeps. Qed.

Lemma keepsManifest_reportEdits verb e : keepsManifest (cmd.reportEdits verb e).
Proof. unfold cmd.reportEdits, cmd.println. keeps. Qed.

Lemma keepsManifest_reportState verb e : keepsManifest (cmd.reportState verb e).
Proof. unfold cmd.reportState, cmd.println. keeps. Qed.

End ManifestReports.

Ltac keeps' :=
  repeat first
    [ apply keepsManifest_write | apply keepsManifest_GetBranchProtection
    | apply keepsManifest_reportProtection | apply keepsManifest_reportEdits
    | apply keepsManifest_reportState
    | intros ?; reflexivity
    | apply keepsManifest_bind; [|intros ?]
    | match goal with
      | |- keepsManifest (if ?b then _ else _) => destruct b
      end ].

Section ManifestRuns.
Context {P : Provider}.


Lemma keepsManifest_ensureSignedCommits org repo b dry :
  keepsManifest (cmd.ensureSignedCommits org repo b dry).
Proof.
  unfold cmd.ensureSignedCommits, clt.RequireSignedCommits, cmd.println.
  destruct (gh_pb.Protection.SignedCommits _); [|intros ?; reflexivity]. keeps'.
Qed.

Lemma keepsManifest_ensureProtectedBranches org repo ghr dry :
  keepsManifest (cmd.ensureProtectedBranches org repo ghr dry).
Proof.
  unfold cmd.ensureProtectedBranches. apply keepsManifest_forEach. intros pb.
  apply keepsManifest_bind.
  - apply keepsManifest_attempt, keepsManifest_GetBranchProtection.
  - intros [p|e].
    + unfold cmd.UpdateBranchProtection, clt.ProtectBranch, cmd.println. cbv zeta.
      repeat first [ apply keepsManifest_ensureSignedCommits | keeps' ].
    + destruct (errors.Is e _); [|intros ?; reflexivity].
      unfold cmd.createProtectedBranch, clt.ProtectBranch, cmd.println. cbv zeta.
      repeat first [ apply keepsManifest_ensureSignedCommits | keeps' ].
Qed.

Lemma keepsManifest_createRepo org repo dry : keepsManifest (cmd.createRepo org repo dry).
Proof. unfold cmd.createRepo, clt.CreateRepo, cmd.println. cbv zeta. keeps'. Qed.

(** *** Computations that store labels *)

Lemma relabels_keeps {A} i l (m : M A) : keepsManifest m -> relabelsAtMost i l m.
Proof. intros H st. left. apply H. Qed.

Lemma relabels_then {A B} i l (m : M A) (k : A -> M B) :
  relabelsAtMost i l m -> (forall a, keepsManifest (k a)) -> relabelsAtMost i l (bind m k).
Proof.
  intros Hm Hk st. rewrite bind_run.
  destruct (fst (m st)); cbn [snd]; try apply Hm.
  rewrite Hk. apply Hm.
Qed.

Lemma relabels_after {A B} i l (m : M A) (k : A -> M B) :
  keepsManifest m -> (forall a, relabelsAtMost i l (k a)) -> relabelsAtMost i l (bind m k).
Proof.
  intros Hm Hk st. rewrite bind_run.
  destruct (fst (m st)) as [a| | |]; cbn [snd]; try (left; apply Hm).
  rewrite <- (Hm st). apply Hk.
Qed.

Lemma relabels_ensureTopics org ptr repo ghr dry :
  relabelsAtMost ptr (slices.Sort (gh_pb.Repository.Labels repo))
                 (cmd.ensureTopics org ptr repo ghr dry).
Proof.
  unfold cmd.ensureTopics, clt.SetRepoTopics, cmd.println.
  destruct (_ =? 0)%nat; [apply relabels_keeps; intros ?; reflexivity|].
  destruct ghr; [|apply relabels_keeps; intros ?; reflexivity]. cbv zeta.
  apply relabels_then.
  - intros st. right. reflexivity.
  - intros _. destruct (negb _); keeps'.
Qed.

Lemma relabels_ensureRepo org ptr repo dry :
  relabelsAtMost ptr (slices.Sort (gh_pb.Repository.Labels repo))
                 (cmd.ensureRepo org ptr repo dry).
Proof.
  unfold cmd.ensureRepo.
  apply relabels_after; [apply keepsManifest_attempt, keepsManifest_GetRepo|intros r].
  apply relabels_after.
  { destruct r as [ghr|e]; [intros ?; reflexivity|].
    destruct (negb _); [intros ?; reflexivity|].
    apply keepsManifest_bind; [apply keepsManifest_createRepo|intros ? ?; reflexivity]. }
  intros ghr. cbv zeta. apply relabels_after.
  { unfold clt.UpdateRepo. keeps'. }
  intros _. apply relabels_then; [apply relabels_ensureTopics|].
  intros _. apply keepsManifest_ensureProtectedBranches.
Qed.

(** *** The manifest up to the order of labels *)

Lemma sameButLabelOrder_refl r : sameButLabelOrder r r.
Proof. repeat split. apply Permutation_refl. Qed.

Lemma sameButLabelOrders_refl o : sameButLabelOrders o o.
Proof.
  repeat split. induction (gh_pb.Organization.Repositories o); constructor; auto.
  apply sameButLabelOrder_refl.
Qed.

Lemma storeLabels_same rs0 : forall rs i r,
  Forall2 sameButLabelOrder rs0 rs -> nth_error rs0 i = Some r ->
  Forall2 sameButLabelOrder rs0 (cmd.storeLabels i (slices.Sort (gh_pb.Repository.Labels r)) rs).
Proof.
  induction rs0 as [|r0 rs0 IH]; intros rs i r H Hi; inversion H as [|? r1 ? rs1 Hr Hrs]; subst.
  - destruct i; discriminate.
  - destruct i as [|i]; cbn [cmd.storeLabels].
    + injection Hi as ->. constructor; [|exact Hrs].
      destruct Hr as (H1 & H2 & H3 & H4 & H5 & H6 & _).
      unfold sameButLabelOrder, gh_pb.Repository.withLabels.
      cbn [gh_pb.Repository.Name gh_pb.Repository.Description gh_pb.Repository.Archived
           gh_pb.Repository.Private gh_pb.Repository.DefaultBranch
           gh_pb.Repository.ProtectedBranches gh_pb.Repository.Labels].
      repeat split; auto. symmetry. apply Sort_perm.
    + constructor; [exact Hr|]. now apply IH.
Qed.

Lemma relabel_same o0 o i r :
  sameButLabelOrders o0 o ->
  nth_error (gh_pb.Organization.Repositories o0) i = Some r ->
  sameButLabelOrders o0 (relabel i (slices.Sort (gh_pb.Repository.Labels r)) o).
Proof.
  intros (Hn & Hp & Hr) Hi. unfold relabel. repeat split; auto.
  cbn [gh_pb.Organization.Repositories]. now apply storeLabels_same.
Qed.

Lemma reposLoop_same o0 org dry : forall l i st,
  skipn i (gh_pb.Organization.Repositories o0) = l ->
  sameButLabelOrders o0 (manifest st) ->
  sameButLabelOrders o0
    (manifest (snd (cmd.forEachAt i l (fun ptr r =>
       cmd.println ;;
       print (report.Header (gh_pb.Repository.Name r)) ;;
       cmd.println ;;
       cmd.ensureRepo org ptr r dry) st))).
Proof.
  induction l as [|r l IH]; intros i st Hl Hst; [exact Hst|].
  cbn [cmd.forEachAt]. rewrite bind_run.
  assert (Hi : nth_error (gh_pb.Organization.Repositories o0) i = Some r).
  { rewrite <- hd_error_skipn, Hl. reflexivity. }
  assert (Hl' : skipn (S i) (gh_pb.Organization.Repositories o0) = l).
  { change (S i) with (1 + i)%nat. rewrite <- skipn_skipn, Hl. reflexivity. }
  set (body := bind cmd.println _).
  assert (Hbody : sameButLabelOrders o0 (manifest (snd (body st)))).
  { assert (Hrel : relabelsAtMost i (slices.Sort (gh_pb.Repository.Labels r)) body).
    { unfold body, cmd.println.
      do 3 (apply relabels_after; [intros ?; reflexivity|intros _]).
      apply relabels_ensureRepo. }
    destruct (Hrel st) as [E|E]; rewrite E; [exact Hst|now apply relabel_same]. }
  destruct (fst (body st)); cbn [snd]; try exact Hbody.
  now apply IH.
Qed.

(** Property X12.  Reconciliation changes the manifest in memory at most
    in the order of labels: after [reposRun], dry or not and whatever the
    remote answers, the manifest has the same name, the same people and the
    same repositories with the same fields, and each label list is a
    permutation of what it was. *)
Theorem reposRun_keeps_manifest_but_label_order (dry : bool) (st : State) :
  sameButLabelOrders (manifest st) (manifest (snd (cmd.reposRun dry st))).
Proof.
  unfold cmd.reposRun, cmd.println.
  unfold bind at 1. cbn [getManifest].
  unfold bind at 1. cbn [print].
  unfold bind at 1. cbn [print].
  unfold bind at 1. cbn [print].
  match goal with |- sameButLabelOrders _ (manifest (snd (cmd.forEachAt _ _ _ ?s))) =>
    change (manifest st) with (manifest s) at 1 end.
  apply reposLoop_same; [reflexivity|apply sameButLabelOrders_refl].
Qed.

End ManifestRuns.

Section ListingFacts.
Context {P : Provider}.

Lemma pagesServed_app l1 l2 : pagesServed (l1 ++ l2) = pagesServed l1 ++ pagesServed l2.
Proof. unfold pagesServed. apply flat_map_app. Qed.

Lemma pagesServed_notArchived l : forallb notArchived (pagesServed l) = true.
Proof.
  apply forallb_forall. intros r Hr. unfold pagesServed in Hr.
  apply in_flat_map in Hr as (c & _ & Hc).
  destruct (isListing (fst c)); [|contradiction].
  now apply filter_In in Hc as [_ Hc].
Qed.

Lemma loopRequest_listing name orgFound page :
  let rq := if orgFound : bool
            then github.Repositories_ListByOrg name (clt.listOpts page)
            else github.Repositories_List name (clt.listOpts page) in
  isListing rq = true /\ listOptions rq = Some (clt.listOpts page).
Proof. now destruct orgFound. Qed.

Lemma GetRepos_loop_faithful : forall fuel name orgFound page acc st,
  listsFaithfully page acc st (clt.GetRepos_loop fuel name orgFound page acc st) /\
  Forall (fun c => isListing (fst c) = true)
         (skipn (List.length (calls st))
                (calls (snd (clt.GetRepos_loop fuel name orgFound page acc st)))).
Proof.
  induction fuel as [|fuel IH]; intros name orgFound page acc st.
  - cbn [clt.GetRepos_loop outOfFuel fst snd]. split.
    + exists []. rewrite app_nil_r. repeat split; discriminate.
    + rewrite skipn_all. constructor.
  - remember (clt.GetRepos_loop (S fuel) name orgFound page acc st) as run eqn:Erun.
    cbn [clt.GetRepos_loop] in Erun. unfold bind at 1 in Erun. rewrite call_run in Erun.
    destruct (loopRequest_listing name orgFound page) as [Hlist Hopts].
    set (rq := if orgFound then _ else _) in *.
    set (a := fst (roundTrip (world st) rq)) in *.
    set (st1 := mkState _ _ _ _ _) in *.
    assert (Hone : skipn (List.length (calls st)) (calls st ++ [(rq, a)]) = [(rq, a)]).
    { rewrite skipn_app, skipn_all, Nat.sub_diag. reflexivity. }
    assert (Hstop : forall (r : Res (list github.Repository.t)),
               (forall rs, r <> Ok rs) ->
               listsFaithfully page acc st (r, st1) /\
               Forall (fun c => isListing (fst c) = true)
                      (skipn (List.length (calls st)) (calls (snd (r, st1))))).
    { intros r Hr. split.
      - exists [(rq, a)]. cbn [fst snd]. split; [reflexivity|].
        cbn [filter fst]. rewrite Hlist. split; [now split|].
        intros rs E. now apply Hr in E.
      - cbn [snd]. unfold st1. cbn [calls]. rewrite Hone. now constructor. }
    destruct (github.err a) as [e|] eqn:Eerr.
    { destruct (github.isRateLimitError e); subst run; apply Hstop; intros rs; discriminate. }
    unfold bind at 1 in Erun. destruct (github.resp a) as [r|] eqn:Eresp;
      [|subst run; apply Hstop; intros rs; discriminate].
    cbn [NextPage] in Erun. unfold ret in Erun.
    set (acc' := acc ++ filter _ _) in *.
    assert (Hacc : acc' = acc ++ pagesServed [(rq, a)]).
    { unfold acc', pagesServed. cbn [flat_map fst snd]. rewrite Hlist, app_nil_r.
      reflexivity. }
    destruct (github.Response.NextPage r =? 0)%Z eqn:Enext.
    + apply Z.eqb_eq in Enext. subst run. split.
      * exists [(rq, a)]. cbn [fst snd]. split; [reflexivity|].
        cbn [filter fst]. rewrite Hlist. split; [now split|].
        intros rs [= <-]. split; [exact Hacc|].
        exists [], (rq, a), r. auto.
      * cbn [snd]. unfold st1. cbn [calls]. rewrite Hone. now constructor.
    + apply Z.eqb_neq in Enext. subst run.
      destruct (IH name orgFound (github.Response.NextPage r) acc' st1)
        as ((l & Hl & Hf & Hok) & Hall).
      assert (Hskip : skipn (List.length (calls st))
                            (calls st ++ (rq, a) :: l) = (rq, a) :: l).
      { rewrite skipn_app, skipn_all, Nat.sub_diag. reflexivity. }
      assert (Hl' : calls (snd (clt.GetRepos_loop fuel name orgFound
                                  (github.Response.NextPage r) acc' st1))
                    = calls st ++ (rq, a) :: l).
      { rewrite Hl. unfold st1. cbn [calls]. now rewrite <- app_assoc. }
      assert (Hlall : Forall (fun c => isListing (fst c) = true) l).
      { rewrite Hl in Hall. rewrite skipn_app, skipn_all, Nat.sub_diag in Hall.
        exact Hall. }
      split.
      * exists ((rq, a) :: l). split; [exact Hl'|].
        cbn [filter fst]. rewrite Hlist. split.
        -- cbn [followsPages fst snd]. split; [exact Hopts|].
           destruct (filter _ l) eqn:El; [exact I|].
           exists r. split; [exact Eresp|]. split; [exact Enext|exact Hf].
        -- intros rs E. destruct (Hok rs E) as (Hrs & l' & c & r' & El & Hc & Hr & Hn).
           split.
           ++ rewrite Hrs, Hacc, <- app_assoc.
              change ((rq, a) :: l) with ([(rq, a)] ++ l). now rewrite pagesServed_app.
           ++ exists ((rq, a) :: l'), c, r'. rewrite El. auto.
      * rewrite Hl', Hskip. constructor; [exact Hlist|exact Hlall].
Qed.

Lemma filter_all {A} (f : A -> bool) l : Forall (fun x => f x = true) l -> filter f l = l.
Proof. induction 1 as [|x l Hx _ IH]; simpl; [reflexivity|]. now rewrite Hx, IH. Qed.

Lemma filter_none {A} (f : A -> bool) l : Forall (fun x => f x = false) l -> filter f l = [].
Proof. induction 1 as [|x l Hx _ IH]; simpl; [reflexivity|]. now rewrite Hx. Qed.

Lemma pagesServed_none l :
  Forall (fun c => isListing (fst c) = false) l -> pagesServed l = [].
Proof.
  induction 1 as [|c l Hc _ IH]; [reflexivity|].
  unfold pagesServed in *. cbn [flat_map]. now rewrite Hc, IH.
Qed.

Lemma faithful_exit page acc st (r : Res (list github.Repository.t)) st1 lp :
  calls st1 = calls st ++ lp -> Forall (fun c => isListing (fst c) = false) lp ->
  (forall rs, r <> Ok rs) -> listsFaithfully page acc st (r, st1).
Proof.
  intros Hc Hlp Hr. exists lp. cbn [fst snd]. split; [exact Hc|].
  rewrite filter_none by exact Hlp. split; [exact I|].
  intros rs E. now apply Hr in E.
Qed.

Lemma faithful_after_probes page acc st st1 lp run :
  calls st1 = calls st ++ lp -> Forall (fun c => isListing (fst c) = false) lp ->
  listsFaithfully page acc st1 run ->
  Forall (fun c => isListing (fst c) = true)
         (skipn (List.length (calls st1)) (calls (snd run))) ->
  listsFaithfully page acc st run.
Proof.
  intros Hc Hlp (l & Hl & Hf & Hok) Hall.
  rewrite Hl, skipn_app, skipn_all, Nat.sub_diag in Hall. cbn [skipn app] in Hall.
  exists (lp ++ l). split; [rewrite Hl, Hc; now rewrite app_assoc|].
  rewrite filter_app, filter_none by exact Hlp. cbn [app]. split; [exact Hf|].
  intros rs E. destruct (Hok rs E) as (Hrs & l' & c & r & El & Hcl & Hr & Hn).
  split.
  - rewrite pagesServed_app, pagesServed_none by exact Hlp. exact Hrs.
  - exists (lp ++ l'), c, r. rewrite El, app_assoc. auto.
Qed.

(** Property X2.  Whatever the remote answers, the listing calls of
    [GetRepos] follow the page links: the first asks for page 0, each
    following one for the next page that the answer before it names, every
    one for all types of repository, 100 per page.  When [GetRepos] returns
    repositories, they are the repositories of the pages served, in order,
    less the archived ones, and the last answer named no next page; so no
    archived repository is ever returned. *)
Theorem GetRepos_returns_the_pages_served (fuel : nat) (name : string) (st : State) :
  listsFaithfully 0 [] st (clt.GetRepos fuel name st) /\
  forall rs, fst (clt.GetRepos fuel name st) = Ok rs -> forallb notArchived rs = true.
Proof.
  assert (H : listsFaithfully 0 [] st (clt.GetRepos fuel name st)).
  { remember (clt.GetRepos fuel name st) as run eqn:Erun.
    unfold clt.GetRepos in Erun. unfold bind at 1 in Erun. rewrite call_run in Erun.
    set (rq := github.Organizations_Get name) in *.
    set (a := fst (roundTrip (world st) rq)) in *.
    set (st1 := mkState _ _ _ _ _) in *.
    assert (H1 : calls st1 = calls st ++ [(rq, a)]) by reflexivity.
    assert (Hp1 : Forall (fun c => isListing (fst c) = false) [(rq, a)])
      by (repeat constructor).
    assert (Hrest : forall run',
      run' = (status <- StatusCode (github.resp a) ;;
        orgFound_count <-
          (if (status =? http.StatusNotFound)%Z then
             u <- call (github.Users_Get name) ;;
             let user := github.asUser (github.payload u) in
             match github.err u with
             | Some e =>
                 if github.isRateLimitError e then throw clt.hitRateLimit
                 else throw (client.Errorf "get user: %v" (Some e))
             | None =>
                 ret (false, wrap64 (github.User.GetPublicRepos user
                                     + github.User.GetTotalPrivateRepos user))
             end
           else
             ret (true, wrap64 (github.Organization.GetPublicRepos
                                  (github.asOrganization (github.payload a))
                                + github.Organization.GetTotalPrivateRepos
                                    (github.asOrganization (github.payload a))))) ;;
        let (orgFound, count) := (orgFound_count : bool * Z) in
        if (count <? 1)%Z then throw client.ErrNoReposFound
        else clt.GetRepos_loop fuel name orgFound 0 []) st1 ->
      listsFaithfully 0 [] st run').
    { intros run' E. unfold bind at 1 in E.
      destruct (github.resp a) as [r|];
        [|subst run'; apply (faithful_exit 0 [] st _ st1 [(rq, a)]); auto; discriminate].
      cbn [StatusCode] in E. unfold ret at 1 in E. unfold bind at 1 in E.
      destruct (github.Response.StatusCode r =? http.StatusNotFound)%Z.
      - unfold bind at 1 in E. rewrite call_run in E.
        set (rq2 := github.Users_Get name) in *.
        set (u := fst (roundTrip (world st1) rq2)) in *.
        set (st2 := mkState _ (calls st1 ++ _) _ _ _) in *.
        assert (H2 : calls st2 = calls st ++ [(rq, a); (rq2, u)]).
        { unfold st2. cbn [calls]. rewrite H1, <- app_assoc. reflexivity. }
        assert (Hp2 : Forall (fun c => isListing (fst c) = false) [(rq, a); (rq2, u)])
          by (repeat constructor).
        cbv zeta in E. destruct (github.err u) as [e|].
        { destruct (github.isRateLimitError e); subst run';
            apply (faithful_exit 0 [] st _ st2 _ H2 Hp2); discriminate. }
        unfold ret at 1 in E.
        destruct (_ <? 1)%Z.
        + subst run'. apply (faithful_exit 0 [] st _ st2 _ H2 Hp2); discriminate.
        + subst run'. destruct (GetRepos_loop_faithful fuel name false 0 [] st2) as [Hf Hall].
          exact (faithful_after_probes 0 [] st st2 _ _ H2 Hp2 Hf Hall).
      - unfold ret at 1 in E.
        destruct (_ <? 1)%Z.
        + subst run'. apply (faithful_exit 0 [] st _ st1 _ H1 Hp1); discriminate.
        + subst run'. destruct (GetRepos_loop_faithful fuel name true 0 [] st1) as [Hf Hall].
          exact (faithful_after_probes 0 [] st st1 _ _ H1 Hp1 Hf Hall). }
    destruct (github.resp a) as [r|] eqn:Eresp; [now apply Hrest|].
    destruct (github.err a) as [e|] eqn:Eerr; [|now apply Hrest].
    destruct (github.isRateLimitError e); subst run;
      apply (faithful_exit 0 [] st _ st1 _ H1 Hp1); discriminate. }
  split; [exact H|].
  intros rs E. destruct H as (l & _ & _ & Hok). destruct (Hok rs E) as [-> _].
  apply pagesServed_notArchived.
Qed.

End ListingFacts.

Section Endless.
Context {P : Provider}.

Lemma GetRepos_loop_endless :
  (forall w rq, isListing rq = true -> namesNextPage (fst (roundTrip w rq))) ->
  forall fuel name orgFound page acc st,
    fst (clt.GetRepos_loop fuel name orgFound page acc st) = OutOfFuel.
Proof.
  intros Hnext. induction fuel as [|fuel IH]; intros; [reflexivity|].
  cbn [clt.GetRepos_loop]. unfold bind at 1. rewrite call_run.
  match goal with |- context [roundTrip (world st) ?rq] =>
    destruct (Hnext (world st) rq) as (Herr & r & Hresp & Hn);
      [now destruct orgFound|] end.
  cbn [fst]. rewrite Herr. unfold bind at 1. rewrite Hresp. cbn [NextPage]. unfold ret at 1.
  apply Z.eqb_neq in Hn. rewrite Hn. apply IH.
Qed.

(** Property X3.  [GetRepos] relies on the remote to end the listing:
    against an account that is found with at least one repository and whose
    every listing answer names a next page, the loop never ends (no amount
    of fuel lets it return). *)
Theorem GetRepos_never_ends_without_a_last_page (name : string) (st : State) :
  foundWithRepos (fst (roundTrip (world st) (github.Organizations_Get name))) ->
  (forall w rq, isListing rq = true -> namesNextPage (fst (roundTrip w rq))) ->
  forall fuel, fst (clt.GetRepos fuel name st) = OutOfFuel.
Proof.
  intros ((r & Hresp & Hstatus) & Hcount) Hnext fuel.
  unfold clt.GetRepos. unfold bind at 1. rewrite call_run. cbn [fst snd].
  rewrite Hresp. unfold bind at 1. cbn [StatusCode]. unfold ret at 1.
  rewrite Hstatus. unfold bind at 1. unfold ret at 1.
  apply Z.ltb_ge in Hcount. rewrite Hcount.
  now apply GetRepos_loop_endless.
Qed.

End Endless.

(** Property X3 at a concrete input. *)
Lemma GetRepos_never_ends_witness :
  let st := mkState (P := endless) tt [] [] example.membersManifest [] in
  fst (clt.GetRepos 1000 "acme" st) = OutOfFuel.
Proof.
  intros st. apply (GetRepos_never_ends_without_a_last_page (P := endless)).
  - split; [exists (github.Response.mk 200 0); split; reflexivity|].
    vm_compute. discriminate.
  - intros w rq Hrq. split; [now destruct rq|].
    exists (github.Response.mk 200 2). split; [now destruct rq|discriminate].
Defined.

Section GatewayEdges.
Context {P : Provider}.

Lemma bind_call {B} (rq : github.Request) (k : github.Answer -> M B) (st : State) :
  bind (call rq) k st =
    k (fst (roundTrip (world st) rq))
      (mkState (snd (roundTrip (world st) rq))
               (calls st ++ [(rq, fst (roundTrip (world st) rq))])
               (output st) (manifest st) (queue st)).
Proof. unfold bind. now rewrite call_run. Qed.

Lemma classify_transportFailure {A} a e nf format (v : A) st :
  transportFailure a e -> clt.classify a nf format v st = (Panic, st).
Proof.
  intros (Hresp & Herr & Hrl). unfold clt.classify. rewrite Herr, Hrl.
  unfold bind. now rewrite Hresp.
Qed.

(** Property X5.  A failed round trip (no response, and an error that is
    not a rate-limit error) makes [GetRepo], [GetRepoTopics], [GetBranches],
    [GetBranchProtection] and [IsBranchProtected] read the status of the nil
    response: they panic, and so does [ensureRepo].  The organization probe
    of [GetRepos] guards this case and returns the error wrapped;
    [GetMembers] returns the error; [GetOrg], which reads the status from
    the error and not from the response, [OrgExists] and [GetMembers] never
    panic. *)
Theorem transport_failure_panics (st : State) :
  let answer rq := fst (roundTrip (world st) rq) in
  (forall org name e, transportFailure (answer (github.Repositories_Get org name)) e ->
     fst (clt.GetRepo org name st) = Panic /\
     forall ptr repo dry, gh_pb.Repository.Name repo = name ->
       fst (cmd.ensureRepo org ptr repo dry st) = Panic) /\
  (forall org name e, transportFailure (answer (github.Repositories_ListAllTopics org name)) e ->
     fst (clt.GetRepoTopics org name st) = Panic) /\
  (forall org repo e, transportFailure (answer (github.Repositories_ListBranches org repo)) e ->
     fst (clt.GetBranches org repo st) = Panic) /\
  (forall org repo branch e,
     transportFailure (answer (github.Repositories_GetBranchProtection org repo branch)) e ->
     fst (clt.GetBranchProtection org repo branch st) = Panic /\
     fst (clt.IsBranchProtected org repo branch st) = Panic) /\
  (forall name e fuel, transportFailure (answer (github.Organizations_Get name)) e ->
     fst (clt.GetRepos fuel name st) = Error (client.Errorf "get org: %w" (Some e))) /\
  (forall name e, transportFailure (answer (github.Organizations_ListMembers name)) e ->
     fst (clt.GetMembers name st) = Error (client.Upstream e)) /\
  (forall name, fst (clt.GetOrg name st) <> Panic /\ fst (clt.OrgExists name st) <> Panic /\
                fst (clt.GetMembers name st) <> Panic).
Proof.
  intros answer.
  assert (Hcls : forall A rq nf format (v : github.Answer -> A) e,
            transportFailure (answer rq) e ->
            (a <- call rq ;; clt.classify a nf format (v a)) st =
              (Panic, snd (call rq st))).
  { intros A rq nf format v e H. unfold bind. rewrite call_run.
    now rewrite (classify_transportFailure _ e). }
  split; [|split; [|split; [|split; [|split; [|split]]]]].
  - intros org name e H. split.
    + unfold clt.GetRepo. now rewrite (Hcls _ _ _ _ _ e H).
    + intros ptr repo dry <-.
      unfold cmd.ensureRepo. unfold bind at 1. unfold attempt.
      unfold clt.GetRepo. now rewrite (Hcls _ _ _ _ _ e H).
  - intros org name e H. unfold clt.GetRepoTopics. now rewrite (Hcls _ _ _ _ _ e H).
  - intros org name e H. unfold clt.GetBranches. now rewrite (Hcls _ _ _ _ _ e H).
  - intros org repo branch e H. split.
    + unfold clt.GetBranchProtection. now rewrite (Hcls _ _ _ _ _ e H).
    + destruct H as (Hresp & Herr & Hrl).
      unfold clt.IsBranchProtected, bind. rewrite call_run. cbn [fst snd].
      fold (answer (github.Repositories_GetBranchProtection org repo branch)).
      now rewrite Herr, Hrl, Hresp.
  - intros name e fuel (Hresp & Herr & Hrl).
    unfold clt.GetRepos, bind. rewrite call_run. cbn [fst snd].
    fold (answer (github.Organizations_Get name)).
    now rewrite Hresp, Herr, Hrl.
  - intros name e (Hresp & Herr & Hrl).
    unfold clt.GetMembers, bind. rewrite call_run. cbn [fst snd].
    fold (answer (github.Organizations_ListMembers name)).
    now rewrite Herr.
  - intros name. split; [|split].
    + unfold clt.GetOrg, bind. rewrite call_run. cbn [fst snd].
      destruct (github.err _) as [[|s|m]|]; try discriminate.
      destruct (s =? _)%Z; discriminate.
    + unfold clt.OrgExists, clt.GetOrg, attempt, bind. rewrite call_run. cbn [fst snd].
      destruct (github.err _) as [[|s|m]|]; try discriminate.
      destruct (s =? _)%Z; discriminate.
    + unfold clt.GetMembers, bind. rewrite call_run. cbn [fst snd].
      destruct (github.err _); discriminate.
Qed.

(** Property X6.  [IsBranchProtected] is [GetBranchProtection] with
    not-found turned into false: it makes the same call and ends in the same
    state; a protection gives true, a nil protection or the not-found error
    gives false, and any other outcome is passed on. *)
Theorem IsBranchProtected_agrees_with_GetBranchProtection org repo branch (st : State) :
  clt.IsBranchProtected org repo branch st =
    (asProtected (fst (clt.GetBranchProtection org repo branch st)),
     snd (clt.GetBranchProtection org repo branch st)).
Proof.
  unfold clt.IsBranchProtected, clt.GetBranchProtection, clt.classify, bind.
  rewrite call_run. cbn [fst snd].
  destruct (github.err _) as [e|].
  - destruct (github.isRateLimitError e); [reflexivity|].
    destruct (github.resp _) as [r|]; [|reflexivity]. cbn [StatusCode ret].
    destruct (_ =? _)%Z; reflexivity.
  - cbn [ret fst snd asProtected]. now destruct (github.asProtection _).
Qed.

(** Property X7.  The deferred invitation looks the user up first.  When
    the lookup succeeds with a user, the task makes exactly two calls, the
    lookup and the invitation, which carries the identifier of the user
    found.  When the lookup fails or returns no user, the lookup is the only
    call and the task does not succeed; on a 404 its error is
    [ErrUserNotFound]. *)
Theorem inviteTask_invites_the_user_found org username (st : State) :
  let a := fst (roundTrip (world st) (github.Users_Get username)) in
  let run := clt.inviteTask org username st in
  (forall u, github.err a = None -> github.asUser (github.payload a) = Some u ->
     requests (snd run) =
       requests st ++ [github.Users_Get username;
                       github.Organizations_CreateOrgInvitation org (github.User.ID u)]) /\
  (github.err a <> None \/ github.asUser (github.payload a) = None ->
     requests (snd run) = requests st ++ [github.Users_Get username] /\
     fst run <> Ok tt) /\
  (notFound a -> fst run = Error client.ErrUserNotFound).
Proof.
  intros a run. subst run. unfold clt.inviteTask. rewrite bind_call. fold a.
  set (st1 := mkState _ _ _ _ _).
  assert (H1 : requests st1 = requests st ++ [github.Users_Get username])
    by apply requests_app_call.
  split; [|split].
  - intros u Herr Hu. rewrite Herr, Hu. rewrite bind_call.
    set (st2 := mkState _ _ _ _ _).
    assert (H2 : requests st2 = requests st ++
              [github.Users_Get username;
               github.Organizations_CreateOrgInvitation org (github.User.ID u)]).
    { unfold st2. rewrite requests_app_call, H1, <- app_assoc. reflexivity. }
    destruct (github.err (fst (roundTrip (world st1) _))); [exact H2|].
    unfold bind, print. cbn [snd]. exact H2.
  - intros [Herr|Hu].
    + destruct (github.err a) as [e|]; [|congruence].
      destruct (github.isRateLimitError e); [split; [exact H1|discriminate]|].
      unfold bind. destruct (github.resp a); cbn [StatusCode ret panic];
        [destruct (_ =? _)%Z|]; (split; [exact H1|discriminate]).
    + rewrite Hu. destruct (github.err a) as [e|]; [|split; [exact H1|discriminate]].
      destruct (github.isRateLimitError e); [split; [exact H1|discriminate]|].
      unfold bind. destruct (github.resp a); cbn [StatusCode ret panic];
        [destruct (_ =? _)%Z|]; (split; [exact H1|discriminate]).
  - intros (r & e & Hresp & Hstatus & Herr & Hrl). rewrite Herr, Hrl.
    unfold bind. rewrite Hresp. cbn [StatusCode ret]. rewrite Hstatus. reflexivity.
Qed.

(** Property X8.  When the repository lookup fails with a rate-limit
    error, or with any error whose response is not a 404, [ensureRepo] stops
    there: it returns the error of the lookup, makes no other call, reports
    nothing, and leaves the manifest and the work list as they were. *)
Theorem ensureRepo_aborts_on_lookup_error org ptr repo dry (st : State) e :
  let rq := github.Repositories_Get org (gh_pb.Repository.Name repo) in
  let a := fst (roundTrip (world st) rq) in
  let run := cmd.ensureRepo org ptr repo dry st in
  github.err a = Some e ->
  (github.isRateLimitError e = true \/
   exists r, github.resp a = Some r /\
             (github.Response.StatusCode r =? http.StatusNotFound)%Z = false) ->
  fst run = Error (if github.isRateLimitError e then clt.hitRateLimit
                   else client.Errorf "get repo: %w" (Some e)) /\
  requests (snd run) = requests st ++ [rq] /\
  output (snd run) = output st /\ manifest (snd run) = manifest st /\
  queue (snd run) = queue st.
Proof.
  intros rq a run Herr Hkind. subst run.
  set (failure := if github.isRateLimitError e then clt.hitRateLimit
                  else client.Errorf "get repo: %w" (Some e)).
  set (st1 := mkState (snd (roundTrip (world st) rq)) (calls st ++ [(rq, a)])
                      (output st) (manifest st) (queue st)).
  assert (Hget : clt.GetRepo org (gh_pb.Repository.Name repo) st = (Error failure, st1)).
  { unfold clt.GetRepo. rewrite bind_call. fold rq. fold a. unfold clt.classify.
    rewrite Herr. subst failure. destruct (github.isRateLimitError e); [reflexivity|].
    destruct Hkind as [?|(r & Hresp & Hstatus)]; [discriminate|].
    unfold bind. rewrite Hresp. cbn [StatusCode ret]. now rewrite Hstatus. }
  assert (Hnf : errors.Is failure client.ErrRepoNotFound = false).
  { subst failure. now destruct (github.isRateLimitError e). }
  assert (Hrun : cmd.ensureRepo org ptr repo dry st = (Error failure, st1)).
  { unfold cmd.ensureRepo. rewrite bind_run. unfold attempt. rewrite Hget. cbn [fst snd].
    rewrite bind_run. rewrite Hnf. reflexivity. }
  rewrite Hrun. cbn [fst snd]. repeat split. apply requests_app_call.
Qed.

End GatewayEdges.

Lemma EqualFold_refl s : strings.EqualFold s s = true.
Proof. induction s as [|c s IH]; simpl; [reflexivity|]. now rewrite Ascii.eqb_refl. Qed.

(** Property X9.  The patch settles the repository: once the fields of
    the patch [edits] have replaced those of the remote repository, the
    patch computed against the result is empty; and the patch computed
    against the state that [createRepo] sends is empty. *)
Theorem patch_leaves_nothing_to_patch (repo : gh_pb.Repository.t) :
  (forall g, cmd.edits repo (Some (sim.applyPatch (cmd.edits repo (Some g)) g))
             = github.Repository.empty) /\
  cmd.edits repo (Some (cmd.createState repo)) = github.Repository.empty.
Proof.
  split.
  - intros g. unfold cmd.edits, sim.applyPatch, github.Repository.empty.
    cbn [github.Repository.GetDescription github.Repository.GetArchived
         github.Repository.GetPrivate github.Repository.GetDefaultBranch
         github.Repository.Description github.Repository.Archived
         github.Repository.Private github.Repository.DefaultBranch
         github.Repository.Name github.Repository.Topics].
    f_equal.
    + destruct (gh_pb.Repository.Description repo) as [d|]; [|reflexivity].
      destruct (strings.EqualFold (github.orEmpty (github.Repository.Description g)) d) eqn:E;
        cbn [negb sim.first github.orEmpty].
      * now rewrite E.
      * now rewrite EqualFold_refl.
    + destruct (gh_pb.Repository.Archived repo) as [d|]; [|reflexivity].
      destruct (Bool.eqb (github.orFalse (github.Repository.Archived g)) d) eqn:E;
        cbn [negb sim.first github.orFalse].
      * now rewrite E.
      * now rewrite Bool.eqb_reflx.
    + destruct (gh_pb.Repository.Private repo) as [d|]; [|reflexivity].
      destruct (Bool.eqb (github.orFalse (github.Repository.Private g)) d) eqn:E;
        cbn [negb sim.first github.orFalse].
      * now rewrite E.
      * now rewrite Bool.eqb_reflx.
    + destruct (gh_pb.Repository.DefaultBranch repo) as [d|]; [|reflexivity].
      destruct (strings.EqualFold (github.orEmpty (github.Repository.DefaultBranch g)) d) eqn:E;
        cbn [negb sim.first github.orEmpty].
      * now rewrite E.
      * now rewrite EqualFold_refl.
  - unfold cmd.edits, cmd.createState, github.Repository.empty.
    cbn [github.Repository.GetDescription github.Repository.GetArchived
         github.Repository.GetPrivate github.Repository.GetDefaultBranch
         github.Repository.Description github.Repository.Archived
         github.Repository.Private github.Repository.DefaultBranch
         github.Repository.Name github.Repository.Topics].
    f_equal.
    + destruct (gh_pb.Repository.Description repo) as [d|]; [|reflexivity].
      cbn [github.orEmpty]. now rewrite EqualFold_refl.
    + destruct (gh_pb.Repository.Archived repo) as [d|]; [|reflexivity].
      cbn [github.orFalse]. now rewrite Bool.eqb_reflx.
    + destruct (gh_pb.Repository.Private repo) as [d|]; [|reflexivity].
      cbn [github.orFalse]. now rewrite Bool.eqb_reflx.
    + destruct (gh_pb.Repository.DefaultBranch repo) as [d|]; [|reflexivity].
      cbn [github.orEmpty]. now rewrite EqualFold_refl.
Qed.

Section ReportFacts.
Context {P : Provider}.

Lemma prints_ret : prints (ret tt) [].
Proof. intros st. unfold ret. rewrite app_nil_r. now destruct st. Qed.

Lemma prints_print l : prints (print l) [l].
Proof. intros st. reflexivity. Qed.

Lemma prints_bind (m : M unit) (k : unit -> M unit) l1 l2 :
  prints m l1 -> (forall u, prints (k u) l2) -> prints (bind m k) (l1 ++ l2).
Proof.
  intros Hm Hk st. unfold bind. rewrite Hm, Hk. cbn [world calls output manifest queue].
  now rewrite app_assoc.
Qed.

Lemma sameMarkers_ret : sameMarkers (ret tt) (ret tt).
Proof. exists [], []. repeat split; apply prints_ret. Qed.

Lemma sameMarkers_print l l' : marker l = marker l' -> sameMarkers (print l) (print l').
Proof.
  intros H. exists [l], [l']. repeat split; try apply prints_print. simpl. now rewrite H.
Qed.

Lemma sameMarkers_bind (m m' : M unit) (k k' : unit -> M unit) :
  sameMarkers m m' -> (forall u, sameMarkers (k u) (k' u)) ->
  sameMarkers (bind m k) (bind m' k').
Proof.
  intros (l1 & l1' & H1 & H1' & E1) Hk. destruct (Hk tt) as (l2 & l2' & H2 & H2' & E2).
  exists (l1 ++ l2), (l1' ++ l2'). split; [|split].
  - apply prints_bind; [exact H1|now intros []].
  - apply prints_bind; [exact H1'|now intros []].
  - now rewrite !map_app, E1, E2.
Qed.

Lemma sameMarkers_whenSome {A} (o : option A) (f f' : A -> M unit) :
  (forall a, sameMarkers (f a) (f' a)) -> sameMarkers (cmd.whenSome o f) (cmd.whenSome o f').
Proof. intros H. destruct o; simpl; [apply H|apply sameMarkers_ret]. Qed.

End ReportFacts.

Ltac alike :=
  repeat first
    [ apply sameMarkers_ret
    | apply sameMarkers_print; reflexivity
    | apply sameMarkers_bind; [|intros ?]
    | apply sameMarkers_whenSome; intros ?
    | match goal with
      | |- sameMarkers (if ?b then _ else _) (if ?b then _ else _) => destruct b
      end ].

Section MarkerFacts.
Context {P : Provider}.


Lemma sameMarkers_reportState verb verb' s :
  sameMarkers (cmd.reportState verb s) (cmd.reportState verb' s).
Proof. unfold cmd.reportState, cmd.println. alike. Qed.

Lemma sameMarkers_reportProtection verb verb' b :
  sameMarkers (cmd.reportProtection verb b) (cmd.reportProtection verb' b).
Proof. unfold cmd.reportProtection, cmd.println. alike. Qed.

Lemma createRepo_dry_prints org repo :
  exists l, prints (cmd.createRepo org repo true) l.
Proof.
  assert (H : sameMarkers (cmd.createRepo org repo true) (cmd.createRepo org repo true)).
  { unfold cmd.createRepo, cmd.println. cbv zeta.
    apply sameMarkers_bind; [apply sameMarkers_print; reflexivity|intros _].
    apply sameMarkers_bind; [apply sameMarkers_print; reflexivity|intros _].
    apply sameMarkers_reportState. }
  destruct H as (l & _ & H & _). eauto.
Qed.

Lemma write_run rq format (st : State) :
  clt.write rq format st =
    (match github.err (fst (roundTrip (world st) rq)) with
     | Some e => Error (if github.isRateLimitError e then clt.hitRateLimit
                        else client.Errorf format (Some e))
     | None => Ok tt
     end,
     mkState (snd (roundTrip (world st) rq))
             (calls st ++ [(rq, fst (roundTrip (world st) rq))])
             (output st) (manifest st) (queue st)).
Proof.
  unfold clt.write. rewrite bind_call.
  destruct (github.err _) as [e|]; [destruct (github.isRateLimitError e)|]; reflexivity.
Qed.

(** Property X10.  The dry run of [createRepo] previews the creation: it
    succeeds without any call and queues nothing; the apply run makes
    exactly one call, the creation with the state built from the manifest
    repository.  When that call succeeds, the apply run succeeds and the two
    reports carry the same markers line by line; when it fails, the apply
    run fails and reports nothing. *)
Theorem createRepo_dry_run_previews_the_creation org repo (st : State) :
  let rq := github.Repositories_Create org (cmd.createState repo) in
  let dry := cmd.createRepo org repo true st in
  let apply := cmd.createRepo org repo false st in
  (fst dry = Ok tt /\ calls (snd dry) = calls st /\ queue (snd dry) = queue st) /\
  requests (snd apply) = requests st ++ [rq] /\
  (github.err (fst (roundTrip (world st) rq)) = None ->
     fst apply = Ok tt /\
     map marker (output (snd apply)) = map marker (output (snd dry))) /\
  (github.err (fst (roundTrip (world st) rq)) <> None ->
     fst apply <> Ok tt /\ output (snd apply) = output st).
Proof.
  intros rq dry apply.
  assert (Hrest : sameMarkers
            (print (report.Warn ("created repo " ++ gh_pb.Repository.Name repo)) ;;
             cmd.println ;; cmd.reportState "set" (cmd.createState repo))
            (print (report.Warn ("creating repo " ++ gh_pb.Repository.Name repo)) ;;
             cmd.println ;; cmd.reportState "setting" (cmd.createState repo))).
  { unfold cmd.println.
    apply sameMarkers_bind; [apply sameMarkers_print; reflexivity|intros _].
    apply sameMarkers_bind; [apply sameMarkers_print; reflexivity|intros _].
    apply sameMarkers_reportState. }
  destruct Hrest as (la & ld & Ha & Hd & E).
  assert (Edry : dry = (Ok tt, mkState (world st) (calls st) (output st ++ ld)
                                       (manifest st) (queue st))).
  { subst dry. unfold cmd.createRepo. cbv zeta. apply Hd. }
  assert (Eapply : apply =
            match github.err (fst (roundTrip (world st) rq)) with
            | Some e => (Error (if github.isRateLimitError e then clt.hitRateLimit
                                else client.Errorf "create repo: %w" (Some e)),
                         mkState (snd (roundTrip (world st) rq))
                                 (calls st ++ [(rq, fst (roundTrip (world st) rq))])
                                 (output st) (manifest st) (queue st))
            | None => (Ok tt,
                       mkState (snd (roundTrip (world st) rq))
                               (calls st ++ [(rq, fst (roundTrip (world st) rq))])
                               (output st ++ la) (manifest st) (queue st))
            end).
  { subst apply. unfold cmd.createRepo. cbv zeta. rewrite bind_run.
    unfold clt.CreateRepo. rewrite write_run. fold rq. cbn [fst snd].
    destruct (github.err _) as [e|]; [reflexivity|]. now rewrite Ha. }
  rewrite Edry, Eapply. cbn [fst snd calls queue output].
  split; [repeat split|]. split; [|split].
  - destruct (github.err _); apply requests_app_call.
  - intros ->. cbn [fst snd output]. split; [reflexivity|]. now rewrite !map_app, E.
  - intros H. destruct (github.err _) as [e|]; [|congruence]. cbn [fst snd output].
    split; [discriminate|reflexivity].
Qed.

End MarkerFacts.

Section NilDereferences.
Context {P : Provider}.

Lemma bind_ok {A B} (m : M A) (k : A -> M B) st b :
  fst (bind m k st) = Ok b ->
  exists a, fst (m st) = Ok a /\ fst (k a (snd (m st))) = Ok b.
Proof.
  rewrite bind_run. destruct (fst (m st)) as [a|e| |]; try discriminate. eauto.
Qed.

Lemma ensureTopics_nil org ptr repo dry (st : State) :
  gh_pb.Repository.Labels repo <> [] ->
  cmd.ensureTopics org ptr repo None dry st = (Panic, st).
Proof.
  intros H. unfold cmd.ensureTopics.
  destruct (gh_pb.Repository.Labels repo); [congruence|reflexivity].
Qed.

Lemma GetRepo_notFound org name (st : State) :
  notFound (fst (roundTrip (world st) (github.Repositories_Get org name))) ->
  fst (clt.GetRepo org name st) = Error client.ErrRepoNotFound.
Proof.
  intros (r & e & Hresp & Hstatus & Herr & Hrl).
  unfold clt.GetRepo. rewrite bind_call. unfold clt.classify. rewrite Herr, Hrl.
  unfold bind. rewrite Hresp. cbn [StatusCode ret]. now rewrite Hstatus.
Qed.

(** Property X11.  A manifest repository that has labels and does not
    exist remotely is never reconciled: after the not-found lookup
    [ensureRepo] keeps the nil repository, which [ensureTopics]
    dereferences.  The dry run panics; the apply run never succeeds (it
    fails in the creation or in the update, or panics). *)
Theorem missing_repo_with_labels_is_never_reconciled org ptr repo (st : State) :
  notFound (fst (roundTrip (world st)
                   (github.Repositories_Get org (gh_pb.Repository.Name repo)))) ->
  gh_pb.Repository.Labels repo <> [] ->
  fst (cmd.ensureRepo org ptr repo true st) = Panic /\
  fst (cmd.ensureRepo org ptr repo false st) <> Ok tt /\
  forall dry st', cmd.ensureTopics org ptr repo None dry st' = (Panic, st').
Proof.
  intros Hnf Hl.
  pose proof (GetRepo_notFound org _ st Hnf) as Hget.
  assert (Hatt : exists st1, attempt (clt.GetRepo org (gh_pb.Repository.Name repo)) st
                             = (Ok (inr client.ErrRepoNotFound), st1)).
  { unfold attempt. destruct (clt.GetRepo _ _ st) as [[g|e| |] st1]; simpl in Hget;
      try discriminate. injection Hget as ->. eauto. }
  destruct Hatt as (st1 & Hatt).
  split; [|split].
  - unfold cmd.ensureRepo. rewrite bind_run, Hatt. cbn [fst snd errors.Is negb].
    destruct (createRepo_dry_prints org repo) as (l & E2).
    pose proof (E2 st1) as E2'.
    rewrite bind_run. rewrite bind_run. rewrite E2'. cbn [fst snd ret]. cbv zeta.
    set (st2 := mkState (world st1) (calls st1) (output st1 ++ l) (manifest st1) (queue st1)).
    rewrite bind_run.
    destruct (quiet_reportEdits "updating" (cmd.edits repo None) st2) as (st3 & E3 & _).
    rewrite E3. cbn [fst snd]. rewrite bind_run. now rewrite ensureTopics_nil.
  - intros H. unfold cmd.ensureRepo in H.
    apply bind_ok in H as (r & H1 & H). rewrite Hatt in H1, H. cbn [fst snd] in H1, H.
    injection H1 as <-. cbn [errors.Is negb] in H.
    apply bind_ok in H as (ghr & H1 & H).
    apply bind_ok in H1 as (u & _ & H1). cbn [ret fst] in H1. injection H1 as <-.
    cbv zeta in H. apply bind_ok in H as (u' & _ & H).
    apply bind_ok in H as (u'' & H & _).
    rewrite ensureTopics_nil in H by exact Hl. discriminate.
  - intros dry st'. now apply ensureTopics_nil.
Qed.

Lemma managedMember_some people p login :
  github.User.Login p = Some login -> exists b, cmd.managedMember people p = Some b.
Proof.
  intros H. induction people as [|mm people IH]; simpl; [eauto|]. rewrite H.
  destruct (strings.EqualFold _ login); eauto.
Qed.

Lemma forEach_panics {A} (body : A -> M unit) (bad : A -> Prop) l :
  (forall x st, bad x -> body x st = (Panic, st)) ->
  (forall x st, ~ bad x ->
     exists st', body x st = (Ok tt, st') /\ calls st' = calls st /\ queue st' = queue st) ->
  (forall x, bad x \/ ~ bad x) ->
  (exists x, In x l /\ bad x) ->
  forall st, fst (cmd.forEach l body st) = Panic /\
             calls (snd (cmd.forEach l body st)) = calls st /\
             queue (snd (cmd.forEach l body st)) = queue st.
Proof.
  intros Hbad Hgood Hdec. induction l as [|x l IH]; intros (y & Hin & Hy) st.
  - destruct Hin.
  - cbn [cmd.forEach]. rewrite bind_run. destruct (Hdec x) as [Hx|Hx].
    + rewrite (Hbad x st Hx). repeat split.
    + destruct (Hgood x st Hx) as (st' & E & C & Q). rewrite E. cbn [fst snd].
      assert (Hin' : exists z, In z l /\ bad z).
      { destruct Hin as [->|Hin]; [contradiction|eauto]. }
      destruct (IH Hin' st') as (H1 & H2 & H3). rewrite H1, H2, H3. repeat split; assumption.
Qed.

Lemma membersLoop_nil_login people ps :
  people <> [] ->
  (exists p, In p ps /\ github.User.Login p = None) ->
  forall st : State,
    let run := cmd.forEach ps (fun p =>
      managed <- cmd.orPanic (cmd.managedMember people p) ;;
      (if negb managed then
         print (report.Warn (github.User.GetLogin p ++ " exists in github but not in manifest"))
       else
         print (report.Info (github.User.GetLogin p ++ " exists in github"))) ;;
      cmd.println) st in
    fst run = Panic /\ calls (snd run) = calls st /\ queue (snd run) = queue st.
Proof.
  intros Hpeople Hnil st. cbv zeta.
  apply (forEach_panics _ (fun p => github.User.Login p = None)); [| | |exact Hnil].
  - intros p s El.
    assert (Hm : cmd.managedMember people p = None).
    { destruct people; [congruence|]. simpl. now rewrite El. }
    rewrite bind_run, Hm. reflexivity.
  - intros p s El. destruct (github.User.Login p) as [login|] eqn:E; [|congruence].
    destruct (managedMember_some people p login E) as (b & Hb).
    rewrite bind_run, Hb. cbn [cmd.orPanic ret fst snd].
    destruct b; cbn [negb]; eexists; (split; [reflexivity|split; reflexivity]).
  - intros p. destruct (github.User.Login p); [right; discriminate|now left].
Qed.

(** Property X17.  [managedMember] dereferences the login of a remote
    member: when the listing succeeds, the manifest lists at least one
    person and some remote member has no login, the member step panics
    after its one call, before any invitation is queued. *)
Theorem member_without_login_panics (dry : bool) (st : State) :
  let rq := github.Organizations_ListMembers (gh_pb.Organization.Name (manifest st)) in
  let a := fst (roundTrip (world st) rq) in
  github.err a = None ->
  gh_pb.Organization.People (manifest st) <> [] ->
  (exists p, In p (github.asUsers (github.payload a)) /\ github.User.Login p = None) ->
  fst (cmd.membersRun dry st) = Panic /\
  requests (snd (cmd.membersRun dry st)) = requests st ++ [rq] /\
  queue (snd (cmd.membersRun dry st)) = queue st.
Proof.
  intros rq a Herr Hpeople Hnil.
  unfold cmd.membersRun, cmd.println, clt.GetMembers.
  rewrite bind_run. cbn [getManifest fst snd].
  rewrite bind_run. cbn [print fst snd].
  rewrite bind_run. cbn [print fst snd].
  rewrite bind_run. cbn [print fst snd].
  rewrite bind_run. rewrite bind_call. cbn [world]. fold rq. fold a. rewrite Herr.
  cbn [ret fst snd]. rewrite bind_run.
  match goal with |- context [cmd.forEach _ ?body ?s] =>
    destruct (membersLoop_nil_login _ _ Hpeople Hnil s) as (H1 & H2 & H3) end.
  cbv zeta in H1, H2, H3. unfold cmd.println in H1, H2, H3. rewrite H1.
  cbn [fst snd]. unfold requests. rewrite H2, H3. cbn [calls queue].
  rewrite map_app. repeat split.
Qed.

End NilDereferences.

Section Protection.
Context {P : Provider}.

Lemma GetBranchProtection_run org repo branch (st : State) :
  let rq := github.Repositories_GetBranchProtection org repo branch in
  let a := fst (roundTrip (world st) rq) in
  let st1 := mkState (snd (roundTrip (world st) rq)) (calls st ++ [(rq, a)])
                     (output st) (manifest st) (queue st) in
  (github.err a = None ->
   clt.GetBranchProtection org repo branch st
   = (Ok (github.asProtection (github.payload a)), st1)) /\
  (notFound a ->
   clt.GetBranchProtection org repo branch st
   = (Error client.ErrBranchProtectionNotFound, st1)).
Proof.
  intros rq a st1. unfold clt.GetBranchProtection. rewrite bind_call. fold rq. fold a.
  fold st1. unfold clt.classify. split.
  - intros ->. reflexivity.
  - intros (r & e & Hresp & Hstatus & Herr & Hrl). rewrite Herr, Hrl.
    unfold bind. rewrite Hresp. cbn [StatusCode ret]. now rewrite Hstatus.
Qed.

(** Property X15.  Signed commits.  When the manifest does not set the
    flag, [ensureSignedCommits] does nothing.  When it sets it and the
    protection lookup succeeds, a dry run makes no other call, and an apply
    run makes the signature call exactly when the flag differs from the
    remote setting (a nil protection counts as disabled), also when the
    manifest asks for false and the remote has signatures enabled. *)
Theorem ensureSignedCommits_follows_the_remote_setting org repo branch (st : State) :
  let rq := github.Repositories_GetBranchProtection
              org (gh_pb.Repository.Name repo) (gh_pb.Branch.Name branch) in
  let a := fst (roundTrip (world st) rq) in
  let enabled := github.SignaturesProtectedBranch.GetEnabled
                   (github.Protection.GetRequiredSignatures
                      (github.asProtection (github.payload a))) in
  (gh_pb.Protection.SignedCommits (gh_pb.Branch.Protection branch) = None ->
   forall dry, cmd.ensureSignedCommits org repo branch dry st = (Ok tt, st)) /\
  (forall signed,
     gh_pb.Protection.SignedCommits (gh_pb.Branch.Protection branch) = Some signed ->
     github.err a = None ->
     requests (snd (cmd.ensureSignedCommits org repo branch true st)) = requests st ++ [rq] /\
     requests (snd (cmd.ensureSignedCommits org repo branch false st))
     = requests st ++ rq ::
         (if Bool.eqb enabled signed then []
          else [github.Repositories_RequireSignaturesOnProtectedBranch
                  org (gh_pb.Repository.Name repo) (gh_pb.Branch.Name branch)])).
Proof.
  intros rq a enabled. split.
  - intros H dry. unfold cmd.ensureSignedCommits. now rewrite H.
  - intros signed Hs Herr.
    destruct (GetBranchProtection_run org (gh_pb.Repository.Name repo)
                (gh_pb.Branch.Name branch) st) as [Hget _].
    cbv zeta in Hget. fold rq in Hget. fold a in Hget. specialize (Hget Herr).
    unfold cmd.ensureSignedCommits. rewrite Hs. rewrite !bind_run, Hget.
    cbn [fst snd]. fold enabled.
    set (st1 := mkState _ _ _ _ _).
    assert (H1 : requests st1 = requests st ++ [rq]) by apply requests_app_call.
    destruct (Bool.eqb enabled signed); cbn [negb].
    + unfold cmd.println, bind, print. cbn [snd]. split; exact H1.
    + split.
      * unfold cmd.println, bind, print. cbn [snd]. exact H1.
      * rewrite bind_run. unfold clt.RequireSignedCommits. rewrite write_run.
        cbn [fst snd]. set (st2 := mkState _ (calls st1 ++ _) _ _ _).
        assert (H2 : requests st2 = requests st ++
                  [rq; github.Repositories_RequireSignaturesOnProtectedBranch
                         org (gh_pb.Repository.Name repo) (gh_pb.Branch.Name branch)]).
        { unfold st2. rewrite requests_app_call, H1, <- app_assoc. reflexivity. }
        destruct (github.err (fst (roundTrip (world st1) _))); [exact H2|].
        unfold cmd.println, bind, print. cbn [snd]. exact H2.
Qed.

Lemma protectionRequest_flagsRaised b :
  cmd.protectionRequest (flagsRaised b) = cmd.protectionRequest b.
Proof.
  unfold cmd.protectionRequest, flagsRaised. cbv zeta.
  cbn [gh_pb.Branch.Protection gh_pb.Protection.RequirePr gh_pb.Protection.ChecksMustPass
       gh_pb.Protection.RequiredChecks].
  now destruct (gh_pb.Protection.RequirePr _), (gh_pb.Protection.ChecksMustPass _).
Qed.

(** Property X14.  An apply run rewrites the protection of a declared
    branch whether or not the branch is protected already: when the
    protection lookup for the first declared branch succeeds or is answered
    not-found, the next call is the protection update for that branch.  Its
    request is built from which flags the manifest sets, not from their
    values: it is the request of the branch with each set flag raised to
    true. *)
Theorem protection_is_rewritten_on_every_apply org repo ghr pb bs (st : State) :
  let name := gh_pb.Repository.Name repo in
  let rq := github.Repositories_GetBranchProtection org name (gh_pb.Branch.Name pb) in
  let a := fst (roundTrip (world st) rq) in
  gh_pb.Repository.ProtectedBranches repo = pb :: bs ->
  github.err a = None \/ notFound a ->
  exists rest,
    requests (snd (cmd.ensureProtectedBranches org repo ghr false st)) =
      requests st ++
      [rq; github.Repositories_UpdateBranchProtection
             org name (gh_pb.Branch.Name pb) (cmd.protectionRequest (flagsRaised pb))]
      ++ rest.
Proof.
  intros name rq a Hbs Hcase. rewrite protectionRequest_flagsRaised.
  destruct (GetBranchProtection_run org name (gh_pb.Branch.Name pb) st) as [Hok Hnf].
  cbv zeta in Hok, Hnf. fold rq in Hok, Hnf. fold a in Hok, Hnf.
  set (st1 := mkState (snd (roundTrip (world st) rq)) (calls st ++ [(rq, a)])
                      (output st) (manifest st) (queue st)) in *.
  set (wr := github.Repositories_UpdateBranchProtection
               org name (gh_pb.Branch.Name pb) (cmd.protectionRequest pb)).
  assert (H1 : requests st1 = requests st ++ [rq]) by apply requests_app_call.
  assert (Hwrite : forall s (k : M unit), guarded k -> requests s = requests st ++ [rq] ->
            exists rest,
              requests (snd (bind (clt.ProtectBranch org name (gh_pb.Branch.Name pb)
                                     (cmd.protectionRequest pb)) (fun _ => k) s))
              = requests st ++ [rq; wr] ++ rest).
  { intros s k Hk Hs. rewrite bind_run. unfold clt.ProtectBranch. rewrite write_run.
    fold wr. cbn [fst snd].
    set (s2 := mkState _ (calls s ++ _) _ _ _).
    assert (H2 : requests s2 = requests st ++ [rq; wr]).
    { unfold s2. rewrite requests_app_call, Hs, <- app_assoc. reflexivity. }
    destruct (github.err (fst (roundTrip (world s) wr))).
    - exists []. now rewrite app_nil_r.
    - destruct (guarded_extends k s2 Hk) as (rest & Hrest). exists rest.
      rewrite Hrest, H2, <- app_assoc. reflexivity. }
  set (body := fun pb0 : gh_pb.Branch.t =>
         r <- attempt (clt.GetBranchProtection org (gh_pb.Repository.Name repo)
                                               (gh_pb.Branch.Name pb0)) ;;
         match r with
         | inr e =>
             if errors.Is e client.ErrBranchProtectionNotFound
             then cmd.createProtectedBranch org repo pb0 false
             else throw e
         | inl _ => cmd.UpdateBranchProtection org repo pb0 false
         end).
  assert (Hrest : guarded (cmd.forEach bs body)).
  { apply guarded_forEach. intros pb0. apply guarded_attempt.
    - apply guarded_GetBranchProtection.
    - intros [p|e].
      + apply guarded_UpdateBranchProtection.
      + destruct (errors.Is e _); [apply guarded_createProtectedBranch|].
        apply guarded_silent; intros; reflexivity.
    - intros e He. exists e. split; [exact He|]. intros s.
      apply recoverable_false in He as (_ & He & _). now rewrite He. }
  assert (Hfirst : exists rest,
            requests (snd (body pb st)) = requests st ++ [rq; wr] ++ rest).
  { unfold body. rewrite bind_run. unfold attempt. fold name. destruct Hcase as [Herr|Hmiss].
    - rewrite (Hok Herr). cbn [fst snd].
      unfold cmd.UpdateBranchProtection, cmd.println. cbv zeta. fold name.
      rewrite bind_run. cbn [print fst snd]. rewrite bind_run. cbn [print fst snd].
      apply Hwrite.
      + apply guarded_bind; [apply guarded_reportProtection|intros _].
        apply guarded_ensureSignedCommits.
      + exact H1.
    - rewrite (Hnf Hmiss). cbn [fst snd errors.Is].
      unfold cmd.createProtectedBranch, cmd.println. cbv zeta. fold name.
      apply Hwrite.
      + apply guarded_bind; [apply guarded_silent; intros; reflexivity|intros _].
        apply guarded_bind; [apply guarded_silent; intros; reflexivity|intros _].
        apply guarded_bind; [apply guarded_reportProtection|intros _].
        apply guarded_ensureSignedCommits.
      + exact H1. }
  unfold cmd.ensureProtectedBranches. rewrite Hbs. fold body.
  change (cmd.forEach (pb :: bs) body) with (body pb ;; cmd.forEach bs body).
  rewrite bind_run. destruct Hfirst as (rest & Hfirst).
  destruct (fst (body pb st)); cbn [snd]; try (exists rest; exact Hfirst).
  destruct (guarded_extends (cmd.forEach bs body) (snd (body pb st)) Hrest) as (more & Hmore).
  exists (rest ++ more). cbv beta. rewrite Hmore, Hfirst, <- !app_assoc. reflexivity.
Qed.

End Protection.

Section AskingFacts.
Context {P : Provider}.

Lemma asksOnly_silent {A} ok (m : M A) :
  (forall st, calls (snd (m st)) = calls st) -> asksOnly ok m.
Proof.
  intros H st. exists []. unfold requests. rewrite H, app_nil_r. now split.
Qed.

Lemma asksOnly_bind {A B} ok (m : M A) (k : A -> M B) :
  asksOnly ok m -> (forall a, asksOnly ok (k a)) -> asksOnly ok (bind m k).
Proof.
  intros Hm Hk st. destruct (Hm st) as (l1 & E1 & F1). rewrite bind_run.
  destruct (fst (m st)) as [a|e| |]; cbn [snd]; try (exists l1; now split).
  destruct (Hk a (snd (m st))) as (l2 & E2 & F2).
  exists (l1 ++ l2). rewrite E2, E1, <- app_assoc, forallb_app, F1, F2. now split.
Qed.

Lemma asksOnly_attempt {A} ok (m : M A) : asksOnly ok m -> asksOnly ok (attempt m).
Proof.
  intros Hm st. destruct (Hm st) as (l & E & F). exists l. split; [|exact F].
  unfold attempt. destruct (m st) as [[a|e| |] st']; exact E.
Qed.

Lemma asksOnly_call {B} ok rq (k : github.Answer -> M B) :
  ok rq = true -> (forall a, asksOnly ok (k a)) -> asksOnly ok (bind (call rq) k).
Proof.
  intros Hrq Hk st. rewrite bind_call.
  match goal with |- context [k ?a ?s] => destruct (Hk a s) as (l & E & F) end.
  exists (rq :: l). rewrite E, requests_app_call, <- app_assoc. split; [reflexivity|].
  simpl. now rewrite Hrq, F.
Qed.

Lemma asksOnly_write ok rq format : ok rq = true -> asksOnly ok (clt.write rq format).
Proof.
  intros Hrq st. exists [rq]. rewrite write_requests. split; [reflexivity|].
  simpl. now rewrite Hrq.
Qed.

Lemma asksOnly_forEach {A} ok (l : list A) (body : A -> M unit) :
  (forall x, In x l -> asksOnly ok (body x)) -> asksOnly ok (cmd.forEach l body).
Proof.
  induction l as [|x l IH]; intros H; simpl.
  - apply asksOnly_silent. reflexivity.
  - apply asksOnly_bind; [apply H; now left|intros _]. apply IH. intros y Hy. apply H. now right.
Qed.

Lemma asksOnly_forEachAt {A} ok (l : list A) (body : nat -> A -> M unit) :
  (forall i x, In x l -> asksOnly ok (body i x)) ->
  forall i, asksOnly ok (cmd.forEachAt i l body).
Proof.
  induction l as [|x l IH]; intros H i; simpl.
  - apply asksOnly_silent. reflexivity.
  - apply asksOnly_bind; [apply H; now left|intros _]. apply IH. intros j y Hy. apply H. now right.
Qed.

Lemma asksOnly_weaken {A} (ok ok' : github.Request -> bool) (m : M A) :
  (forall rq, ok rq = true -> ok' rq = true) -> asksOnly ok m -> asksOnly ok' m.
Proof.
  intros Hw Hm st. destruct (Hm st) as (l & E & F). exists l. split; [exact E|].
  rewrite forallb_forall in *. auto.
Qed.

Lemma asksOnly_prints ok (m : M unit) : quiet m -> asksOnly ok m.
Proof.
  intros H. apply asksOnly_silent. intros st. destruct (H st) as (st' & E & _ & C & _).
  now rewrite E.
Qed.

Lemma asksOnly_classify {A} ok a nf format (v : A) : asksOnly ok (clt.classify a nf format v).
Proof.
  apply asksOnly_silent. intros st. unfold clt.classify.
  destruct (github.err a) as [e|]; [|reflexivity].
  destruct (github.isRateLimitError e); [reflexivity|].
  unfold bind. destruct (github.resp a); cbn [StatusCode ret panic]; [|reflexivity].
  now destruct (_ =? _)%Z.
Qed.

End AskingFacts.

Ltac asks :=
  repeat first
    [ apply asksOnly_prints, quiet_reportEdits
    | apply asksOnly_prints, quiet_reportProtection
    | apply asksOnly_prints, quiet_print
    | apply asksOnly_prints, quiet_ret
    | apply asksOnly_prints, quiet_setLabels
    | apply asksOnly_classify
    | apply asksOnly_silent; intros; reflexivity
    | apply asksOnly_bind; [|intros ?] ].

Section Touching.
Context {P : Provider}.


Lemma declaresBranch_In r pb :
  In pb (gh_pb.Repository.ProtectedBranches r) ->
  declaresBranch r (gh_pb.Branch.Name pb) = true.
Proof.
  intros H. unfold declaresBranch. apply existsb_exists. exists pb.
  split; [exact H|apply String.eqb_refl].
Qed.

Lemma asksOnly_reportState ok verb s : asksOnly ok (cmd.reportState verb s).
Proof.
  destruct (sameMarkers_reportState verb verb s) as (l & _ & H & _).
  apply asksOnly_silent. intros st. now rewrite H.
Qed.

Lemma asksOnly_ensureSignedCommits dry org r pb :
  In pb (gh_pb.Repository.ProtectedBranches r) ->
  asksOnly (touches dry org r) (cmd.ensureSignedCommits org r pb dry).
Proof.
  intros Hin. pose proof (declaresBranch_In r pb Hin) as Hb.
  unfold cmd.ensureSignedCommits, cmd.println.
  destruct (gh_pb.Protection.SignedCommits _) as [signed|]; [|asks].
  apply asksOnly_bind.
  - unfold clt.GetBranchProtection. apply asksOnly_call; [|intros a; asks].
    cbn [touches]. now rewrite !String.eqb_refl, Hb.
  - intros ghpb. destruct (negb _); [|asks]. destruct dry; [asks|].
    apply asksOnly_bind; [|intros _; asks].
    apply asksOnly_write. cbn [touches negb]. now rewrite !String.eqb_refl, Hb.
Qed.

Lemma asksOnly_ensureProtectedBranches dry org r ghr :
  asksOnly (touches dry org r) (cmd.ensureProtectedBranches org r ghr dry).
Proof.
  unfold cmd.ensureProtectedBranches. apply asksOnly_forEach. intros pb Hin.
  pose proof (declaresBranch_In r pb Hin) as Hb.
  apply asksOnly_bind.
  - apply asksOnly_attempt. unfold clt.GetBranchProtection.
    apply asksOnly_call; [|intros a; asks].
    cbn [touches]. now rewrite !String.eqb_refl, Hb.
  - intros [p|e].
    + unfold cmd.UpdateBranchProtection, cmd.println. cbv zeta.
      do 2 (apply asksOnly_bind; [asks|intros _]).
      destruct dry.
      * apply asksOnly_bind; [asks|intros _]. now apply asksOnly_ensureSignedCommits.
      * apply asksOnly_bind.
        { apply asksOnly_write. cbn [touches negb]. now rewrite !String.eqb_refl, Hb. }
        intros _. apply asksOnly_bind; [asks|intros _].
        now apply asksOnly_ensureSignedCommits.
    + destruct (errors.Is e _); [|asks].
      unfold cmd.createProtectedBranch, cmd.println. cbv zeta. destruct dry.
      * do 3 (apply asksOnly_bind; [asks|intros _]). now apply asksOnly_ensureSignedCommits.
      * apply asksOnly_bind.
        { apply asksOnly_write. cbn [touches negb]. now rewrite !String.eqb_refl, Hb. }
        intros _. do 3 (apply asksOnly_bind; [asks|intros _]).
        now apply asksOnly_ensureSignedCommits.
Qed.

Lemma asksOnly_ensureRepo dry org ptr r :
  asksOnly (touches dry org r) (cmd.ensureRepo org ptr r dry).
Proof.
  unfold cmd.ensureRepo. apply asksOnly_bind.
  - apply asksOnly_attempt. unfold clt.GetRepo. apply asksOnly_call; [|intros a; asks].
    cbn [touches]. now rewrite !String.eqb_refl.
  - intros res. apply asksOnly_bind.
    + destruct res as [ghr|e]; [asks|]. destruct (negb _); [asks|].
      apply asksOnly_bind; [|intros _; asks].
      unfold cmd.createRepo, cmd.println. cbv zeta. destruct dry.
      * do 2 (apply asksOnly_bind; [asks|intros _]). apply asksOnly_reportState.
      * apply asksOnly_bind.
        { apply asksOnly_write. cbn [touches negb cmd.createState github.Repository.Name].
          now rewrite !String.eqb_refl. }
        intros _. do 2 (apply asksOnly_bind; [asks|intros _]). apply asksOnly_reportState.
    + intros ghr. cbv zeta. apply asksOnly_bind.
      * destruct dry; [asks|]. apply asksOnly_bind; [|intros _; asks].
        apply asksOnly_write. cbn [touches negb]. now rewrite !String.eqb_refl.
      * intros _. apply asksOnly_bind; [|intros _; apply asksOnly_ensureProtectedBranches].
        unfold cmd.ensureTopics, cmd.println.
        destruct (_ =? 0)%nat; [asks|]. destruct ghr as [g|]; [|asks]. cbv zeta.
        apply asksOnly_bind; [asks|intros _].
        destruct (negb _); [|asks]. destruct dry; [asks|].
        apply asksOnly_bind; [|intros _; asks].
        apply asksOnly_write. cbn [touches negb]. now rewrite !String.eqb_refl.
Qed.

(** Property X13.  [reposRun] touches only what the manifest declares:
    whatever the remote answers, every call it makes names the organization
    of the manifest and one of its repositories; it is the lookup of that
    repository, the lookup of the protection of a branch declared for it or,
    in an apply run only, a creation, an update, a set-topics, a protection
    or a signature call on them. *)
Theorem reposRun_touches_only_what_the_manifest_declares (dry : bool) (st : State) :
  exists l,
    requests (snd (cmd.reposRun dry st)) = requests st ++ l /\
    forallb (touchesManifest dry (manifest st)) l = true.
Proof.
  set (org := manifest st).
  assert (H : asksOnly (touchesManifest dry org)
                (cmd.println ;; print (report.Header "Repos") ;; cmd.println ;;
                 cmd.forEachAt 0 (gh_pb.Organization.Repositories org) (fun ptr r =>
                   cmd.println ;; print (report.Header (gh_pb.Repository.Name r)) ;;
                   cmd.println ;;
                   cmd.ensureRepo (gh_pb.Organization.Name org) ptr r dry))).
  { unfold cmd.println. do 3 (apply asksOnly_bind; [asks|intros _]).
    apply asksOnly_forEachAt. intros i r Hin.
    do 3 (apply asksOnly_bind; [asks|intros _]).
    apply asksOnly_weaken with (ok := touches dry (gh_pb.Organization.Name org) r).
    - intros rq Hrq. unfold touchesManifest. apply existsb_exists. eauto.
    - apply asksOnly_ensureRepo. }
  unfold cmd.reposRun. rewrite bind_run. cbn [getManifest fst snd]. apply H.
Qed.

End Touching.

Section Route.
Context {P : Provider}.

Lemma asksOnly_GetRepos_loop (name : string) (orgFound : bool) : forall fuel page repos,
  asksOnly (if orgFound then listsOrg name else listsUser name)
           (clt.GetRepos_loop fuel name orgFound page repos).
Proof.
  induction fuel as [|fuel IH]; intros page repos; cbn [clt.GetRepos_loop].
  - apply asksOnly_silent. reflexivity.
  - apply asksOnly_call.
    + destruct orgFound; cbn [listsOrg listsUser]; apply String.eqb_refl.
    + intros a. destruct (github.err a) as [e|].
      * destruct (github.isRateLimitError e); apply asksOnly_silent; reflexivity.
      * cbv zeta. apply asksOnly_bind.
        { apply asksOnly_silent. intros st. now destruct (github.resp a). }
        intros next. destruct (next =? 0)%Z; [apply asksOnly_silent; reflexivity|apply IH].
Qed.

(** Property X4.  The probe decides the route of the listing.  When the
    organization probe is answered with a response: on a 404 the next call
    is the user probe and every later call lists the repositories of the
    user; otherwise every later call lists those of the organization. *)
Theorem GetRepos_lists_the_account_found (fuel : nat) (name : string) (st : State) r :
  let a := fst (roundTrip (world st) (github.Organizations_Get name)) in
  github.resp a = Some r ->
  exists l,
    requests (snd (clt.GetRepos fuel name st))
    = requests st ++ github.Organizations_Get name :: l /\
    if (github.Response.StatusCode r =? http.StatusNotFound)%Z
    then exists l', l = github.Users_Get name :: l' /\ forallb (listsUser name) l' = true
    else forallb (listsOrg name) l = true.
Proof.
  intros a Hresp. unfold clt.GetRepos. rewrite bind_call. fold a. rewrite Hresp.
  set (st1 := mkState _ _ _ _ _).
  assert (H1 : requests st1 = requests st ++ [github.Organizations_Get name])
    by apply requests_app_call.
  assert (Hloop : forall orgFound count s,
            exists l, requests (snd ((if (count <? 1)%Z then throw client.ErrNoReposFound
                                      else clt.GetRepos_loop fuel name orgFound 0 []) s))
                      = requests s ++ l /\
                      forallb (if orgFound then listsOrg name else listsUser name) l = true).
  { intros orgFound count s. destruct (count <? 1)%Z.
    - exists []. now rewrite app_nil_r.
    - apply asksOnly_GetRepos_loop. }
  rewrite bind_run. cbn [StatusCode ret fst snd].
  destruct (_ =? _)%Z.
  - rewrite bind_run. rewrite bind_call.
    set (st2 := mkState _ (calls st1 ++ _) _ _ _).
    assert (H2 : requests st2 = requests st ++
              [github.Organizations_Get name; github.Users_Get name]).
    { unfold st2. rewrite requests_app_call, H1, <- app_assoc. reflexivity. }
    destruct (github.err (fst (roundTrip (world st1) _))) as [e|].
    + exists [github.Users_Get name]. split.
      * destruct (github.isRateLimitError e); exact H2.
      * exists []. now split.
    + cbn [ret fst snd].
      match goal with |- context [clt.GetRepos_loop fuel name ?b 0 []] =>
        match goal with |- context [(?c <? 1)%Z] =>
          destruct (Hloop b c st2) as (l & El & Fl) end end.
      exists (github.Users_Get name :: l). split.
      * rewrite El, H2, <- app_assoc. reflexivity.
      * exists l. now split.
  - rewrite bind_run. cbn [ret fst snd].
    match goal with |- context [clt.GetRepos_loop fuel name ?b 0 []] =>
      match goal with |- context [(?c <? 1)%Z] =>
        destruct (Hloop b c st1) as (l & El & Fl) end end.
    exists l. split; [|exact Fl]. rewrite El, H1, <- app_assoc. reflexivity.
Qed.

End Route.

(** Property X4 at a concrete input. *)
Lemma GetRepos_lists_the_account_found_witness :
  let st := sim.start userRemote example.sortedManifest in
  requests (snd (clt.GetRepos 1 "acme" st)) =
    [github.Organizations_Get "acme"; github.Users_Get "acme";
     github.Repositories_List "acme" (clt.listOpts 0)] /\
  exists l,
    requests (snd (clt.GetRepos 1 "acme" st)) = github.Organizations_Get "acme" :: l /\
    exists l', l = github.Users_Get "acme" :: l' /\ forallb (listsUser "acme") l' = true.
Proof.
  intros st. split; [reflexivity|].
  exact (GetRepos_lists_the_account_found (P := sim.github_com) 1 "acme" st
           (github.Response.mk 404 0) eq_refl).
Defined.

Section ApplyOrder.
Context {P : Provider}.

Lemma membersRun_failure_keeps_queue (dry : bool) (st : State) :
  fst (cmd.membersRun dry st) <> Ok tt ->
  queue (snd (cmd.membersRun dry st)) = queue st.
Proof.
  unfold cmd.membersRun, cmd.println, clt.GetMembers.
  rewrite bind_run. cbn [getManifest fst snd].
  rewrite bind_run. cbn [print fst snd].
  rewrite bind_run. cbn [print fst snd].
  rewrite bind_run. cbn [print fst snd].
  rewrite bind_run. rewrite bind_call. cbn [world manifest].
  destruct (github.err _) as [e|]; [reflexivity|]. cbn [ret fst snd].
  set (st1 := mkState _ _ _ _ _).
  rewrite bind_run.
  match goal with |- context [cmd.forEach ?ps ?body st1] =>
    assert (Hloop : neverWrites (cmd.forEach ps body));
    [|destruct (Hloop st1) as (_ & Hq); destruct (cmd.forEach ps body st1) as [[[]|e| |] st2]]
  end.
  { apply neverWrites_forEach. intros p. readonly. }
  all: cbn [fst snd] in *; try (intros _; exact Hq).
  rewrite bind_run.
  destruct (cmd.missingMembers _ _) as [missing|]; cbn [cmd.orPanic ret panic fst snd];
    [|intros _; exact Hq].
  rewrite inviteMembers_spec. cbn [fst]. congruence.
Qed.

(** Property X18.  The member step comes first and its failure ends the
    apply run: the run is then the run of the member step after the
    heading; it makes the member listing and no other call, so no team and
    no repository is touched, and it queues no invitation. *)
Theorem failed_member_step_ends_the_apply (teamsRun : bool -> M unit) (st : State) :
  let st0 := mkState (world st) (calls st)
                     (output st ++ [report.Header "Org"] ++ [report.Newline])
                     (manifest st) (queue st) in
  fst (cmd.membersRun false st0) <> Ok tt ->
  cmd.applyRun teamsRun st = cmd.membersRun false st0 /\
  requests (snd (cmd.applyRun teamsRun st)) =
    requests st ++ [github.Organizations_ListMembers (gh_pb.Organization.Name (manifest st))] /\
  queue (snd (cmd.applyRun teamsRun st)) = queue st.
Proof.
  intros st0 Hfail.
  assert (Hrun : cmd.applyRun teamsRun st = cmd.membersRun false st0).
  { unfold cmd.applyRun, cmd.println.
    rewrite bind_run. cbn [print fst snd]. rewrite bind_run. cbn [print fst snd].
    cbn [world calls output manifest queue]. rewrite <- app_assoc. fold st0. rewrite bind_run.
    destruct (cmd.membersRun false st0) as [[[]|e| |] s]; cbn [fst snd] in *;
      [congruence|reflexivity..]. }
  rewrite Hrun. split; [reflexivity|]. split.
  - unfold requests. rewrite membersRun_calls. now rewrite map_app.
  - now rewrite membersRun_failure_keeps_queue.
Qed.

End ApplyOrder.

(** Property X18 at a concrete input. *)
Lemma failed_member_step_witness :
  let st := mkState (P := offline) tt [] [] example.syncedManifest [] in
  fst (cmd.applyRun noTeams st)
  = Error (client.Upstream (github.OtherError "dial tcp: timeout")) /\
  requests (snd (cmd.applyRun noTeams st)) = [github.Organizations_ListMembers "acme"] /\
  queue (snd (cmd.applyRun noTeams st)) = [].
Proof.
  intros st.
  destruct (failed_member_step_ends_the_apply (P := offline) noTeams st) as (H1 & H2 & H3).
  - discriminate.
  - split; [now rewrite H1|]. split; [exact H2|exact H3].
Defined.

(** Property X2 at a concrete input. *)
Lemma GetRepos_returns_the_pages_served_witness :
  let st := sim.start example.topicsRemote example.sortedManifest in
  fst (clt.GetRepos 1 "acme" st) = Ok [example.tagged ["a"; "b"]] /\
  forallb notArchived [example.tagged ["a"; "b"]] = true.
Proof.
  intros st. split; [reflexivity|].
  apply (proj2 (GetRepos_returns_the_pages_served (P := sim.github_com) 1 "acme" st)).
  reflexivity.
Defined.

(** Property X5 at a concrete input. *)
Lemma transport_failure_panics_witness :
  let st := mkState (P := offline) tt [] [] example.membersManifest [] in
  let e := github.OtherError "dial tcp: timeout" in
  transportFailure offlineAnswer e /\
  fst (clt.GetRepo "acme" "site" st) = Panic /\
  fst (clt.GetRepos 1 "acme" st) = Error (client.Errorf "get org: %w" (Some e)) /\
  fst (clt.GetMembers "acme" st) = Error (client.Upstream e).
Proof.
  intros st e.
  assert (H : transportFailure offlineAnswer e) by (repeat split).
  split; [exact H|].
  destruct (transport_failure_panics (P := offline) st) as (H1 & _ & _ & _ & H5 & H6 & _).
  split; [exact (proj1 (H1 "acme" "site" e H))|].
  split; [exact (H5 "acme" e 1 H)|exact (H6 "acme" e H)].
Defined.

(** Property X7 at a concrete input. *)
Lemma inviteTask_invites_the_user_found_witness :
  let st := sim.start usersRemote example.membersManifest in
  requests (snd (clt.inviteTask "acme" "alice" st)) =
    [github.Users_Get "alice"; github.Organizations_CreateOrgInvitation "acme" (Some 42%Z)] /\
  fst (clt.inviteTask "acme" "Alice" st) = Error client.ErrUserNotFound.
Proof.
  intros st. split.
  - destruct (inviteTask_invites_the_user_found (P := sim.github_com) "acme" "alice" st)
      as (H & _).
    exact (H (github.User.mk (Some "alice") (Some 42%Z) None None) eq_refl eq_refl).
  - destruct (inviteTask_invites_the_user_found (P := sim.github_com) "acme" "Alice" st)
      as (_ & _ & H).
    apply H. exists (github.Response.mk 404 0), (github.ErrorResponse 404). repeat split.
Defined.

(** Property X8 at a concrete input. *)
Lemma ensureRepo_aborts_on_lookup_error_witness :
  let st := mkState (P := throttled) tt [] [] example.membersManifest [] in
  fst (cmd.ensureRepo "acme" 0 example.described false st) = Error clt.hitRateLimit /\
  requests (snd (cmd.ensureRepo "acme" 0 example.described false st))
  = [github.Repositories_Get "acme" "site"].
Proof.
  intros st.
  destruct (ensureRepo_aborts_on_lookup_error (P := throttled) "acme" 0 example.described
              false st github.RateLimitError eq_refl (or_introl eq_refl)) as (H1 & H2 & _).
  split; [exact H1|exact H2].
Defined.

(** Property X10 at a concrete input. *)
Lemma createRepo_dry_run_previews_the_creation_witness :
  let st := sim.start example.emptyRemote example.membersManifest in
  fst (cmd.createRepo "acme" example.described false st) = Ok tt /\
  map marker (output (snd (cmd.createRepo "acme" example.described false st)))
  = map marker (output (snd (cmd.createRepo "acme" example.described true st))).
Proof.
  intros st.
  destruct (createRepo_dry_run_previews_the_creation (P := sim.github_com) "acme"
              example.described st) as (_ & _ & H & _).
  exact (H eq_refl).
Defined.

(** Property X11 at a concrete input. *)
Lemma missing_repo_with_labels_witness :
  let st := sim.start example.emptyRemote example.membersManifest in
  fst (cmd.ensureRepo "acme" 0 example.describedLabelled true st) = Panic /\
  fst (cmd.ensureRepo "acme" 0 example.describedLabelled false st) <> Ok tt.
Proof.
  intros st.
  destruct (missing_repo_with_labels_is_never_reconciled (P := sim.github_com) "acme" 0
              example.describedLabelled st) as (H1 & H2 & _).
  - exists (github.Response.mk 404 0), (github.ErrorResponse 404). repeat split.
  - discriminate.
  - split; [exact H1|exact H2].
Defined.

(** Property X17 at a concrete input. *)
Lemma member_without_login_panics_witness :
  let st := mkState (P := withAnonymous) tt [] [] example.membersManifest [] in
  fst (cmd.membersRun false st) = Panic /\
  requests (snd (cmd.membersRun false st)) = [github.Organizations_ListMembers "acme"] /\
  queue (snd (cmd.membersRun false st)) = [].
Proof.
  intros st.
  apply (member_without_login_panics (P := withAnonymous) false st).
  - reflexivity.
  - discriminate.
  - exists anonymous. split; [now left|reflexivity].
Defined.

(** Property X15 at a concrete input. *)
Lemma ensureSignedCommits_follows_witness :
  let st := sim.start signedRemote unsignedManifest in
  let repo := gh_pb.Repository.mk "site" None None None None [] [unsignedBranch] in
  requests (snd (cmd.ensureSignedCommits "acme" repo unsignedBranch false st))
  = [github.Repositories_GetBranchProtection "acme" "site" "main";
     github.Repositories_RequireSignaturesOnProtectedBranch "acme" "site" "main"].
Proof.
  intros st repo.
  destruct (ensureSignedCommits_follows_the_remote_setting (P := sim.github_com) "acme"
              repo unsignedBranch st) as (_ & H).
  exact (proj2 (H false eq_refl eq_refl)).
Defined.

(** Property X14 at a concrete input. *)
Lemma protection_is_rewritten_witness :
  let st := sim.start example.unprotectedRemote example.membersManifest in
  exists rest,
    requests (snd (cmd.ensureProtectedBranches "acme" reviewedRepo None false st)) =
      [github.Repositories_GetBranchProtection "acme" "site" "main";
       github.Repositories_UpdateBranchProtection "acme" "site" "main"
         (github.ProtectionRequest.mk None
            (Some github.PullRequestReviewsEnforcementRequest.mk))] ++ rest.
Proof.
  intros st.
  apply (protection_is_rewritten_on_every_apply (P := sim.github_com) "acme" reviewedRepo
           None reviewedBranch [] st eq_refl).
  right. exists (github.Response.mk 404 0), (github.ErrorResponse 404). repeat split.
Defined.

Section RateLimits.
Context {P : Provider}.

(** Property X19.  Outside the organization probe of [GetRepos], a
    rate-limit signal is fatal.  In every run of the listing loop of
    [GetRepos], of every other gateway operation of the sources and of the
    reconciler built on them, a call answered by such a signal is the last
    call of the run, so no call is retried, and the run ends with an error
    that is none of the benign outcomes. *)
Theorem rate_limit_is_fatal_outside_the_probe :
  (forall fuel name orgFound page repos,
     abortsOnRateLimit (clt.GetRepos_loop fuel name orgFound page repos)) /\
  (forall org name, abortsOnRateLimit (clt.GetRepo org name)) /\
  (forall org name, abortsOnRateLimit (clt.GetRepoTopics org name)) /\
  (forall org repo, abortsOnRateLimit (clt.GetBranches org repo)) /\
  (forall org repo branch, abortsOnRateLimit (clt.GetBranchProtection org repo branch)) /\
  (forall org repo branch, abortsOnRateLimit (clt.IsBranchProtected org repo branch)) /\
  (forall name, abortsOnRateLimit (clt.GetOrg name)) /\
  (forall name, abortsOnRateLimit (clt.OrgExists name)) /\
  (forall name, abortsOnRateLimit (clt.GetMembers name)) /\
  (forall org username, abortsOnRateLimit (clt.inviteTask org username)) /\
  (forall rq format, abortsOnRateLimit (clt.write rq format)) /\
  (forall org ptr repo dry, abortsOnRateLimit (cmd.ensureRepo org ptr repo dry)) /\
  (forall dry, abortsOnRateLimit (cmd.reposRun dry)) /\
  (forall dry, abortsOnRateLimit (cmd.membersRun dry)).
Proof.
  repeat split; intros; apply guarded_aborts.
  - apply guarded_GetRepos_loop.
  - apply guarded_GetRepo.
  - apply guarded_GetRepoTopics.
  - apply guarded_GetBranches.
  - apply guarded_GetBranchProtection.
  - apply guarded_IsBranchProtected.
  - apply guarded_GetOrg.
  - apply guarded_OrgExists.
  - apply guarded_GetMembers.
  - apply guarded_inviteTask.
  - apply guarded_write.
  - apply guarded_ensureRepo.
  - apply guarded_reposRun.
  - apply guarded_membersRun.
Qed.

End RateLimits.

(** Property X19 at a concrete input. *)
Lemma rate_limit_is_fatal_outside_the_probe_witness :
  let st := mkState (P := throttled) tt [] [] example.membersManifest [] in
  rateLimited throttledAnswer = true /\
  requests (snd (clt.GetRepo "acme" "site" st)) = [github.Repositories_Get "acme" "site"] /\
  exists e, fst (clt.GetRepo "acme" "site" st) = Error e /\ recoverable e = false.
Proof.
  intros st. split; [reflexivity|]. split; [reflexivity|].
  destruct (rate_limit_is_fatal_outside_the_probe (P := throttled)) as (_ & H & _).
  destruct (H "acme" "site" st) as (l & Hl & Hlast).
  destruct (Hlast [] (github.Repositories_Get "acme" "site") throttledAnswer [])
    as (_ & He); [|reflexivity|exact He].
  apply (app_inv_head (calls st)). rewrite <- Hl. reflexivity.
Defined.

Section MembershipDiff.
Context {P : Provider}.

(** Property X20.  The membership diff.  When the member listing
    succeeds, with every login present: a remote member is managed exactly
    when some manifest member has its login as username up to case, and the
    members to invite are exactly the manifest members, in manifest order,
    whose username no remote member has as login up to case.  [membersRun]
    then succeeds with the listing as its only call; it reports each remote
    member as existing (managed) or as existing but not in the manifest
    (unmanaged), and after these one invitation per member to invite; a dry
    run leaves the work list as it is, an apply run adds one entry per
    member to invite. *)
Theorem members_diff_is_computed_up_to_case (dry : bool) (st : State) :
  let org := manifest st in
  let people := gh_pb.Organization.People org in
  let rq := github.Organizations_ListMembers (gh_pb.Organization.Name org) in
  let a := fst (roundTrip (world st) rq) in
  let ps := github.asUsers (github.payload a) in
  let st' := snd (cmd.membersRun dry st) in
  github.err a = None -> Forall loginKnown ps ->
  (forall p, In p ps ->
     cmd.managedMember people p = Some (inManifest people (github.User.GetLogin p))) /\
  cmd.missingMembers people ps = Some (toInvite people ps) /\
  fst (cmd.membersRun dry st) = Ok tt /\
  requests st' = requests st ++ [rq] /\
  (exists invites,
     output st' = output st
                  ++ [report.Newline; report.Header "Members"; report.Newline]
                  ++ flat_map (memberLines people) ps
                  ++ invites /\
     List.length invites
     = ((if dry then 2 else 4) * List.length (toInvite people ps))%nat) /\
  (dry = true -> queue st' = queue st) /\
  (dry = false ->
   List.length (queue st')
   = (List.length (queue st) + List.length (toInvite people ps))%nat).
Proof.
  intros org people rq a ps st' Herr Hps.
  assert (Hlines : forall l,
            List.length (flat_map (inviteLines dry) l)
            = ((if dry then 2 else 4) * List.length l)%nat).
  { induction l as [|m l IH]; [now destruct dry|].
    cbn [flat_map]. rewrite length_app, IH. destruct dry; simpl; lia. }
  assert (Hqueue : forall l,
            List.length (flat_map (entriesQueued (gh_pb.Organization.Name org) dry) l)
            = (if dry then 0 else List.length l)%nat).
  { induction l as [|m l IH]; [now destruct dry|].
    cbn [flat_map]. rewrite length_app, IH. destruct dry; simpl; lia. }
  split; [|split].
  - intros p Hp. apply managedMember_spec. rewrite Forall_forall in Hps. now apply Hps.
  - now apply missingMembers_spec.
  - subst st'. rewrite (membersRun_spec dry st Herr Hps).
    cbn [fst snd output queue]. fold org rq a ps people.
    split; [reflexivity|]. split; [apply requests_app_call|].
    split; [eexists; split; [reflexivity|apply Hlines]|].
    split.
    + intros ->. cbn [entriesQueued].
      assert (E : flat_map (fun _ : gh_pb.People.t => @nil (string * string))
                           (toInvite people ps) = [])
        by (induction (toInvite people ps); simpl; auto).
      unfold entriesQueued. rewrite E. apply app_nil_r.
    + intros ->. rewrite length_app, Hqueue. reflexivity.
Qed.

End MembershipDiff.

(** Property X20 at a concrete input. *)
Lemma members_diff_is_computed_up_to_case_witness :
  let st := sim.start example.namesRemote example.namesManifest in
  let people := gh_pb.Organization.People example.namesManifest in
  cmd.managedMember people (simUser "bob") = Some true /\
  cmd.managedMember people (simUser "carol") = Some false /\
  cmd.missingMembers people (map simUser ["bob"; "carol"]) = Some [example.smith] /\
  requests (snd (cmd.membersRun false st)) = [github.Organizations_ListMembers "acme"].
Proof.
  intros st people.
  destruct (members_diff_is_computed_up_to_case (P := sim.github_com) false st)
    as (Hm & Hd & _ & Hr & _).
  - reflexivity.
  - repeat constructor; discriminate.
  - split; [apply (Hm (simUser "bob")); now left|].
    split; [apply (Hm (simUser "carol")); right; now left|].
    split; [exact Hd|exact Hr].
Defined.
